(** * SER player: container decoder, colour reconstruction, frame alignment
      and frame stacking

    A shallow embedding of [src/ser_parser.py], [src/image_processor.py],
    [src/frame_aligner.py], [src/lucky_imaging.py], [src/stacker.py],
    [src/frame_cache.py], [src/file_manager.py], [src/playback_controller.py]
    and [src/gui/navigation_controller.py].

    Conventions.
    - Python integers are unbounded: they are [Z].
    - A file is the list of its bytes; [os.path.getsize] is its length.
    - A raised exception is the [Raise] branch of [result].
    - numpy's float32/float64 arithmetic is carried out in [Q].  On the
      values the statements below evaluate (integers and their halves and
      quarters, far below 2^24) the floating-point operations are exact, so
      the two agree there. *)

From Stdlib Require Import Strings.String Strings.Byte Strings.Ascii.
From Stdlib Require Import ZArith QArith Qround Qabs List Bool Lia.
From Stdlib Require Import Sorted.
Import ListNotations.
Open Scope Z_scope.

(** ** Exceptions and results *)

(** The field a [SERFormatError] complains about. *)
Inductive format_field :=
| FileTooSmall
| BadFileID
| BadColorID
| BadPixelDepth
| ZeroFrameCount.

Inductive exn :=
| SERError            (* base class, raised as such for "Header not parsed yet" *)
| SERFormatError (f : format_field)
| SERIOError
| SERIndexError (frame_index frame_count : Z)
| ValueError          (* numpy: operands could not be broadcast together *)
| PyException (msg : string).   (* a plain [Exception(msg)] *)

Inductive result (A : Type) :=
| Ok (a : A)
| Raise (e : exn).
Arguments Ok {A} a.
Arguments Raise {A} e.

Definition rbind {A B} (r : result A) (k : A -> result B) : result B :=
  match r with
  | Ok a => k a
  | Raise e => Raise e
  end.

Declare Scope result_scope.
Delimit Scope result_scope with result.
Notation "x <- r ;; k" := (rbind r (fun x => k))
  (at level 61, r at next level, right associativity) : result_scope.
Notation "' pat <- r ;; k" := (rbind r (fun x => let 'pat := x in k))
  (at level 61, pat pattern, r at next level, right associativity) : result_scope.

(** ** Bytes, slices and [struct.unpack] *)

Definition byte_val (b : byte) : Z := Z.of_N (Byte.to_N b).

(** [l[lo:hi]] for [0 <= lo <= hi]. *)
Definition slice {A} (lo hi : nat) (l : list A) : list A :=
  firstn (hi - lo) (skipn lo l).

(** [bytes.rstrip(b'\x00')]. *)
Fixpoint lstrip0 (l : list byte) : list byte :=
  match l with
  | x00 :: t => lstrip0 t
  | _ => l
  end.

Definition rstrip0 (l : list byte) : list byte := rev (lstrip0 (rev l)).

Definition bytes_eqb (a b : list byte) : bool :=
  if list_eq_dec Byte.byte_eq_dec a b then true else false.

(** The byte-order character of a [struct] format: ['<'] or ['>']. *)
Inductive endian := LittleEnd | BigEnd.

Fixpoint le_uint (bs : list byte) : Z :=
  match bs with
  | [] => 0
  | b :: t => byte_val b + 256 * le_uint t
  end.

(** [struct.unpack(f'{endian_char}I', bs)[0]] (and ['Q']): the unsigned
    integer the bytes spell in the given order. *)
Definition unpack_uint (e : endian) (bs : list byte) : Z :=
  match e with
  | LittleEnd => le_uint bs
  | BigEnd => le_uint (rev bs)
  end.

(** The value a field of [n] bytes at offset [off] spells, as the container
    format defines the two byte orders: least significant byte first, or
    most significant byte first. *)
Definition byte_at (bs : list byte) (i : nat) : Z := byte_val (nth i bs x00).

Fixpoint little_endian_at (bs : list byte) (off n : nat) : Z :=
  match n with
  | O => 0
  | S k => byte_at bs off + 256 * little_endian_at bs (S off) k
  end.

Fixpoint big_endian_at (bs : list byte) (off n : nat) : Z :=
  match n with
  | O => 0
  | S k => byte_at bs off * 256 ^ Z.of_nat k + big_endian_at bs (S off) k
  end.

Definition field_at (e : endian) (bs : list byte) (off n : nat) : Z :=
  match e with
  | LittleEnd => little_endian_at bs off n
  | BigEnd => big_endian_at bs off n
  end.

(** ** numpy arrays

    A frame is a 2-D array (mono or filter-array samples, [height] rows of
    [width] values) or a 3-D one (packed colour, three values per pixel). *)

Inductive ndarray (A : Type) :=
| Arr2 (rows : list (list A))
| Arr3 (rows : list (list (list A))).
Arguments Arr2 {A} rows.
Arguments Arr3 {A} rows.

Inductive dtype := uint8 | uint16.

Record frame := { dtype_of : dtype; px : ndarray Z }.

(** [a.reshape((n, w))] of a flat buffer of [n * w] items. *)
Fixpoint reshape {A} (n w : nat) (l : list A) : list (list A) :=
  match n with
  | O => []
  | S n' => firstn w l :: reshape n' w (skipn w l)
  end.

(** ** ser_parser.py *)

Module SERParser.

Record SERHeader := {
  file_id : list byte;
  lu_id : Z;
  color_id : Z;
  little_endian : Z;     (* 0=little, 1=big *)
  image_width : Z;
  image_height : Z;
  pixel_depth : Z;
  frame_count : Z;
  observer : list byte;  (* the text fields are kept as the stripped bytes *)
  instrument : list byte;
  telescope : list byte;
  datetime_utc : Z
}.

Definition HEADER_SIZE : Z := 178.
Definition FILE_ID : list byte := list_byte_of_string "LUCAM-RECORDER".
Definition VALID_COLOR_IDS : list Z := [0; 1; 2; 3; 4; 8; 9; 16; 17; 100; 101].
Definition VALID_PIXEL_DEPTHS : list Z := [8; 16].

Definition Z_in (x : Z) (l : list Z) : bool := existsb (Z.eqb x) l.

(** The parser object: the file it reads and the attributes [__init__]
    creates and [parse_header] fills in. *)
Record t := {
  file : list byte;
  header : option SERHeader;
  _frame_size : Z;
  _has_timestamps : bool
}.

(** [__init__] on a path that names an existing file. *)
Definition init (contents : list byte) : t :=
  {| file := contents; header := None; _frame_size := 0; _has_timestamps := false |}.

Definition file_size (p : t) : Z := Z.of_nat (length (file p)).

(** [endian_char = '<' if little_endian == 0 else '>'] *)
Definition endian_char (little_endian : Z) : endian :=
  if little_endian =? 0 then LittleEnd else BigEnd.

Definition frame_size_of (h : SERHeader) : Z :=
  let planes := if Z_in (color_id h) [100; 101] then 3 else 1 in
  let bytes_per_pixel := pixel_depth h / 8 in
  image_width h * image_height h * bytes_per_pixel * planes.

Definition calculate_frame_size (p : t) : result Z :=
  match header p with
  | None => Raise SERError
  | Some h => Ok (frame_size_of h)
  end.

(** [parse_header]: the parser with its attributes set, and the header. *)
Definition parse_header (p : t) : result (t * SERHeader) :=
  let header_bytes := firstn (Z.to_nat HEADER_SIZE) (file p) in
  if Z.of_nat (length header_bytes) <? HEADER_SIZE then Raise (SERFormatError FileTooSmall)
  else
    let file_id := rstrip0 (slice 0 14 header_bytes) in
    if negb (bytes_eqb file_id FILE_ID) then Raise (SERFormatError BadFileID)
    else
      let little_endian := unpack_uint LittleEnd (slice 22 26 header_bytes) in
      let ec := endian_char little_endian in
      let lu_id := unpack_uint ec (slice 14 18 header_bytes) in
      let color_id := unpack_uint ec (slice 18 22 header_bytes) in
      let image_width := unpack_uint ec (slice 26 30 header_bytes) in
      let image_height := unpack_uint ec (slice 30 34 header_bytes) in
      let pixel_depth := unpack_uint ec (slice 34 38 header_bytes) in
      let frame_count := unpack_uint ec (slice 38 42 header_bytes) in
      let datetime_utc := unpack_uint ec (slice 162 170 header_bytes) in
      if negb (Z_in color_id VALID_COLOR_IDS) then Raise (SERFormatError BadColorID)
      else if negb (Z_in pixel_depth VALID_PIXEL_DEPTHS) then Raise (SERFormatError BadPixelDepth)
      else if frame_count =? 0 then Raise (SERFormatError ZeroFrameCount)
      else
        let h := {| file_id := file_id; lu_id := lu_id; color_id := color_id;
                    little_endian := little_endian;
                    image_width := image_width; image_height := image_height;
                    pixel_depth := pixel_depth; frame_count := frame_count;
                    observer := rstrip0 (slice 42 82 header_bytes);
                    instrument := rstrip0 (slice 82 122 header_bytes);
                    telescope := rstrip0 (slice 122 162 header_bytes);
                    datetime_utc := datetime_utc |} in
        let frame_size := frame_size_of h in
        let expected_size_with_timestamps :=
          HEADER_SIZE + frame_count * frame_size + frame_count * 8 in
        Ok ({| file := file p; header := Some h; _frame_size := frame_size;
               _has_timestamps := (file_size p =? expected_size_with_timestamps) |},
            h).

Definition has_timestamps (p : t) : bool := _has_timestamps p.

(** [seek(offset)] then [read(size)]: at most [size] bytes, fewer at the
    end of the file.  Offsets and sizes are unbounded here; the source's
    [seek] and [read] refuse arguments of 2^63 and more, and [read] needs a
    buffer of [size] bytes, so what is stated of a read that falls short is
    stated for sizes no larger than the file and offsets below 2^63. *)
Definition read_at (p : t) (offset size : Z) : list byte :=
  firstn (Z.to_nat size) (skipn (Z.to_nat offset) (file p)).

(** [np.frombuffer(frame_bytes, dtype)] *)
Fixpoint frombuffer_u2 (e : endian) (bs : list byte) : list Z :=
  match bs with
  | b0 :: b1 :: rest => unpack_uint e [b0; b1] :: frombuffer_u2 e rest
  | _ => []
  end.

Definition frombuffer (d : dtype) (e : endian) (bs : list byte) : list Z :=
  match d with
  | uint8 => map byte_val bs
  | uint16 => frombuffer_u2 e bs
  end.

Definition get_frame (p : t) (frame_index : Z) : result frame :=
  match header p with
  | None => Raise SERError
  | Some h =>
    if (frame_index <? 0) || (frame_index >=? frame_count h)
    then Raise (SERIndexError frame_index (frame_count h))
    else
      let offset := HEADER_SIZE + frame_index * _frame_size p in
      let frame_bytes := read_at p offset (_frame_size p) in
      if Z.of_nat (length frame_bytes) <? _frame_size p then Raise SERIOError
      else
        let ec := endian_char (little_endian h) in
        let dt := if pixel_depth h =? 8 then uint8 else uint16 in
        let frame_data := frombuffer dt ec frame_bytes in
        let hh := Z.to_nat (image_height h) in
        let ww := Z.to_nat (image_width h) in
        if Z_in (color_id h) [100; 101]
        then Ok {| dtype_of := dt; px := Arr3 (reshape hh ww (reshape (hh * ww) 3 frame_data)) |}
        else Ok {| dtype_of := dt; px := Arr2 (reshape hh ww frame_data) |}
  end.

Definition EPOCH_DIFF : Z := 116444736000000000.

(** [get_timestamp]: [None] without a trailer, else the frame's time.  The
    time is left as the seconds since 1970, an exact quotient: the source
    divides in doubles and hands the quotient to [datetime.fromtimestamp],
    which rounds it to microseconds and raises for a year past 9999.  That
    conversion is not modelled, and nothing below is stated of the value
    returned for a frame of the file. *)
Definition get_timestamp (p : t) (frame_index : Z) : result (option Q) :=
  match header p with
  | None => Raise SERError
  | Some h =>
    if negb (_has_timestamps p) then Ok None
    else if (frame_index <? 0) || (frame_index >=? frame_count h)
    then Raise (SERIndexError frame_index (frame_count h))
    else
      let timestamp_offset :=
        HEADER_SIZE + frame_count h * _frame_size p + frame_index * 8 in
      let timestamp_bytes := read_at p timestamp_offset 8 in
      if negb (length timestamp_bytes =? 8)%nat then Raise SERIOError  (* struct.error *)
      else
        let raw_timestamp := unpack_uint (endian_char (little_endian h)) timestamp_bytes in
        Ok (Some (inject_Z (raw_timestamp - EPOCH_DIFF) / inject_Z 10000000)%Q)
  end.

(** The [seek], [read] and [struct.unpack] of [get_timestamp] for an index
    in range: the local [raw_timestamp], in units of 100 ns since 1601. *)
Definition raw_timestamp (p : t) (frame_index : Z) : result Z :=
  match header p with
  | None => Raise SERError
  | Some h =>
    let timestamp_offset :=
      HEADER_SIZE + frame_count h * _frame_size p + frame_index * 8 in
    let timestamp_bytes := read_at p timestamp_offset 8 in
    if negb (length timestamp_bytes =? 8)%nat then Raise SERIOError  (* struct.error *)
    else Ok (unpack_uint (endian_char (little_endian h)) timestamp_bytes)
  end.

End SERParser.

(** ** numpy and scipy helpers used by the image code *)

(** [l[0::2]] and [l[1::2]] *)
Fixpoint from0_step2 {A} (l : list A) : list A :=
  match l with
  | [] => []
  | x :: t => x :: match t with
                   | [] => []
                   | _ :: t' => from0_step2 t'
                   end
  end.

Definition from1_step2 {A} (l : list A) : list A := from0_step2 (tl l).

Definition step2 {A} (start : nat) (l : list A) : list A :=
  match start with
  | O => from0_step2 l
  | _ => from1_step2 l
  end.

(** [data[a::2, b::2]] *)
Definition quarter {A} (a b : nat) (data : list (list A)) : list (list A) :=
  map (step2 b) (step2 a data).

Fixpoint sequence {A} (l : list (result A)) : result (list A) :=
  match l with
  | [] => Ok []
  | r :: t => (x <- r ;; xs <- sequence t ;; Ok (x :: xs))%result
  end.

(** An elementwise binary operation of numpy along one axis: equal lengths
    pair up, a length-1 operand is stretched, anything else does not
    broadcast. *)
Definition broadcast {A B} (f : A -> A -> result B) (x y : list A) : result (list B) :=
  if (length x =? length y)%nat then sequence (map (fun '(a, b) => f a b) (combine x y))
  else match x, y with
       | [a], _ => sequence (map (fun b => f a b) y)
       | _, [b] => sequence (map (fun a => f a b) x)
       | _, _ => Raise ValueError
       end.

(** The same on 2-D arrays.  Shapes are read off the lists, so an array
    without rows has no width of its own. *)
Definition np_binop (f : Q -> Q -> Q) (x y : list (list Q)) : result (list (list Q)) :=
  broadcast (broadcast (fun a b => Ok (f a b))) x y.

Definition np_map {A B} (f : A -> B) (x : list (list A)) : list (list B) :=
  map (map f) x.

(** [np.clip(v, lo, hi)] on one value *)
Definition clipQ (lo hi v : Q) : Q :=
  if Qle_bool v lo then lo else if Qle_bool hi v then hi else v.

(** Linear interpolation with weight [t] on the right neighbour; the right
    neighbour is not read when its weight is zero. *)
Definition lerp {A} (mix : Q -> A -> A -> A) (t : Q) (a b : A) : A :=
  if Qeq_bool t 0 then a else mix t a b.

(** [scipy.ndimage.zoom(x, 2, order=1)] along one axis: [2n] outputs, output
    [j] reads the input at coordinate [j * (n-1) / (2n-1)] by linear
    interpolation.  The coordinates and weights are exact here, where scipy
    computes them in double precision. *)
Definition zoom_axis {A} (mix : Q -> A -> A -> A) (dflt : A) (l : list A) : list A :=
  let n := length l in
  let m := (2 * n)%nat in
  map (fun j : nat =>
         let cc := (inject_Z (Z.of_nat j) * (inject_Z (Z.of_nat n - 1) / inject_Z (Z.of_nat m - 1)))%Q in
         let f := Qfloor cc in
         let t := (cc - inject_Z f)%Q in
         lerp mix t (nth (Z.to_nat f) l dflt) (nth (Z.to_nat f + 1) l dflt))
      (seq 0 m).

Definition mixQ (t a b : Q) : Q := ((1 - t) * a + t * b)%Q.

Definition zoom2 (x : list (list Q)) : list (list Q) :=
  zoom_axis (fun t r1 r2 => map (fun '(a, b) => mixQ t a b) (combine r1 r2)) []
            (map (zoom_axis mixQ 0%Q) x).

(** [x[:height, :width]] *)
Definition crop {A} (height width : nat) (x : list (list A)) : list (list A) :=
  firstn height (map (firstn width) x).

(** [astype(np.uint8)] of a float: the fraction is dropped, the integer is
    taken modulo 256. *)
Definition astype_uint8 (v : Q) : Z := Z.quot (Qnum v) (Zpos (Qden v)) mod 256.

(** [str.upper()] on ASCII text, and [needle in hay] for strings. *)
Definition upper_char (c : ascii) : ascii :=
  let n := nat_of_ascii c in
  if ((97 <=? n) && (n <=? 122))%nat then ascii_of_nat (n - 32) else c.

Fixpoint str_upper (s : string) : string :=
  match s with
  | EmptyString => EmptyString
  | String c t => String (upper_char c) (str_upper t)
  end.

Fixpoint occurs (needle hay : string) : bool :=
  String.prefix needle hay ||
  match hay with
  | EmptyString => false
  | String _ t => occurs needle t
  end.

(** [d[k]] for [k in d] *)
Definition dict_get (d : list (string * string)) (k : string) : option string :=
  option_map snd (find (fun kv => String.eqb (fst kv) k) d).

(** ** image_processor.py *)

Module ImageProcessor.

Definition COLOR_MONO : Z := 0.
Definition COLOR_BAYER_RGGB : Z := 1.
Definition COLOR_BAYER_GRBG : Z := 2.
Definition COLOR_BAYER_GBRG : Z := 3.
Definition COLOR_BAYER_BGGR : Z := 4.
Definition COLOR_BAYER_CYYM : Z := 8.
Definition COLOR_BAYER_YCMY : Z := 9.
Definition COLOR_BAYER_YMCY : Z := 16.
Definition COLOR_BAYER_MYYC : Z := 17.
Definition COLOR_RGB : Z := 100.
Definition COLOR_BGR : Z := 101.

(** The camera table, in the order of the source. *)
Definition CAMERA_CYYM_PATTERNS : list (string * string) :=
  [ ("ZWO ASI183MC", "YCMY"); ("ZWO ASI183MM", "YCMY"); ("ZWO ASI294MC", "YCMY");
    ("ZWO ASI533MC", "YCMY"); ("ZWO ASI678MC", "YCMY") ]%string.

(** [detect_cyym_pattern]; the instrument name is ASCII text. *)
Definition detect_cyym_pattern (instrument : string) : string :=
  if String.eqb instrument "" then "CYYM"%string
  else
    match dict_get CAMERA_CYYM_PATTERNS instrument with
    | Some pattern => pattern
    | None =>
      let instrument_upper := str_upper instrument in
      match find (fun kv => occurs (str_upper (fst kv)) instrument_upper)
                 CAMERA_CYYM_PATTERNS with
      | Some kv => snd kv
      | None => "CYYM"%string
      end
    end.

(** What [process_frame] hands back: a 2-D or 3-D array, or the
    [(height, width, 3, 3)] array [np.stack] builds from a 3-D input. *)
Inductive image :=
| Img (a : ndarray Z)
| Img4 (rows : list (list (list (list Z)))).

(** [(data / 256).astype(np.uint8)] *)
Definition normalize_16bit (data : ndarray Z) : ndarray Z :=
  let f := fun v : Z => astype_uint8 (inject_Z v / 256) in
  match data with
  | Arr2 rows => Arr2 (np_map f rows)
  | Arr3 rows => Arr3 (map (np_map f) rows)
  end.

(** [data[:, :, ::-1].copy()]; a 2-D array has no third axis to index. *)
Definition bgr_to_rgb (data : ndarray Z) : result image :=
  match data with
  | Arr2 _ => Raise (PyException "IndexError")
  | Arr3 rows => Ok (Img (Arr3 (np_map (@rev Z) rows)))
  end.

(** [np.stack([data, data, data], axis=2)] *)
Definition stack3 {A} (rows : list (list A)) : list (list (list A)) :=
  np_map (fun v => [v; v; v]) rows.

Definition mono_to_rgb (data : ndarray Z) : image :=
  match data with
  | Arr2 rows => Img (Arr3 (stack3 rows))
  | Arr3 rows => Img4 (stack3 rows)
  end.

(** The four readings of a 2x2 block, as [(cy, y1, y2, mg)], for each
    arrangement; an unknown name is read as CYYM. *)
Definition cyym_planes {A} (data : list (list A)) (pattern : string)
  : list (list A) * list (list A) * list (list A) * list (list A) :=
  let q00 := quarter 0 0 data in
  let q01 := quarter 0 1 data in
  let q10 := quarter 1 0 data in
  let q11 := quarter 1 1 data in
  if String.eqb pattern "CYYM" then (q00, q01, q10, q11)
  else if String.eqb pattern "YCMY" then (q01, q00, q11, q10)
  else if String.eqb pattern "YMCY" then (q10, q00, q11, q01)
  else if String.eqb pattern "MYYC" then (q11, q01, q10, q00)
  else (q00, q01, q10, q11).

Definition rgb_of_planes (r g b : list (list Z)) : list (list (list Z)) :=
  map (fun '(rr, (gr, br)) =>
         map (fun '(x, (y, z)) => [x; y; z]) (combine rr (combine gr br)))
      (combine r (combine g b)).

(** [debayer_cyym] on a 2-D frame.  On a frame of a single row or a single
    column one of the planes is empty and the source raises where it lays
    the planes into [rgb]; here the planes are zipped, and nothing below is
    stated of such frames. *)
Definition debayer_cyym_2d (data : list (list Z)) (pattern : string)
  : result (list (list (list Z))) :=
  let height := length data in
  let width := length (hd [] data) in
  let fl := np_map inject_Z in
  let '(cy, y1, y2, mg) := cyym_planes data pattern in
  let cy := fl cy in
  let y1 := fl y1 in
  let y2 := fl y2 in
  let mg := fl mg in
  (y12 <- np_binop Qplus y1 y2 ;;
   let y_avg := np_map (fun v => v / 2)%Q y12 in
   ym <- np_binop Qplus y_avg mg ;;
   r2 <- np_binop Qminus ym cy ;;
   yc <- np_binop Qplus y_avg cy ;;
   g2 <- np_binop Qminus yc mg ;;
   cm <- np_binop Qplus cy mg ;;
   b2 <- np_binop Qminus cm y_avg ;;
   let half_clip := fun v => clipQ 0 255 (v / 2)%Q in
   let r := np_map half_clip r2 in
   let g := np_map half_clip g2 in
   let b := np_map half_clip b2 in
   let r_full := crop height width (zoom2 r) in
   let g_full := crop height width (zoom2 g) in
   let b_full := crop height width (zoom2 b) in
   Ok (rgb_of_planes (np_map astype_uint8 r_full)
                     (np_map astype_uint8 g_full)
                     (np_map astype_uint8 b_full)))%result.

(** [height, width = data.shape] does not unpack a 3-D shape. *)
Definition debayer_cyym (data : ndarray Z) (pattern : string) : result image :=
  match data with
  | Arr2 rows => (rgb <- debayer_cyym_2d rows pattern ;; Ok (Img (Arr3 rgb)))%result
  | Arr3 _ => Raise ValueError
  end.

(** The conversion codes of [BAYER_PATTERNS]. *)
Inductive cv2_code :=
| COLOR_BAYER_BG2RGB
| COLOR_BAYER_GB2RGB
| COLOR_BAYER_GR2RGB
| COLOR_BAYER_RG2RGB.

Definition BAYER_PATTERNS (color_id : Z) : option cv2_code :=
  if color_id =? COLOR_BAYER_RGGB then Some COLOR_BAYER_BG2RGB
  else if color_id =? COLOR_BAYER_GRBG then Some COLOR_BAYER_GB2RGB
  else if color_id =? COLOR_BAYER_GBRG then Some COLOR_BAYER_GR2RGB
  else if color_id =? COLOR_BAYER_BGGR then Some COLOR_BAYER_RG2RGB
  else None.

Definition pattern_names (color_id : Z) : option string :=
  if color_id =? COLOR_BAYER_RGGB then Some "RGGB"%string
  else if color_id =? COLOR_BAYER_GRBG then Some "GRBG"%string
  else if color_id =? COLOR_BAYER_GBRG then Some "GBRG"%string
  else if color_id =? COLOR_BAYER_BGGR then Some "BGGR"%string
  else None.

Section Reconstruct.

(** Whether [import cv2] succeeded, and OpenCV's [cvtColor]. *)
Variable HAS_OPENCV : bool.
Variable cv2_cvtColor : ndarray Z -> cv2_code -> result image.

(** The nearest-neighbour fallback for the red/green/blue mosaics
    ([debayer_simple]); only identifiers 1 to 4 reach it. *)
Variable debayer_simple : ndarray Z -> string -> result image.

(** The class attribute [CYYM_PATTERN] at the time of the call (the
    settings menu assigns it). *)
Variable CYYM_PATTERN : string.

Definition debayer (data : ndarray Z) (color_id : Z) : result image :=
  if color_id =? COLOR_BAYER_CYYM then debayer_cyym data CYYM_PATTERN
  else
    match (if HAS_OPENCV then BAYER_PATTERNS color_id else None) with
    | Some pattern => cv2_cvtColor data pattern
    | None =>
      match pattern_names color_id with
      | Some name => debayer_simple data name
      | None => Ok (mono_to_rgb data)
      end
    end.

Definition process_frame (raw_data : ndarray Z) (color_id pixel_depth : Z) : result image :=
  let data := if pixel_depth =? 16 then normalize_16bit raw_data else raw_data in
  if color_id =? COLOR_MONO then Ok (mono_to_rgb data)
  else if SERParser.Z_in color_id
            [COLOR_BAYER_RGGB; COLOR_BAYER_GRBG; COLOR_BAYER_GBRG; COLOR_BAYER_BGGR;
             COLOR_BAYER_CYYM; COLOR_BAYER_YCMY; COLOR_BAYER_YMCY; COLOR_BAYER_MYYC]
  then debayer data color_id
  else if color_id =? COLOR_RGB then Ok (Img data)
  else if color_id =? COLOR_BGR then bgr_to_rgb data
  else match data with
       | Arr2 _ => Ok (mono_to_rgb data)
       | Arr3 _ => Ok (Img data)
       end.

End Reconstruct.

End ImageProcessor.

(** ** OpenCV

    The calls the alignment code makes into [cv2], as an interface.  A call
    that raises [cv2.error] (or anything else) is a [Raise]. *)

Record KeyPoint := { pt : Q * Q }.

Record DMatch := { queryIdx : Z; trainIdx : Z; distance : Q }.

(** A 2x3 affine matrix, row by row. *)
Definition matrix23 : Type := (Q * Q * Q) * (Q * Q * Q).

(** [M[0, 2]] and [M[1, 2]] *)
Definition M02 (M : matrix23) : Q := snd (fst M).
Definition M12 (M : matrix23) : Q := snd (snd M).

Class OpenCV := {
  descriptors : Type;
  (** [cv2.cvtColor(x, cv2.COLOR_RGB2GRAY)] *)
  cvtColor_RGB2GRAY : frame -> result frame;
  (** [cv2.ORB_create(nfeatures, scaleFactor=1.2, nlevels=8).detectAndCompute(gray, None)] *)
  ORB_detectAndCompute : Z -> frame -> result (list KeyPoint * option descriptors);
  (** [cv2.BFMatcher(cv2.NORM_HAMMING, crossCheck=False).knnMatch(des1, des2, k=2)] *)
  BFMatcher_knnMatch : descriptors -> descriptors -> result (list (list DMatch));
  (** [cv2.estimateAffinePartial2D(dst, src, method=RANSAC,
       ransacReprojThreshold, maxIters, confidence=0.99)[0]] *)
  estimateAffinePartial2D : list (Q * Q) -> list (Q * Q) -> Q -> Z -> result (option matrix23);
  (** [cv2.findTransformECC(ref, frame, eye(2,3), MOTION_EUCLIDEAN,
       (EPS|COUNT, max_iterations, termination_eps), None, 5)[1]] *)
  findTransformECC : frame -> frame -> Z -> Q -> result matrix23;
  (** [cv2.warpAffine(frame, M, (w, h), flags, BORDER_CONSTANT, 0)]; the
      boolean is [WARP_INVERSE_MAP]. *)
  warpAffine : frame -> matrix23 -> nat * nat -> bool -> result frame;
  (** [cv2.Laplacian(gray, cv2.CV_64F)] *)
  Laplacian : frame -> result (list (list Q))
}.

(** [try: ... except Exception: return None] *)
Definition try_or_None {A} (r : result (option A)) : option A :=
  match r with
  | Ok o => o
  | Raise _ => None
  end.

(** [l[i]] with Python's negative indices. *)
Definition py_index {A} (l : list A) (i : Z) : result A :=
  let n := Z.of_nat (length l) in
  let j := if i <? 0 then i + n else i in
  if (j <? 0) || (j >=? n) then Raise (PyException "IndexError")
  else match nth_error l (Z.to_nat j) with
       | Some x => Ok x
       | None => Raise (PyException "IndexError")
       end.

Definition Qlt_bool (a b : Q) : bool := negb (Qle_bool b a).

(** [x.shape[:2]], as [(h, w)] *)
Definition shape2 (x : ndarray Z) : nat * nat :=
  match x with
  | Arr2 rows => (length rows, length (hd [] rows))
  | Arr3 rows => (length rows, length (hd [] rows))
  end.

Definition is_3d {A} (x : ndarray A) : bool :=
  match x with
  | Arr2 _ => false
  | Arr3 _ => true
  end.

Section Features.
Context {cv : OpenCV}.

(** The grayscale step shared by every aligner: both images are converted
    when the reference has three axes. *)
Definition gray_pair (reference frm : frame) : result (frame * frame) :=
  if is_3d (px reference)
  then (ref_gray <- cvtColor_RGB2GRAY reference ;;
        frame_gray <- cvtColor_RGB2GRAY frm ;;
        Ok (ref_gray, frame_gray))%result
  else Ok (reference, frm).

(** Lowe's ratio test over the [knnMatch] pairs. *)
Fixpoint ratio_test (ratio : Q) (matches : list (list DMatch)) : list DMatch :=
  match matches with
  | [] => []
  | [m; n] :: rest =>
      if Qlt_bool (distance m) (ratio * distance n)
      then m :: ratio_test ratio rest
      else ratio_test ratio rest
  | _ :: rest => ratio_test ratio rest
  end.

(** [[kps[sel(m)].pt for m in good_matches]] *)
Definition matched_pts (kps : list KeyPoint) (sel : DMatch -> Z) (good : list DMatch)
  : result (list (Q * Q)) :=
  sequence (map (fun m => (k <- py_index kps (sel m) ;; Ok (pt k))%result) good).

(** Detection, matching and the robust fit, common to [align_frame_orb]
    and [align_frame_features]: [Ok None] is one of the [return None]
    exits, [Ok (Some M)] the estimated transform. *)
Definition estimate_transform (nfeatures : Z) (ratio reproj : Q) (maxIters : Z)
           (reference frm : frame) : result (option matrix23) :=
  ('(ref_gray, frame_gray) <- gray_pair reference frm ;;
   '(kp1, des1) <- ORB_detectAndCompute nfeatures ref_gray ;;
   '(kp2, des2) <- ORB_detectAndCompute nfeatures frame_gray ;;
   match des1, des2 with
   | Some d1, Some d2 =>
     if (Z.of_nat (length kp1) <? 10) || (Z.of_nat (length kp2) <? 10) then Ok None
     else
       matches <- BFMatcher_knnMatch d1 d2 ;;
       let good_matches := ratio_test ratio matches in
       if Z.of_nat (length good_matches) <? 10 then Ok None
       else
         src_pts <- matched_pts kp1 queryIdx good_matches ;;
         dst_pts <- matched_pts kp2 trainIdx good_matches ;;
         estimateAffinePartial2D dst_pts src_pts reproj maxIters
   | _, _ => Ok None
   end)%result.

End Features.

(** ** frame_aligner.py *)

Module FrameAligner.
Section Aligner.
Context {cv : OpenCV}.

Definition align_frame_ecc_with (reference frm : frame)
           (max_iterations : Z) (termination_eps : Q) : option frame :=
  try_or_None
    ('(ref_gray, frame_gray) <- gray_pair reference frm ;;
     match findTransformECC ref_gray frame_gray max_iterations termination_eps with
     | Raise _ => Ok None
     | Ok warp_matrix =>
       let '(h, w) := shape2 (px reference) in
       aligned <- warpAffine frm warp_matrix (w, h) true ;;
       Ok (Some aligned)
     end)%result.

(** [align_frame_ecc] with its default arguments *)
Definition align_frame_ecc (reference frm : frame) : option frame :=
  align_frame_ecc_with reference frm 5000 (1 # 1000000).

Definition align_frame_orb_with (reference frm : frame) (max_shift : Z) : option frame :=
  try_or_None
    (M <- estimate_transform 10000 (75 # 100) 5 5000 reference frm ;;
     match M with
     | None => Ok None
     | Some M =>
       let shift_x := M02 M in
       let shift_y := M12 M in
       if Qlt_bool (inject_Z max_shift) (Qabs shift_x)
          || Qlt_bool (inject_Z max_shift) (Qabs shift_y)
       then Ok None
       else
         let '(h, w) := shape2 (px reference) in
         aligned <- warpAffine frm M (w, h) false ;;
         Ok (Some aligned)
     end)%result.

(** [align_frame_orb] with its default [max_shift] *)
Definition align_frame_orb (reference frm : frame) : option frame :=
  align_frame_orb_with reference frm 200.

(** [laplacian.var()]: the mean squared deviation from the mean. *)
Definition np_var (x : list (list Q)) : Q :=
  let vals := concat x in
  let n := inject_Z (Z.of_nat (length vals)) in
  let mean := (fold_right Qplus 0 vals / n)%Q in
  (fold_right Qplus 0 (map (fun v => (v - mean) * (v - mean)) vals) / n)%Q.

Definition calculate_quality_score (image : frame) : result Q :=
  (gray <- (if is_3d (px image) then cvtColor_RGB2GRAY image else Ok image) ;;
   laplacian <- Laplacian gray ;;
   Ok (np_var laplacian))%result.

End Aligner.
End FrameAligner.

(** ** Array arithmetic of the stacking code *)

Definition arr_map {A B} (f : A -> B) (x : ndarray A) : ndarray B :=
  match x with
  | Arr2 rows => Arr2 (np_map f rows)
  | Arr3 rows => Arr3 (map (np_map f) rows)
  end.

(** [x.ravel()] *)
Definition arr_flat {A} (x : ndarray A) : list A :=
  match x with
  | Arr2 rows => concat rows
  | Arr3 rows => concat (concat rows)
  end.

Fixpoint zip_exact {A B C} (f : A -> B -> result C) (x : list A) (y : list B)
  : result (list C) :=
  match x, y with
  | [], [] => Ok []
  | a :: x', b :: y' => (c <- f a b ;; cs <- zip_exact f x' y' ;; Ok (c :: cs))%result
  | _, _ => Raise ValueError
  end.

(** An elementwise operation on two arrays of one shape.  Every array the
    stacking code combines has the shape of the first frame (the parser
    reshapes to the header's size, [warpAffine] to the reference's), so the
    stretching of unequal shapes is left out: they are a [ValueError]. *)
Definition arr_zip {A B C} (f : A -> B -> C) (x : ndarray A) (y : ndarray B)
  : result (ndarray C) :=
  match x, y with
  | Arr2 a, Arr2 b =>
      (r <- zip_exact (zip_exact (fun u v => Ok (f u v))) a b ;; Ok (Arr2 r))%result
  | Arr3 a, Arr3 b =>
      (r <- zip_exact (zip_exact (zip_exact (fun u v => Ok (f u v)))) a b ;; Ok (Arr3 r))%result
  | _, _ => Raise ValueError
  end.

(** [np.array(frames)]: the values of every frame at each position. *)
Fixpoint stack_pixels {A} (frames : list (ndarray A)) : result (ndarray (list A)) :=
  match frames with
  | [] => Raise ValueError
  | [f] => Ok (arr_map (fun v => [v]) f)
  | f :: rest => (r <- stack_pixels rest ;; arr_zip cons f r)%result
  end.

(** A stable insertion sort, as [list.sort] is stable. *)
Fixpoint insert_by {A} (le : A -> A -> bool) (x : A) (l : list A) : list A :=
  match l with
  | [] => [x]
  | y :: t => if le x y then x :: l else y :: insert_by le x t
  end.

Definition sort_by {A} (le : A -> A -> bool) (l : list A) : list A :=
  fold_right (insert_by le) [] l.

(** [np.median] of the values at one position: the middle one, or the mean
    of the two middle ones. *)
Definition median (vals : list Q) : Q :=
  let s := sort_by Qle_bool vals in
  let n := length s in
  if Nat.even n
  then ((nth (n / 2 - 1) s 0 + nth (n / 2) s 0) / 2)%Q
  else nth (n / 2) s 0%Q.

(** [np.percentile(data, q)] with the default linear interpolation: the
    sorted data read at the position [(n-1) * q / 100].  Of an empty array
    (numpy: [nan]) this gives 0. *)
Definition percentile (data : list Q) (q : Q) : Q :=
  let s := sort_by Qle_bool data in
  let n := Z.of_nat (length s) in
  let virtual := (inject_Z (n - 1) * (q / 100))%Q in
  let previous := Qfloor virtual in
  let next := Z.min (previous + 1) (n - 1) in
  let gamma := (virtual - inject_Z previous)%Q in
  let a := nth (Z.to_nat previous) s 0%Q in
  let b := nth (Z.to_nat next) s 0%Q in
  (a + (b - a) * gamma)%Q.

(** [np.iinfo(dtype).max] *)
Definition iinfo_max (d : dtype) : Z :=
  match d with
  | uint8 => 255
  | uint16 => 65535
  end.

(** [x.astype(dtype)] of a float: the fraction is dropped and the integer
    wraps to the width of the type. *)
Definition astype (d : dtype) (v : Q) : Z :=
  Z.quot (Qnum v) (Zpos (Qden v)) mod (iinfo_max d + 1).

(** ** Progress callbacks

    The callback is a closure of the caller: it has a state of its own
    ([CB], the progress dialog) and either returns or raises.  A computation
    that calls it threads that state and stops at the first exception. *)

Definition M (CB A : Type) : Type := CB -> CB * result A.

Definition ret {CB A} (a : A) : M CB A := fun s => (s, Ok a).

Definition bind {CB A B} (m : M CB A) (k : A -> M CB B) : M CB B :=
  fun s => match m s with
           | (s', Ok a) => k a s'
           | (s', Raise e) => (s', Raise e)
           end.

Definition lift {CB A} (r : result A) : M CB A := fun s => (s, r).

Declare Scope run_scope.
Delimit Scope run_scope with run.
Notation "x <- m ;; k" := (bind m (fun x => k))
  (at level 61, m at next level, right associativity) : run_scope.
Notation "' pat <- m ;; k" := (bind m (fun x => let 'pat := x in k))
  (at level 61, pat pattern, m at next level, right associativity) : run_scope.
Notation "m ;; k" := (bind m (fun _ => k))
  (at level 61, right associativity) : run_scope.

Definition callback (CB : Type) : Type := Z -> Z -> M CB unit.

(** [if progress_callback: progress_callback(current, total)] *)
Definition report {CB} (progress_callback : option (callback CB)) (current total : Z)
  : M CB unit :=
  match progress_callback with
  | Some f => f current total
  | None => ret tt
  end.

(** A [for] loop whose body updates the local variables [acc]. *)
Fixpoint for_each {CB X S} (l : list X) (body : X -> S -> M CB S) (acc : S) : M CB S :=
  match l with
  | [] => ret acc
  | x :: t => (acc' <- body x acc ;; for_each t body acc')%run
  end.

(** [range(lo, hi)] *)
Definition range (lo hi : Z) : list Z :=
  map (fun k => lo + Z.of_nat k) (seq 0 (Z.to_nat (hi - lo))).

(** [enumerate(l, start)] *)
Definition enumerate {A} (l : list A) (start : Z) : list (Z * A) :=
  combine (range start (start + Z.of_nat (length l))) l.

(** ** file_manager.py: the opened video file *)

Record VideoFile := {
  file_type : string;
  header_frame_count : Z;               (* [get_header().frame_count] *)
  parser_get_frame : Z -> result frame  (* [parser.get_frame] *)
}.

(** [VideoFile(path)] for a [.ser] path *)
Definition open_ser (contents : list byte) : result VideoFile :=
  ('(p, h) <- SERParser.parse_header (SERParser.init contents) ;;
   Ok {| file_type := "SER";
         header_frame_count := SERParser.frame_count h;
         parser_get_frame := SERParser.get_frame p |})%result.

(** ** lucky_imaging.py *)

Module LuckyImaging.
Section Lucky.
Context {cv : OpenCV} {CB : Type}.

Definition calculate_sharpness (frm : frame) : result Q :=
  (gray <- (if is_3d (px frm) then cvtColor_RGB2GRAY frm else Ok frm) ;;
   laplacian <- Laplacian gray ;;
   Ok (FrameAligner.np_var laplacian))%result.

(** No limit on the translation is applied here. *)
Definition align_frame_features (reference frm : frame) : option frame :=
  try_or_None
    (M <- estimate_transform 5000 (7 # 10) 3 2000 reference frm ;;
     match M with
     | None => Ok None
     | Some M =>
       let '(h, w) := shape2 (px reference) in
       aligned <- warpAffine frm M (w, h) false ;;
       Ok (Some aligned)
     end)%result.

(** [int(x)].  The percentage and the quotient are exact here, where the
    source computes in doubles; the two agree for a whole percentage as
    long as the product is exact in a double. *)
Definition int_of (x : Q) : Z := Z.quot (Qnum x) (Zpos (Qden x)).

Definition select_best_frames (video_file : VideoFile) (percentage : Q)
           (progress_callback : option (callback CB)) : M CB (list (Z * Q * frame)) :=
  let frame_count := header_frame_count video_file in
  let keep_count := Z.max 1 (int_of (inject_Z frame_count * percentage / 100)%Q) in
  (frame_scores <-
     for_each (range 0 frame_count)
       (fun i frame_scores =>
          frm <- lift (parser_get_frame video_file i) ;;
          score <- lift (calculate_sharpness frm) ;;
          report progress_callback (i + 1) frame_count ;;
          ret (frame_scores ++ [(i, score)]))
       [] ;;
   let frame_scores := sort_by (fun x y => Qle_bool (snd y) (snd x)) frame_scores in
   let best_frames := firstn (Z.to_nat keep_count) frame_scores in
   let best_frames := sort_by (fun x y => fst x <=? fst y) best_frames in
   (* the log line reads best_frames[-1] and best_frames[0] *)
   _ <- lift (py_index best_frames (-1)) ;;
   for_each best_frames
     (fun '(idx, score) result =>
        frm <- lift (parser_get_frame video_file idx) ;;
        ret (result ++ [(idx, score, frm)]))
     [])%run.

(** The three combinations of [align_and_stack_lucky]; the result is 8-bit.
    Where every sum is 0 the source divides 0 by 0; the quotient is 0 here. *)
Definition combine_lucky (method : string) (aligned_frames : list frame) : result frame :=
  (px_stack <- stack_pixels (map px aligned_frames) ;;
   if String.eqb method "median" then
     Ok {| dtype_of := uint8;
           px := arr_map (fun vs => astype uint8 (median (map inject_Z vs))) px_stack |}
   else if String.eqb method "sum" then
     let stacked := arr_map (fun vs => fold_right Z.add 0 vs) px_stack in
     match arr_flat stacked with
     | [] => Raise ValueError   (* max() of an empty array *)
     | v :: vs =>
       let mx := fold_right Z.max v vs in
       Ok {| dtype_of := uint8;
             px := arr_map (fun s => astype uint8
                                       (clipQ 0 255 (inject_Z s * 255 / inject_Z mx)%Q)) stacked |}
     end
   else
     Ok {| dtype_of := uint8;
           px := arr_map (fun vs => astype uint8
                                      (fold_right Qplus 0%Q (map inject_Z vs)
                                       / inject_Z (Z.of_nat (length vs)))%Q) px_stack |})%result.

Definition align_and_stack_lucky (video_file : VideoFile) (percentage : Q) (method : string)
           (progress_callback : option (callback CB)) : M CB frame :=
  (best_frames <- select_best_frames video_file percentage progress_callback ;;
   match best_frames with
   | [] => lift (Raise (PyException "No frames selected"))
   | (reference_idx, reference_score, reference_frame) :: others =>
     let total := Z.of_nat (length best_frames) in
     aligned_frames <-
       for_each (enumerate others 1)
         (fun '(i, (idx, score, frm)) aligned_frames =>
            let aligned := align_frame_features reference_frame frm in
            let aligned_frames :=
              match aligned with
              | Some a => aligned_frames ++ [a]
              | None => aligned_frames
              end in
            report progress_callback i total ;;
            ret aligned_frames)
         [reference_frame] ;;
     lift (combine_lucky method aligned_frames)
   end)%run.

End Lucky.
End LuckyImaging.

(** ** stacker.py *)

Module FrameStacker.
Section Stacker.
Context {cv : OpenCV} {CB : Type}.

(** The percentiles and the quotient are exact here, where the source
    computes in floating point. *)
Definition _auto_stretch (data : ndarray Q) (d : dtype) : ndarray Z :=
  let low_percentile := percentile (arr_flat data) (1 # 10) in
  let high_percentile := percentile (arr_flat data) (999 # 10) in
  if Qlt_bool (high_percentile - low_percentile) (1 # 10000000000)
  then arr_map (astype d) data
  else
    let max_val := inject_Z (iinfo_max d) in
    arr_map (fun v =>
               let stretched := ((v - low_percentile) / (high_percentile - low_percentile))%Q in
               astype d (clipQ 0 1 stretched * max_val)%Q)
            data.

(** [np.zeros_like(first_frame, dtype=np.float64)] *)
Definition zeros_like (first_frame : frame) : ndarray Q :=
  arr_map (fun _ => 0%Q) (px first_frame).

(** [accumulator += frame.astype(np.float64)] *)
Definition add_frame (accumulator : ndarray Q) (frm : frame) : result (ndarray Q) :=
  arr_zip Qplus accumulator (arr_map inject_Z (px frm)).

(** [for frame in aligned_frames: accumulator += frame.astype(np.float64)] *)
Definition accumulate (first_frame : frame) (frames : list frame) : result (ndarray Q) :=
  fold_left (fun acc frm => (a <- acc ;; add_frame a frm)%result)
            frames (Ok (zeros_like first_frame)).

(** [np.median(frames, axis=0)] of the frames as floats *)
Definition median_stack (frames : list frame) : result (ndarray Q) :=
  (s <- stack_pixels (map (fun f => arr_map inject_Z (px f)) frames) ;;
   Ok (arr_map median s))%result.

(** [self._auto_stretch(x, dtype) if auto_stretch else x.astype(dtype)] *)
Definition finish (auto_stretch : bool) (x : ndarray Q) (d : dtype) : frame :=
  {| dtype_of := d;
     px := if auto_stretch then _auto_stretch x d else arr_map (astype d) x |}.

(** The combination of the aligned frames, by method; the sum is always
    stretched. *)
Definition combine_aligned (method : string) (auto_stretch : bool)
           (first_frame : frame) (aligned_frames : list frame) : result frame :=
  let d := dtype_of first_frame in
  let used_frames := Z.of_nat (length aligned_frames) in
  if String.eqb method "median" then
    (stacked_float <- median_stack aligned_frames ;;
     Ok (finish auto_stretch stacked_float d))%result
  else if String.eqb method "sum" then
    (accumulator <- accumulate first_frame aligned_frames ;;
     Ok (finish true accumulator d))%result
  else
    (accumulator <- accumulate first_frame aligned_frames ;;
     let averaged := arr_map (fun v => v / inject_Z used_frames)%Q accumulator in
     Ok (finish auto_stretch averaged d))%result.

(** The alignment pass of [stack_frames]: frame 0 is the reference and the
    first entry; each later frame is aligned by ECC, then by ORB if ECC
    fails, and kept when its quality reaches the threshold. *)
Definition align_all (ser_file : VideoFile) (first_frame : frame)
           (progress_callback : option (callback CB)) (quality_threshold : Q)
  : M CB (list frame * list Q) :=
  let frame_count := header_frame_count ser_file in
  let reference := first_frame in
  (q0 <- lift (FrameAligner.calculate_quality_score reference) ;;
   report progress_callback 1 frame_count ;;
   for_each (range 1 frame_count)
     (fun i '(aligned_frames, quality_scores) =>
        frm <- lift (parser_get_frame ser_file i) ;;
        let aligned :=
          match FrameAligner.align_frame_ecc reference frm with
          | Some a => Some a
          | None => FrameAligner.align_frame_orb reference frm
          end in
        kept <- match aligned with
                | Some a =>
                  quality <- lift (FrameAligner.calculate_quality_score a) ;;
                  if Qle_bool quality_threshold quality
                  then ret (aligned_frames ++ [a], quality_scores ++ [quality])
                  else ret (aligned_frames, quality_scores)
                | None => ret (aligned_frames, quality_scores)
                end ;;
        report progress_callback (i + 1) frame_count ;;
        ret kept)
     ([reference], [q0]))%run.

(** The loop of the unaligned median: every frame is read and kept, then
    the callback is told. *)
Definition read_all (ser_file : VideoFile) (progress_callback : option (callback CB))
  : M CB (list frame) :=
  let frame_count := header_frame_count ser_file in
  for_each (range 0 frame_count)
    (fun i frames =>
       frm <- lift (parser_get_frame ser_file i) ;;
       report progress_callback (i + 1) frame_count ;;
       ret (frames ++ [frm]))%run
    [].

(** The loop of the unaligned sum and average: every frame is read and
    added, then the callback is told. *)
Definition sum_all (ser_file : VideoFile) (first_frame : frame)
           (progress_callback : option (callback CB)) : M CB (ndarray Q) :=
  let frame_count := header_frame_count ser_file in
  for_each (range 0 frame_count)
    (fun i accumulator =>
       frm <- lift (parser_get_frame ser_file i) ;;
       accumulator <- lift (add_frame accumulator frm) ;;
       report progress_callback (i + 1) frame_count ;;
       ret accumulator)%run
    (zeros_like first_frame).

Definition is_video (ser_file : VideoFile) : bool :=
  String.eqb (file_type ser_file) "AVI" || String.eqb (file_type ser_file) "MP4".

(** [stack_frames]: what it returns is the stacked array alone. *)
Definition stack_frames (ser_file : VideoFile) (method : string)
           (progress_callback : option (callback CB))
           (auto_stretch align_frames : bool) (quality_threshold : Q) : M CB frame :=
  let frame_count := header_frame_count ser_file in
  if is_video ser_file
  then LuckyImaging.align_and_stack_lucky ser_file 10 method progress_callback
  else
    (first_frame <- lift (parser_get_frame ser_file 0) ;;
     let d := dtype_of first_frame in
     if align_frames then
       '(aligned_frames, quality_scores) <-
         align_all ser_file first_frame progress_callback quality_threshold ;;
       lift (combine_aligned method auto_stretch first_frame aligned_frames)
     else if String.eqb method "median" then
       frames <- read_all ser_file progress_callback ;;
       stacked_float <- lift (median_stack frames) ;;
       ret (finish auto_stretch stacked_float d)
     else if String.eqb method "sum" then
       accumulator <- sum_all ser_file first_frame progress_callback ;;
       ret (finish true accumulator d)
     else
       accumulator <- sum_all ser_file first_frame progress_callback ;;
       let averaged := arr_map (fun v => v / inject_Z frame_count)%Q accumulator in
       ret (finish auto_stretch averaged d))%run.

(** The local [used_frames] of the aligned branch, which the code logs:
    how many frames came out of the alignment pass. *)
Definition used_frames (ser_file : VideoFile) (progress_callback : option (callback CB))
           (quality_threshold : Q) : M CB Z :=
  (first_frame <- lift (parser_get_frame ser_file 0) ;;
   '(aligned_frames, quality_scores) <-
     align_all ser_file first_frame progress_callback quality_threshold ;;
   ret (Z.of_nat (length aligned_frames)))%run.

End Stacker.
End FrameStacker.

(** ** frame_cache.py

    The [OrderedDict] is the list of its items, oldest first; its keys are
    distinct. *)

Module FrameCache.
Section Cache.
Variable V : Type.   (* the cached arrays *)

Record t := { max_size : Z; _cache : list (Z * V) }.

Definition init (max_size : Z) : t := {| max_size := max_size; _cache := [] |}.

Definition has_key (k : Z) (kv : Z * V) : bool := fst kv =? k.

(** [k in d] and [d[k]] *)
Definition lookup (d : list (Z * V)) (k : Z) : option V :=
  option_map snd (find (has_key k) d).

Definition contains (d : list (Z * V)) (k : Z) : bool := existsb (has_key k) d.

Definition without (d : list (Z * V)) (k : Z) : list (Z * V) :=
  filter (fun kv => negb (has_key k kv)) d.

(** [d.move_to_end(k)] for a key that is present *)
Definition move_to_end (d : list (Z * V)) (k : Z) : list (Z * V) :=
  match find (has_key k) d with
  | Some kv => without d k ++ [kv]
  | None => d
  end.

(** [d[k] = v]: a present key keeps its place, a new one goes last. *)
Definition set_item (d : list (Z * V)) (k : Z) (v : V) : list (Z * V) :=
  if contains d k
  then map (fun kv => if has_key k kv then (k, v) else kv) d
  else d ++ [(k, v)].

(** [d.popitem(last=False)] *)
Definition pop_first (d : list (Z * V)) : list (Z * V) := tl d.

Definition with_cache (c : t) (d : list (Z * V)) : t :=
  {| max_size := max_size c; _cache := d |}.

Definition get (c : t) (frame_index : Z) : t * option V :=
  if contains (_cache c) frame_index
  then
    let d := move_to_end (_cache c) frame_index in
    (with_cache c d, lookup d frame_index)
  else (c, None).

Definition put (c : t) (frame_index : Z) (frame_data : V) : t :=
  if contains (_cache c) frame_index
  then with_cache c (set_item (move_to_end (_cache c) frame_index) frame_index frame_data)
  else
    let d := set_item (_cache c) frame_index frame_data in
    if Z.of_nat (length d) >? max_size c
    then with_cache c (pop_first d)
    else with_cache c d.

Definition clear (c : t) : t := with_cache c [].

(** [prefetch]: an index already cached is left alone; a fetch that raises
    is passed over. *)
Fixpoint prefetch (c : t) (frame_indices : list Z) (fetch_func : Z -> result V) : t :=
  match frame_indices with
  | [] => c
  | frame_index :: rest =>
    if contains (_cache c) frame_index then prefetch c rest fetch_func
    else match fetch_func frame_index with
         | Ok frame_data => prefetch (put c frame_index frame_data) rest fetch_func
         | Raise _ => prefetch c rest fetch_func
         end
  end.

(** [len(cache)] and [k in cache] *)
Definition len (c : t) : Z := Z.of_nat (length (_cache c)).
Definition mem (c : t) (frame_index : Z) : bool := contains (_cache c) frame_index.

(** The keys, least recently used first. *)
Definition keys (c : t) : list Z := map fst (_cache c).

End Cache.
End FrameCache.

(** A cache as the class keeps it: distinct keys, no more than [max_size]
    of them. *)
Definition cache_ok {V} (c : FrameCache.t V) : Prop :=
  NoDup (FrameCache.keys V c) /\ FrameCache.len V c <= FrameCache.max_size V c.

(** ** Vocabulary of the statements about stacking *)

(** The callback run over a list of reports, up to the first that raises. *)
Fixpoint progress_run {CB} (cb : callback CB) (reports : list (Z * Z)) (s : CB)
  : CB * option exn :=
  match reports with
  | [] => (s, None)
  | (current, total) :: rest =>
    match cb current total s with
    | (s', Ok _) => progress_run cb rest s'
    | (s', Raise e) => (s', Some e)
    end
  end.

Section Loops.
Context {CB X St : Type}.
Variable total : Z.
Variable ck : X -> Z.

(** A loop body that computes, then reports [ck x] of [total], then keeps
    what it computed. *)
Definition reporting (step : X -> St -> result St) (pc : option (callback CB))
  : X -> St -> M CB St :=
  fun x acc => (a <- lift (step x acc) ;; report pc (ck x) total ;; ret a)%run.

(** The loop without its reports. *)
Fixpoint fold_steps (step : X -> St -> result St) (l : list X) (acc : St) : result St :=
  match l with
  | [] => Ok acc
  | x :: t => (a <- step x acc ;; fold_steps step t a)%result
  end.

End Loops.

Definition next (i : Z) : Z := i + 1.

Section StackingVocabulary.
Context {cv : OpenCV} {CB : Type}.
Import FrameStacker.

(** What the loops of [stack_frames] and of lucky imaging compute for one
    frame, before they report. *)
Definition step_read (vf : VideoFile) (i : Z) (frames : list frame) : result (list frame) :=
  (frm <- parser_get_frame vf i ;; Ok (frames ++ [frm]))%result.

Definition step_sum (vf : VideoFile) (i : Z) (accumulator : ndarray Q) : result (ndarray Q) :=
  (frm <- parser_get_frame vf i ;; add_frame accumulator frm)%result.

(** ECC first, ORB if ECC fails. *)
Definition align_either (reference frm : frame) : option frame :=
  match FrameAligner.align_frame_ecc reference frm with
  | Some a => Some a
  | None => FrameAligner.align_frame_orb reference frm
  end.

Definition step_align (vf : VideoFile) (reference : frame) (quality_threshold : Q)
           (i : Z) (acc : list frame * list Q) : result (list frame * list Q) :=
  (frm <- parser_get_frame vf i ;;
   match align_either reference frm with
   | Some a =>
     quality <- FrameAligner.calculate_quality_score a ;;
     if Qle_bool quality_threshold quality
     then Ok (fst acc ++ [a], snd acc ++ [quality])
     else Ok acc
   | None => Ok acc
   end)%result.

(** [a] is the aligned version of one of the frames 1 .. frame_count-1, and
    its quality reaches the threshold. *)
Definition kept (vf : VideoFile) (reference : frame) (thr : Q) (a : frame) : Prop :=
  exists i frm q,
    1 <= i < header_frame_count vf /\
    parser_get_frame vf i = Ok frm /\
    align_either reference frm = Some a /\
    FrameAligner.calculate_quality_score a = Ok q /\
    Qle_bool thr q = true.

Definition step_score (vf : VideoFile) (i : Z) (frame_scores : list (Z * Q))
  : result (list (Z * Q)) :=
  (frm <- parser_get_frame vf i ;;
   score <- LuckyImaging.calculate_sharpness frm ;;
   Ok (frame_scores ++ [(i, score)]))%result.

Definition step_load (vf : VideoFile) (x : Z * Q) (loaded : list (Z * Q * frame))
  : result (list (Z * Q * frame)) :=
  (frm <- parser_get_frame vf (fst x) ;; Ok (loaded ++ [(fst x, snd x, frm)]))%result.

Definition step_feature (reference : frame) (x : Z * (Z * Q * frame))
           (aligned_frames : list frame) : result (list frame) :=
  match LuckyImaging.align_frame_features reference (snd (snd x)) with
  | Some a => Ok (aligned_frames ++ [a])
  | None => Ok aligned_frames
  end.

(** The selection of [select_best_frames]: the best [keep_count] by score,
    back in index order. *)
Definition select_sorted (percentage : Q) (n : Z) (frame_scores : list (Z * Q)) : list (Z * Q) :=
  let keep_count := Z.max 1 (LuckyImaging.int_of (inject_Z n * percentage / 100)%Q) in
  sort_by (fun x y => fst x <=? fst y)
          (firstn (Z.to_nat keep_count)
                  (sort_by (fun x y => Qle_bool (snd y) (snd x)) frame_scores)).

(** How many frames lucky imaging keeps of [n] at 10 percent. *)
Definition selected_count (n : Z) : Z :=
  Z.of_nat (Nat.min (Z.to_nat (Z.max 1 (LuckyImaging.int_of (inject_Z n * 10 / 100)%Q)))
                    (Z.to_nat n)).

(** The reports of a lucky-imaging run: one per frame scored, then one per
    selected frame aligned to the reference. *)
Definition lucky_reports (vf : VideoFile) : list (Z * Z) :=
  let n := header_frame_count vf in
  let k := selected_count n in
  map (fun i => (next i, n)) (range 0 n) ++ map (fun i => (i, k)) (range 1 k).

(** The reports a stacking run makes, in order. *)
Definition stack_reports (vf : VideoFile) (align_frames : bool) : list (Z * Z) :=
  let n := header_frame_count vf in
  if is_video vf then lucky_reports vf
  else if align_frames
  then (1, n) :: map (fun i => (next i, n)) (range 1 n)
  else map (fun i => (next i, n)) (range 0 n).

End StackingVocabulary.

(** The end of a run with reports: the exception of the callback if it
    raised, else what the run without callback comes to. *)
Definition ending {CB A} (p : CB * option exn) (r : result A) : CB * result A :=
  match p with
  | (s', None) => (s', r)
  | (s', Some e) => (s', Raise e)
  end.

(** How many turns of a loop complete before one raises. *)
Fixpoint steps_done {X St} (step : X -> St -> result St) (l : list X) (acc : St) : nat :=
  match l with
  | [] => O
  | x :: t =>
    match step x acc with
    | Ok a => S (steps_done step t a)
    | Raise _ => O
    end
  end.

Section ReportsReached.
Context {cv : OpenCV}.
Import FrameStacker.

(** How many of its reports a run reaches if the callback returns every
    time: one for each turn of a loop that completes, none from the first
    turn that raises on. *)
Definition lucky_reached (vf : VideoFile) : nat :=
  let n := header_frame_count vf in
  let scored := steps_done (step_score vf) (range 0 n) [] in
  match fold_steps (step_score vf) (range 0 n) [] with
  | Raise _ => scored
  | Ok frame_scores =>
    let best := select_sorted 10 n frame_scores in
    match (_ <- py_index best (-1) ;; fold_steps (step_load vf) best [])%result with
    | Ok (_ :: others) => (scored + length others)%nat
    | _ => scored
    end
  end.

Definition reports_reached (vf : VideoFile) (method : string) (align_frames : bool)
           (quality_threshold : Q) : nat :=
  let n := header_frame_count vf in
  if is_video vf then lucky_reached vf
  else
    match parser_get_frame vf 0 with
    | Raise _ => O
    | Ok first_frame =>
      if align_frames then
        match FrameAligner.calculate_quality_score first_frame with
        | Raise _ => O
        | Ok q0 =>
          S (steps_done (step_align vf first_frame quality_threshold) (range 1 n)
                        ([first_frame], [q0]))
        end
      else if String.eqb method "median" then steps_done (step_read vf) (range 0 n) []
      else steps_done (step_sum vf) (range 0 n) (zeros_like first_frame)
    end.

End ReportsReached.

(** ** gui/main_window.py: the progress callback of the stacking dialog

    [update_progress] sets the dialog's value and raises once the user has
    pressed Cancel.  The dialog is the list of the values it was given; the
    user is taken to press Cancel during the [cancel_at]-th report. *)

Definition update_progress (cancel_at : nat) : callback (list Z) :=
  fun current total progress =>
    let progress := progress ++ [current] in
    if (cancel_at <=? length progress)%nat
    then (progress, Raise (PyException "Stacking cancelled by user"))
    else (progress, Ok tt).

(** A callable used as the progress callback: the call is a statement, and
    what the callable returns is dropped. *)
Definition as_callback {CB R} (f : Z -> Z -> M CB R) : callback CB :=
  fun current total => (_ <- f current total ;; ret tt)%run.

(** A callable that notes the report and asks to stop by what it returns
    ([return False]). *)
Definition return_cancel : Z -> Z -> M (list Z) bool :=
  fun current total progress => ((progress ++ [current])%list, Ok false).

(** A callable that raises the I/O error at the fifth report. *)
Definition raise_at_five : callback unit :=
  fun current total s => (s, if (current =? 5)%Z then Raise SERIOError else Ok tt).

(** ** Containers and OpenCV behaviours used in examples *)

Module Examples.

Definition byte_of_Z (z : Z) : byte :=
  match Byte.of_N (Z.to_N (z mod 256)) with
  | Some b => b
  | None => x00
  end.

(** [struct.pack(f'{endian_char}I', v)] *)
Definition pack_u32 (e : endian) (v : Z) : list byte :=
  let le := map (fun k => byte_of_Z (v / 256 ^ k)) [0; 1; 2; 3] in
  match e with
  | LittleEnd => le
  | BigEnd => rev le
  end.

(** A 178-byte header with empty text fields and zero times; [flag] is the
    byte-order field, always written little-endian as the parser reads it. *)
Definition header_bytes (e : endian) (color_id flag width height depth count : Z)
  : list byte :=
  SERParser.FILE_ID ++ pack_u32 e 0 ++ pack_u32 e color_id ++ pack_u32 LittleEnd flag
    ++ pack_u32 e width ++ pack_u32 e height ++ pack_u32 e depth ++ pack_u32 e count
    ++ repeat x00 120 ++ repeat x00 16.

(** Frames of [n] samples each, frame [k] filled with the [k]-th value. *)
Definition constant_frames (n : nat) (vals : list Z) : list byte :=
  flat_map (fun v => repeat (byte_of_Z v) n) vals.

(** Five mono 8-bit 4x4 frames of constant value 10, 20, 30, 40, 50. *)
Definition five_frames : list byte :=
  header_bytes LittleEnd 0 0 4 4 8 5 ++ constant_frames 16 [10; 20; 30; 40; 50].

(** The same with a timestamp trailer of 5 x 8 bytes. *)
Definition five_frames_stamped : list byte :=
  five_frames ++ repeat x00 40.

(** The same header written big-endian, flag 1. *)
Definition five_frames_big : list byte :=
  header_bytes BigEnd 0 1 4 4 8 5 ++ constant_frames 16 [10; 20; 30; 40; 50].

(** Three mono 8-bit 2x2 frames, all of constant value 30. *)
Definition three_alike : list byte :=
  header_bytes LittleEnd 0 0 2 2 8 3 ++ constant_frames 4 [30; 30; 30].

(** One such frame alone. *)
Definition one_alike : list byte :=
  header_bytes LittleEnd 0 0 2 2 8 1 ++ constant_frames 4 [30].

Definition uniform (h w : nat) (v : Z) : ndarray Z := Arr2 (repeat (repeat v w) h).

Definition ten_keypoints : list KeyPoint := repeat {| pt := (0, 0)%Q |} 10.

Definition ten_matches : list (list DMatch) :=
  map (fun k => [ {| queryIdx := k; trainIdx := k; distance := 1 |};
                  {| queryIdx := k; trainIdx := k; distance := 10 |} ])
      (range 0 10).

(** An OpenCV for which the intensity-based fit fails and the feature fit
    finds a pure translation by 1000 pixels along x; warping hands the
    frame back. *)
Definition cv_far_shift : OpenCV := {|
  descriptors := unit;
  cvtColor_RGB2GRAY := fun f => Ok f;
  ORB_detectAndCompute := fun _ _ => Ok (ten_keypoints, Some tt);
  BFMatcher_knnMatch := fun _ _ => Ok ten_matches;
  estimateAffinePartial2D := fun _ _ _ _ => Ok (Some ((1, 0, 1000), (0, 1, 0))%Q);
  findTransformECC := fun _ _ _ _ => Raise (PyException "cv2.error");
  warpAffine := fun f _ _ _ => Ok f;
  Laplacian := fun _ => Ok [[0%Q]]
|}.

(** An OpenCV for which the intensity-based fit finds the identity, on
    frames without any detail (a flat Laplacian). *)
Definition cv_still : OpenCV := {|
  descriptors := unit;
  cvtColor_RGB2GRAY := fun f => Ok f;
  ORB_detectAndCompute := fun _ _ => Ok ([], None);
  BFMatcher_knnMatch := fun _ _ => Ok [];
  estimateAffinePartial2D := fun _ _ _ _ => Ok None;
  findTransformECC := fun _ _ _ _ => Ok ((1, 0, 0), (0, 1, 0))%Q;
  warpAffine := fun f _ _ _ => Ok f;
  Laplacian := fun _ => Ok [[0%Q]]
|}.

(** Stand-ins for the two conversions the CYYM identifiers never reach. *)
Definition cvtColor_unavailable (_ : ndarray Z) (_ : ImageProcessor.cv2_code)
  : result ImageProcessor.image := Raise (PyException "cv2.error").

Definition debayer_simple_unreached (_ : ndarray Z) (_ : string)
  : result ImageProcessor.image := Raise (PyException "not reached").

(** A 2x2 filter-array frame and two flat frames. *)
Definition one_block : ndarray Z := Arr2 [[10; 20]; [20; 30]].
Definition dark_frame : frame := {| dtype_of := uint8; px := uniform 2 2 0 |}.
Definition grey_frame : frame := {| dtype_of := uint8; px := uniform 2 2 9 |}.

(** The mosaic of one 2x2 block for each arrangement, as the docstring of
    [debayer_cyym] lays them out: CYYM is Cy Y / Y Mg, YCMY is Y Cy / Mg Y,
    YMCY is Y Mg / Cy Y, MYYC is Mg Y / Y Cy. *)
Definition mosaic_block (pattern : string) (cy y mg : Z) : list (list Z) :=
  if String.eqb pattern "CYYM" then [[cy; y]; [y; mg]]
  else if String.eqb pattern "YCMY" then [[y; cy]; [mg; y]]
  else if String.eqb pattern "YMCY" then [[y; mg]; [cy; y]]
  else [[mg; y]; [y; cy]].

End Examples.

(** ** Vocabulary and examples of the statements about decoding, display,
       alignment and selection *)

(** The five frames with the last one cut short, and with the header cut
    short. *)
Definition five_frames_cut : list byte := firstn 250 Examples.five_frames.
Definition five_frames_stub : list byte := firstn 100 Examples.five_frames.

(** A video source with the frames of a container. *)
Definition as_video (vf : VideoFile) : VideoFile :=
  {| file_type := "AVI";
     header_frame_count := header_frame_count vf;
     parser_get_frame := parser_get_frame vf |}.

(** Twenty mono 8-bit 2x2 frames of constant value 1, 2, ..., 20. *)
Definition twenty_frames : list byte :=
  Examples.header_bytes LittleEnd 0 0 2 2 8 20 ++ Examples.constant_frames 4 (range 1 21).

(** What [get_frame] promises of a frame: the sample type of the header's
    depth, the header's height and width, three channels exactly for the
    colour ids 100 and 101, every sample within its type. *)
Definition frame_shape (h : SERParser.SERHeader) (f : frame) : Prop :=
  let hh := Z.to_nat (SERParser.image_height h) in
  let ww := Z.to_nat (SERParser.image_width h) in
  dtype_of f = (if SERParser.pixel_depth h =? 8 then uint8 else uint16) /\
  match px f with
  | Arr2 rows =>
      SERParser.Z_in (SERParser.color_id h) [100; 101] = false /\
      length rows = hh /\
      Forall (fun r => length r = ww /\ Forall (fun v => 0 <= v <= iinfo_max (dtype_of f)) r) rows
  | Arr3 rows =>
      SERParser.Z_in (SERParser.color_id h) [100; 101] = true /\
      length rows = hh /\
      Forall (fun r => length r = ww /\
                       Forall (fun pixel => length pixel = 3%nat /\
                                 Forall (fun v => 0 <= v <= iinfo_max (dtype_of f)) pixel) r)
             rows
  end.

(** An image the viewer can show: [height] rows of [width] pixels of three
    8-bit values. *)
Definition displayable (height width : nat) (im : ImageProcessor.image) : Prop :=
  exists rows,
    im = ImageProcessor.Img (Arr3 rows) /\
    length rows = height /\
    Forall (fun r => length r = width /\
                     Forall (fun pixel => length pixel = 3%nat /\
                                          Forall (fun v => 0 <= v <= 255) pixel) r)
           rows.

(** The 8-bit value shown for a sample of the given depth. *)
Definition shown (pixel_depth v : Z) : Z :=
  if pixel_depth =? 16 then v / 256 else v.

(** A mono 16-bit header of one row of two samples, and such a frame. *)
Definition deep_header : SERParser.SERHeader :=
  {| SERParser.file_id := SERParser.FILE_ID; SERParser.lu_id := 0;
     SERParser.color_id := 0; SERParser.little_endian := 0;
     SERParser.image_width := 2; SERParser.image_height := 1;
     SERParser.pixel_depth := 16; SERParser.frame_count := 1;
     SERParser.observer := []; SERParser.instrument := [];
     SERParser.telescope := []; SERParser.datetime_utc := 0 |}.
Definition deep_frame : frame := {| dtype_of := uint16; px := Arr2 [[256; 65535]] |}.

(** An OpenCV as [Examples.cv_far_shift], but for a fitted translation of
    exactly 200 pixels along x. *)
Definition cv_limit_shift : OpenCV := {|
  descriptors := unit;
  cvtColor_RGB2GRAY := fun f => Ok f;
  ORB_detectAndCompute := fun _ _ => Ok (Examples.ten_keypoints, Some tt);
  BFMatcher_knnMatch := fun _ _ => Ok Examples.ten_matches;
  estimateAffinePartial2D := fun _ _ _ _ => Ok (Some ((1, 0, 200), (0, 1, 0))%Q);
  findTransformECC := fun _ _ _ _ => Raise (PyException "cv2.error");
  warpAffine := fun f _ _ _ => Ok f;
  Laplacian := fun _ => Ok [[0%Q]]
|}.

(** Too little to fit a transform between two grey images, for a detector
    of [nfeatures] features and a ratio test at [ratio]: fewer than ten key
    points in one of the two, or no descriptors, or fewer than ten of the
    matcher's pairs passing the ratio test. *)
Definition too_few {cv : OpenCV} (nfeatures : Z) (ratio : Q)
           (ref_gray frame_gray : frame) : Prop :=
  exists kp1 des1 kp2 des2,
    ORB_detectAndCompute nfeatures ref_gray = Ok (kp1, des1) /\
    ORB_detectAndCompute nfeatures frame_gray = Ok (kp2, des2) /\
    match des1, des2 with
    | Some d1, Some d2 =>
      (length kp1 < 10)%nat \/ (length kp2 < 10)%nat \/
      exists matches, BFMatcher_knnMatch d1 d2 = Ok matches /\
                      (length (ratio_test ratio matches) < 10)%nat
    | _, _ => True
    end.

(** The index of an entry [(frame_index, quality_score, frame_data)]. *)
Definition entry_index (x : Z * Q * frame) : Z := fst (fst x).

(** The order the first sort of [select_best_frames] leaves: the higher
    score first and, of two equal scores, the lower index first. *)
Definition sharper (x y : Z * Q) : Prop :=
  (snd y <= snd x)%Q /\ ((snd x <= snd y)%Q -> fst x < fst y).

(** ** file_manager.py: frames for display

    [VideoFile] for a path ending in [.ser]: the parser, the header it
    parsed and the cache of processed frames.  (The record [VideoFile] above
    is the same object as the stacking code uses it.)  What
    [get_display_frame] returns is the array it hands to
    [Image.fromarray]. *)

Module FileManager.
Section Display.

(** The environment of [ImageProcessor.process_frame]. *)
Variable HAS_OPENCV : bool.
Variable cv2_cvtColor : ndarray Z -> ImageProcessor.cv2_code -> result ImageProcessor.image.
Variable debayer_simple : ndarray Z -> string -> result ImageProcessor.image.
Variable CYYM_PATTERN : string.

Record t := {
  parser : SERParser.t;
  header : SERParser.SERHeader;
  cache : FrameCache.t ImageProcessor.image
}.

(** [VideoFile(file_path, cache_size)] *)
Definition init (contents : list byte) (cache_size : Z) : result t :=
  ('(p, h) <- SERParser.parse_header (SERParser.init contents) ;;
   Ok {| parser := p; header := h;
         cache := FrameCache.init ImageProcessor.image cache_size |})%result.

Definition get_header (vf : t) : SERParser.SERHeader := header vf.

Definition with_cache (vf : t) (c : FrameCache.t ImageProcessor.image) : t :=
  {| parser := parser vf; header := header vf; cache := c |}.

Definition get_display_frame (vf : t) (frame_index : Z) : t * result ImageProcessor.image :=
  let '(c, cached_frame) := FrameCache.get ImageProcessor.image (cache vf) frame_index in
  match cached_frame with
  | Some im => (with_cache vf c, Ok im)
  | None =>
    match SERParser.get_frame (parser vf) frame_index with
    | Raise e => (with_cache vf c, Raise e)
    | Ok raw_frame =>
      match ImageProcessor.process_frame HAS_OPENCV cv2_cvtColor debayer_simple CYYM_PATTERN
              (px raw_frame) (SERParser.color_id (header vf))
              (SERParser.pixel_depth (header vf)) with
      | Raise e => (with_cache vf c, Raise e)
      | Ok processed_frame =>
        (with_cache vf (FrameCache.put ImageProcessor.image c frame_index processed_frame),
         Ok processed_frame)
      end
    end
  end.

(** The dictionary [get_frame_info] returns. *)
Record frame_info := { frame_index : Z; timestamp : option Q }.

Definition get_frame_info (vf : t) (frame_index : Z) : frame_info :=
  {| frame_index := frame_index;
     timestamp :=
       if SERParser.has_timestamps (parser vf)
       then match SERParser.get_timestamp (parser vf) frame_index with
            | Ok ts => ts
            | Raise _ => None          (* except Exception: pass *)
            end
       else None |}.

(** The function [prefetch_frames] hands to the cache. *)
Definition fetch_func (vf : t) (idx : Z) : result ImageProcessor.image :=
  (raw_frame <- SERParser.get_frame (parser vf) idx ;;
   ImageProcessor.process_frame HAS_OPENCV cv2_cvtColor debayer_simple CYYM_PATTERN
     (px raw_frame) (SERParser.color_id (header vf))
     (SERParser.pixel_depth (header vf)))%result.

Definition prefetch_frames (vf : t) (frame_indices : list Z) : t :=
  with_cache vf (FrameCache.prefetch ImageProcessor.image (cache vf) frame_indices
                                     (fetch_func vf)).

(** [close]: the parser's handle is not part of the model. *)
Definition close (vf : t) : t :=
  with_cache vf (FrameCache.clear ImageProcessor.image (cache vf)).

(** Every cached frame is the processed frame of its index. *)
Definition coherent (vf : t) : Prop :=
  forall k v, In (k, v) (FrameCache._cache ImageProcessor.image (cache vf)) ->
              fetch_func vf k = Ok v.

End Display.
End FileManager.

(** ** gui/navigation_controller.py

    [frame_callback] is the caller's and returns; what a method does with
    it is the list of the indices it calls it with. *)

Module NavigationController.

Record t := { total_frames : Z; current_frame : Z }.

Definition init (total_frames : Z) : t :=
  {| total_frames := total_frames; current_frame := 0 |}.

Definition set_current (c : t) (i : Z) : t :=
  {| total_frames := total_frames c; current_frame := i |}.

Definition next_frame (c : t) : t * list Z :=
  if current_frame c <? total_frames c - 1
  then (set_current c (current_frame c + 1), [current_frame c + 1])
  else (c, []).

Definition previous_frame (c : t) : t * list Z :=
  if current_frame c >? 0
  then (set_current c (current_frame c - 1), [current_frame c - 1])
  else (c, []).

Definition first_frame (c : t) : t * list Z := (set_current c 0, [0]).

Definition last_frame (c : t) : t * list Z :=
  (set_current c (total_frames c - 1), [total_frames c - 1]).

Definition goto_frame (c : t) (frame_index : Z) : t * list Z :=
  if (0 <=? frame_index) && (frame_index <? total_frames c)
  then (set_current c frame_index, [frame_index])
  else (c, []).

Definition get_current_frame (c : t) : Z := current_frame c.

(** What the user can ask of the controller, and a session of requests with
    all the calls to [frame_callback] it makes. *)
Inductive request :=
| Next
| Previous
| First
| Last
| Goto (frame_index : Z).

Definition serve (c : t) (r : request) : t * list Z :=
  match r with
  | Next => next_frame c
  | Previous => previous_frame c
  | First => first_frame c
  | Last => last_frame c
  | Goto i => goto_frame c i
  end.

Fixpoint session (c : t) (rs : list request) : t * list Z :=
  match rs with
  | [] => (c, [])
  | r :: rest =>
    let '(c1, shown1) := serve c r in
    let '(c2, shown2) := session c1 rest in
    (c2, shown1 ++ shown2)
  end.

(** The current frame is one of the file's frames. *)
Definition in_file (c : t) : Prop := 0 <= current_frame c < total_frames c.

End NavigationController.

(** ** playback_controller.py

    The two callbacks are optional; a controller records whether it has
    them.  What [_advance_frame] does to the outside is a list of events:
    the indices handed to [prefetch_callback], the frame shown through the
    navigation controller, the delay handed to [timer_callback]. *)

Module PlaybackController.

Inductive event :=
| Prefetch (prefetch_indices : list Z)
| Show (frame_index : Z)
| Schedule (interval_ms : Z).

Record t := {
  nav_controller : NavigationController.t;
  prefetch_callback : bool;
  is_playing : bool;
  fps : Z;
  timer_callback : bool
}.

Definition init (navigation_controller : NavigationController.t) (prefetch_callback : bool) : t :=
  {| nav_controller := navigation_controller; prefetch_callback := prefetch_callback;
     is_playing := false; fps := 30; timer_callback := false |}.

Definition set_timer_callback (c : t) : t :=
  {| nav_controller := nav_controller c; prefetch_callback := prefetch_callback c;
     is_playing := is_playing c; fps := fps c; timer_callback := true |}.

Definition set_playing (c : t) (b : bool) : t :=
  {| nav_controller := nav_controller c; prefetch_callback := prefetch_callback c;
     is_playing := b; fps := fps c; timer_callback := timer_callback c |}.

Definition set_frame_rate (c : t) (fps : Z) : t :=
  {| nav_controller := nav_controller c; prefetch_callback := prefetch_callback c;
     is_playing := is_playing c; fps := fps; timer_callback := timer_callback c |}.

Definition set_nav (c : t) (n : NavigationController.t) : t :=
  {| nav_controller := n; prefetch_callback := prefetch_callback c;
     is_playing := is_playing c; fps := fps c; timer_callback := timer_callback c |}.

(** [_advance_frame]: the controller after, the events, and the exception
    if [int(1000 / self.fps)] divides by zero. *)
Definition _advance_frame (c : t) : t * list event * option exn :=
  if negb (is_playing c) then (c, [], None)
  else
    let current := NavigationController.get_current_frame (nav_controller c) in
    let total := NavigationController.total_frames (nav_controller c) in
    let prefetch_indices := range (current + 1) (Z.min (current + 6) total) in
    let prefetched :=
      if prefetch_callback c
      then match prefetch_indices with
           | [] => []
           | _ => [Prefetch prefetch_indices]
           end
      else [] in
    if current <? total - 1 then
      let '(n, shown) := NavigationController.next_frame (nav_controller c) in
      let c := set_nav c n in
      let events := prefetched ++ map Show shown in
      if timer_callback c && is_playing c then
        if fps c =? 0 then (c, events, Some (PyException "ZeroDivisionError"))
        else (c, events ++ [Schedule (Z.quot 1000 (fps c))], None)
      else (c, events, None)
    else (set_playing c false, prefetched, None).

Definition play (c : t) (fps : Z) : t * list event * option exn :=
  _advance_frame (set_playing (set_frame_rate c fps) true).

Definition pause (c : t) : t := set_playing c false.

Definition stop (c : t) : t * list event :=
  let '(n, shown) := NavigationController.first_frame (nav_controller c) in
  (set_nav (set_playing c false) n, map Show shown).

Definition toggle_play_pause (c : t) : t * list event * option exn :=
  if is_playing c then (pause c, [], None) else play c (fps c).

(** The timer firing [k] times: [_advance_frame] again and again, up to an
    exception. *)
Fixpoint ticks (k : nat) (c : t) : t * list event * option exn :=
  match k with
  | O => (c, [], None)
  | S k' =>
    match _advance_frame c with
    | (c1, events1, None) =>
      let '(c2, events2, err) := ticks k' c1 in (c2, events1 ++ events2, err)
    | (c1, events1, Some e) => (c1, events1, Some e)
    end
  end.

(** An event as playback causes them in a file of [total] frames: at most
    five indices to prefetch, each a frame of the file after the first; a
    frame of the file after the first to show; the delay of the frame
    rate. *)
Definition event_within (total fps : Z) (e : event) : Prop :=
  match e with
  | Prefetch l => l <> [] /\ (length l <= 5)%nat /\ Forall (fun i => 0 < i < total) l
  | Show i => 0 < i < total
  | Schedule ms => ms = Z.quot 1000 fps
  end.

End PlaybackController.

(** A 2-D array of [height] rows of [width] values. *)
Definition shaped {A} (height width : nat) (x : list (list A)) : Prop :=
  length x = height /\ Forall (fun r => length r = width) x.

(** A packed-colour file: one 8-bit RGB frame of one row of two pixels. *)
Definition two_pixels : list byte :=
  Examples.header_bytes LittleEnd 100 0 2 1 8 1
    ++ map Examples.byte_of_Z [1; 2; 3; 4; 5; 6].

(** * Properties *)

(** ** The container decoder *)

Section ParserFacts.
Import SERParser.

Lemma parse_header_Ok p0 p h :
  parse_header p0 = Ok (p, h) ->
  178 <= file_size p0 /\
  header p = Some h /\
  file p = file p0 /\
  _frame_size p = frame_size_of h /\
  _has_timestamps p =
    (file_size p0 =? HEADER_SIZE + frame_count h * frame_size_of h + frame_count h * 8) /\
  Z_in (color_id h) VALID_COLOR_IDS = true /\
  Z_in (pixel_depth h) VALID_PIXEL_DEPTHS = true /\
  frame_count h <> 0.
Proof.
  unfold parse_header.
  destruct (Z.of_nat (length (firstn (Z.to_nat HEADER_SIZE) (file p0))) <? HEADER_SIZE) eqn:Hlen;
    [discriminate|].
  destruct (negb (bytes_eqb _ FILE_ID)); [discriminate|].
  destruct (negb (Z_in _ VALID_COLOR_IDS)) eqn:Hc; [discriminate|].
  destruct (negb (Z_in _ VALID_PIXEL_DEPTHS)) eqn:Hd; [discriminate|].
  destruct (_ =? 0) eqn:Hn; [discriminate|].
  intros H; injection H as <- <-. cbn [header file _frame_size _has_timestamps frame_count color_id pixel_depth].
  apply negb_false_iff in Hc, Hd. apply Z.eqb_neq in Hn. apply Z.ltb_ge in Hlen.
  rewrite length_firstn in Hlen. unfold file_size, HEADER_SIZE in *.
  repeat split; auto; lia.
Qed.

Lemma slice_S {A} (d : A) (l : list A) off n :
  (off + S n <= length l)%nat ->
  slice off (off + S n) l = nth off l d :: slice (S off) (S off + n) l.
Proof.
  unfold slice. intros H.
  replace (off + S n - off)%nat with (S n) by lia.
  replace (S off + n - S off)%nat with n by lia.
  revert l H. induction off as [|off IH]; intros [|x l] H; cbn in *; try lia.
  - reflexivity.
  - apply IH. lia.
Qed.

Lemma le_uint_slice bs off n :
  (off + n <= length bs)%nat ->
  le_uint (slice off (off + n) bs) = little_endian_at bs off n.
Proof.
  revert off. induction n as [|n IH]; intros off H.
  - unfold slice. replace (off + 0 - off)%nat with 0%nat by lia. reflexivity.
  - rewrite (slice_S x00) by exact H. cbn [le_uint little_endian_at].
    rewrite IH by lia. reflexivity.
Qed.

Lemma le_uint_app a b :
  le_uint (a ++ b) = le_uint a + 256 ^ Z.of_nat (length a) * le_uint b.
Proof.
  induction a as [|x a IH]; cbn [app le_uint length].
  - change (Z.of_nat 0) with 0. rewrite Z.pow_0_r. lia.
  - rewrite IH, Nat2Z.inj_succ, Z.pow_succ_r by lia. ring.
Qed.

Lemma length_slice {A} (l : list A) off n :
  (off + n <= length l)%nat -> length (slice off (off + n) l) = n.
Proof.
  intros H. unfold slice. rewrite length_firstn, length_skipn. lia.
Qed.

Lemma be_uint_slice bs off n :
  (off + n <= length bs)%nat ->
  le_uint (rev (slice off (off + n) bs)) = big_endian_at bs off n.
Proof.
  revert off. induction n as [|n IH]; intros off H.
  - unfold slice. replace (off + 0 - off)%nat with 0%nat by lia. reflexivity.
  - rewrite (slice_S x00) by exact H. cbn [rev big_endian_at].
    rewrite le_uint_app, IH by lia. rewrite length_rev, length_slice by lia.
    cbn [le_uint]. unfold byte_at. ring.
Qed.

Lemma unpack_uint_slice e bs off n :
  (off + n <= length bs)%nat ->
  unpack_uint e (slice off (off + n) bs) =
  match e with
  | LittleEnd => little_endian_at bs off n
  | BigEnd => big_endian_at bs off n
  end.
Proof.
  intros H. destruct e; cbn [unpack_uint]; [apply le_uint_slice | apply be_uint_slice]; exact H.
Qed.

Lemma nth_firstn_lt {A} (d : A) (l : list A) k i :
  (i < k)%nat -> nth i (firstn k l) d = nth i l d.
Proof.
  revert l i. induction k as [|k IH]; intros [|x l] [|i] H; cbn; try lia; auto.
  apply IH. lia.
Qed.

Lemma little_endian_at_firstn bs k off n :
  (off + n <= k)%nat -> little_endian_at (firstn k bs) off n = little_endian_at bs off n.
Proof.
  revert off. induction n as [|n IH]; intros off H; cbn [little_endian_at]; [reflexivity|].
  rewrite IH by lia. unfold byte_at. rewrite nth_firstn_lt by lia. reflexivity.
Qed.

Lemma big_endian_at_firstn bs k off n :
  (off + n <= k)%nat -> big_endian_at (firstn k bs) off n = big_endian_at bs off n.
Proof.
  revert off. induction n as [|n IH]; intros off H; cbn [big_endian_at]; [reflexivity|].
  rewrite IH by lia. unfold byte_at. rewrite nth_firstn_lt by lia. reflexivity.
Qed.

Lemma parse_header_fields p0 p h :
  parse_header p0 = Ok (p, h) ->
  let bs := file p0 in
  let e := endian_char (little_endian_at bs 22 4) in
  little_endian h = little_endian_at bs 22 4 /\
  lu_id h = field_at e bs 14 4 /\
  color_id h = field_at e bs 18 4 /\
  image_width h = field_at e bs 26 4 /\
  image_height h = field_at e bs 30 4 /\
  pixel_depth h = field_at e bs 34 4 /\
  frame_count h = field_at e bs 38 4 /\
  datetime_utc h = field_at e bs 162 8.
Proof.
  intros H. pose proof (parse_header_Ok _ _ _ H) as (Hlen & _).
  unfold file_size in Hlen.
  assert (F : forall e off hi, (off <= hi <= 178)%nat ->
            unpack_uint e (slice off hi (firstn (Z.to_nat HEADER_SIZE) (file p0)))
            = field_at e (file p0) off (hi - off)).
  { intros e off hi Hb. replace hi with (off + (hi - off))%nat at 1 by lia.
    rewrite unpack_uint_slice by (rewrite length_firstn; unfold HEADER_SIZE; lia).
    unfold field_at.
    destruct e; [apply little_endian_at_firstn | apply big_endian_at_firstn];
      unfold HEADER_SIZE; lia. }
  revert H. unfold parse_header. cbv zeta.
  remember (firstn (Z.to_nat HEADER_SIZE) (file p0)) as hb eqn:Ehb.
  destruct (_ <? HEADER_SIZE); [discriminate|].
  destruct (negb (bytes_eqb _ FILE_ID)); [discriminate|].
  destruct (negb (Z_in _ VALID_COLOR_IDS)); [discriminate|].
  destruct (negb (Z_in _ VALID_PIXEL_DEPTHS)); [discriminate|].
  destruct (_ =? 0); [discriminate|].
  intros H; injection H as _ <-.
  cbn [little_endian lu_id color_id image_width image_height pixel_depth frame_count datetime_utc].
  pose proof (F LittleEnd 22%nat 26%nat ltac:(lia)) as F22.
  cbn [unpack_uint field_at] in F22. change (26 - 22)%nat with 4%nat in F22. rewrite F22.
  repeat split; apply F; lia.
Qed.

(** C4: for an opened container with [n] frames of [s] bytes each,
    [has_timestamps()] is true exactly when the file is [178 + n*s + n*8]
    bytes long; any other length, one byte off included, gives false.  The
    frame size [s] is width x height x bytes per sample x planes. *)
Theorem has_timestamps_exact_size p0 p h :
  parse_header p0 = Ok (p, h) ->
  _frame_size p
    = image_width h * image_height h * (pixel_depth h / 8)
      * (if Z_in (color_id h) [100; 101] then 3 else 1) /\
  (has_timestamps p = true <->
   file_size p0 = 178 + frame_count h * _frame_size p + frame_count h * 8) /\
  (file_size p0 = 178 + frame_count h * _frame_size p + frame_count h * 8 + 1 \/
   file_size p0 = 178 + frame_count h * _frame_size p + frame_count h * 8 - 1 ->
   has_timestamps p = false).
Proof.
  intros H. apply parse_header_Ok in H.
  destruct H as (_ & _ & _ & Hs & Ht & _).
  split; [rewrite Hs; reflexivity|].
  unfold has_timestamps. rewrite Ht, Hs. unfold HEADER_SIZE.
  split; [apply Z.eqb_eq|].
  intros Hoff. apply Z.eqb_neq. lia.
Qed.

Lemma has_timestamps_exact_size_witness :
  exists p h, parse_header (init Examples.five_frames_stamped) = Ok (p, h) /\
              has_timestamps p = true.
Proof.
  destruct (parse_header (init Examples.five_frames_stamped)) as [[p h]|e] eqn:E.
  - exists p, h. split; [reflexivity|].
    apply (proj2 (proj1 (proj2 (has_timestamps_exact_size _ p h E)))).
    vm_compute in E. injection E as <- <-. vm_compute. reflexivity.
  - vm_compute in E. discriminate.
Defined.

(** C5: the byte-order flag is the little-endian value of the four bytes at
    offset 22.  When it holds 0, the sub-format id, colour-format id, width,
    height, bits per sample, frame count and capture time of the parsed
    header are the little-endian values of their bytes; when it holds 1 they
    are the big-endian values. *)
Theorem header_fields_follow_byte_order_flag p0 p h :
  parse_header p0 = Ok (p, h) ->
  let bs := file p0 in
  let flag := little_endian_at bs 22 4 in
  little_endian h = flag /\
  (flag = 0 ->
   lu_id h = little_endian_at bs 14 4 /\
   color_id h = little_endian_at bs 18 4 /\
   image_width h = little_endian_at bs 26 4 /\
   image_height h = little_endian_at bs 30 4 /\
   pixel_depth h = little_endian_at bs 34 4 /\
   frame_count h = little_endian_at bs 38 4 /\
   datetime_utc h = little_endian_at bs 162 8) /\
  (flag = 1 ->
   lu_id h = big_endian_at bs 14 4 /\
   color_id h = big_endian_at bs 18 4 /\
   image_width h = big_endian_at bs 26 4 /\
   image_height h = big_endian_at bs 30 4 /\
   pixel_depth h = big_endian_at bs 34 4 /\
   frame_count h = big_endian_at bs 38 4 /\
   datetime_utc h = big_endian_at bs 162 8).
Proof.
  intros H bs flag. pose proof (parse_header_fields _ _ _ H) as F.
  cbv zeta in F. fold bs in F. fold flag in F.
  destruct F as (F0 & F).
  split; [exact F0|].
  split; intros E; rewrite E in F; exact F.
Qed.

Lemma header_fields_follow_byte_order_flag_witness :
  exists p h, parse_header (init Examples.five_frames_big) = Ok (p, h) /\
              image_width h = 4 /\ pixel_depth h = 8 /\ frame_count h = 5.
Proof.
  destruct (parse_header (init Examples.five_frames_big)) as [[p h]|e] eqn:E.
  - exists p, h. split; [reflexivity|].
    destruct (header_fields_follow_byte_order_flag _ p h E) as (_ & _ & B).
    destruct (B eq_refl) as (_ & _ & Hw & _ & Hd & Hn & _).
    rewrite Hw, Hd, Hn. repeat split.
  - vm_compute in E. discriminate.
Defined.

(** C9, as the code has it: for an opened container and an index outside
    [0, frame_count), [get_frame] raises the index error; [get_timestamp]
    raises it when the container has a timestamp trailer, and returns
    [None] when it has none. *)
Theorem out_of_range_index p0 p h i :
  parse_header p0 = Ok (p, h) ->
  i < 0 \/ frame_count h <= i ->
  get_frame p i = Raise (SERIndexError i (frame_count h)) /\
  get_timestamp p i =
    if has_timestamps p then Raise (SERIndexError i (frame_count h)) else Ok None.
Proof.
  intros H Hi. apply parse_header_Ok in H. destruct H as (_ & Hh & _).
  assert (B : (i <? 0) || (i >=? frame_count h) = true).
  { apply orb_true_iff. destruct Hi; [left; apply Z.ltb_lt | right; apply Z.geb_le]; lia. }
  unfold get_frame, get_timestamp, has_timestamps. rewrite Hh, B.
  split; [reflexivity|]. destruct (_has_timestamps p); reflexivity.
Qed.

Lemma out_of_range_index_witness :
  exists p h, parse_header (init Examples.five_frames_stamped) = Ok (p, h) /\
              get_frame p 7 = Raise (SERIndexError 7 5) /\
              get_timestamp p (-1) = Raise (SERIndexError (-1) 5).
Proof.
  destruct (parse_header (init Examples.five_frames_stamped)) as [[p h]|e] eqn:E.
  - exists p, h. split; [reflexivity|].
    destruct (out_of_range_index _ p h 7 E) as (F & _).
    { right. vm_compute in E. injection E as <- <-. vm_compute. discriminate. }
    destruct (out_of_range_index _ p h (-1) E) as (_ & T); [left; lia|].
    vm_compute in E. injection E as <- <-. split; [exact F | exact T].
  - vm_compute in E. discriminate.
Defined.

(** C9 as stated fails: on the five-frame container without a trailer, the
    timestamp of index 7 is [None], not an index error. *)
Lemma get_timestamp_out_of_range_without_trailer :
  (ph <- parse_header (init Examples.five_frames) ;;
   Ok (frame_count (snd ph), has_timestamps (fst ph), get_timestamp (fst ph) 7))%result
  = Ok (5, false, Ok None).
Proof. vm_compute. reflexivity. Qed.

End ParserFacts.

(** ** Colour reconstruction *)

Section ReconstructionFacts.
Import ImageProcessor.

Lemma astype_uint8_inject v r :
  (v == inject_Z r)%Q -> 0 <= r <= 255 -> astype_uint8 v = r.
Proof.
  intros E Hr. unfold astype_uint8. unfold Qeq in E. cbn in E.
  rewrite Z.mul_1_r in E. rewrite E.
  rewrite Z.quot_mul by lia. apply Z.mod_small. lia.
Qed.

Lemma astype_uint8_clip v r :
  (v == inject_Z r)%Q -> 0 <= r <= 255 -> astype_uint8 (clipQ 0 255 v) = r.
Proof.
  intros E Hr. unfold clipQ.
  destruct (Qle_bool v 0) eqn:L0.
  - apply Qle_bool_iff in L0. rewrite E in L0.
    assert (r = 0). { unfold Qle in L0. cbn in L0. lia. } subst r. reflexivity.
  - destruct (Qle_bool 255 v) eqn:L1.
    + apply Qle_bool_iff in L1. rewrite E in L1.
      assert (r = 255). { unfold Qle in L1. cbn in L1. lia. } subst r. reflexivity.
    + apply astype_uint8_inject; assumption.
Qed.

Lemma zoom2_single v : zoom2 [[v]] = [[v; v]; [v; v]].
Proof. reflexivity. Qed.

Lemma solve_R R G B :
  ((((inject_Z (R + G) + inject_Z (R + G)) / 2 + inject_Z (R + B) - inject_Z (G + B)) / 2)
   == inject_Z R)%Q.
Proof. rewrite !inject_Z_plus. field. Qed.

Lemma solve_G R G B :
  ((((inject_Z (R + G) + inject_Z (R + G)) / 2 + inject_Z (G + B) - inject_Z (R + B)) / 2)
   == inject_Z G)%Q.
Proof. rewrite !inject_Z_plus. field. Qed.

Lemma solve_B R G B :
  (((inject_Z (G + B) + inject_Z (R + B) - (inject_Z (R + G) + inject_Z (R + G)) / 2) / 2)
   == inject_Z B)%Q.
Proof. rewrite !inject_Z_plus. field. Qed.

(** C1, as the code has it: a raw 2-D frame with colour-format identifier 8
    (COLOR_BAYER_CYYM) is converted by the CYYM solver with the configured
    orientation, in [debayer] and in [process_frame]; with identifier 9, 16
    or 17 [debayer] has no case for it and the frame takes the mono path. *)
Theorem cyym_family_dispatch (HAS_OPENCV : bool)
        (cv2_cvtColor : ndarray Z -> cv2_code -> result image)
        (debayer_simple : ndarray Z -> string -> result image)
        (CYYM_PATTERN : string) (rows : list (list Z)) (pixel_depth : Z) :
  let debayer := debayer HAS_OPENCV cv2_cvtColor debayer_simple CYYM_PATTERN in
  let process_frame := process_frame HAS_OPENCV cv2_cvtColor debayer_simple CYYM_PATTERN in
  let data := if pixel_depth =? 16 then normalize_16bit (Arr2 rows) else Arr2 rows in
  (debayer (Arr2 rows) COLOR_BAYER_CYYM = debayer_cyym (Arr2 rows) CYYM_PATTERN /\
   debayer (Arr2 rows) COLOR_BAYER_YCMY = Ok (mono_to_rgb (Arr2 rows)) /\
   debayer (Arr2 rows) COLOR_BAYER_YMCY = Ok (mono_to_rgb (Arr2 rows)) /\
   debayer (Arr2 rows) COLOR_BAYER_MYYC = Ok (mono_to_rgb (Arr2 rows))) /\
  (process_frame (Arr2 rows) COLOR_BAYER_CYYM pixel_depth = debayer_cyym data CYYM_PATTERN /\
   process_frame (Arr2 rows) COLOR_BAYER_YCMY pixel_depth = Ok (mono_to_rgb data) /\
   process_frame (Arr2 rows) COLOR_BAYER_YMCY pixel_depth = Ok (mono_to_rgb data) /\
   process_frame (Arr2 rows) COLOR_BAYER_MYYC pixel_depth = Ok (mono_to_rgb data)).
Proof.
  unfold process_frame, debayer.
  destruct (pixel_depth =? 16); destruct HAS_OPENCV; cbn; repeat split; reflexivity.
Qed.

(** C1 as stated fails: a 2x2 frame with identifier 9 comes out of
    [process_frame] with its samples copied to the three channels, which is
    not what the CYYM solver makes of it under any of the four
    orientations. *)
Lemma ycmy_frame_takes_mono_path :
  process_frame true Examples.cvtColor_unavailable Examples.debayer_simple_unreached "CYYM"
                Examples.one_block COLOR_BAYER_YCMY 8
  = Ok (Img (Arr3 [[[10; 10; 10]; [20; 20; 20]]; [[20; 20; 20]; [30; 30; 30]]])) /\
  debayer_cyym Examples.one_block "CYYM"
  = Ok (Img (Arr3 [[[20; 0; 10]; [20; 0; 10]]; [[20; 0; 10]; [20; 0; 10]]])) /\
  debayer_cyym Examples.one_block "YCMY"
  = Ok (Img (Arr3 [[[10; 10; 10]; [10; 10; 10]]; [[10; 10; 10]; [10; 10; 10]]])) /\
  debayer_cyym Examples.one_block "YMCY"
  = Ok (Img (Arr3 [[[10; 10; 10]; [10; 10; 10]]; [[10; 10; 10]; [10; 10; 10]]])) /\
  debayer_cyym Examples.one_block "MYYC"
  = Ok (Img (Arr3 [[[0; 20; 10]; [0; 20; 10]]; [[0; 20; 10]; [0; 20; 10]]])).
Proof. vm_compute. repeat split; reflexivity. Qed.

(** C6: for colour values R, G, B of a block in 0..255 and each of the four
    arrangements, the mosaic of Cy=G+B, Y=R+G (twice), Mg=R+B is turned back
    by [debayer_cyym] into R, G, B, exactly, at every pixel of the block.
    The readings are integers, whatever array type carries them. *)
Theorem cyym_roundtrip pattern R G B :
  In pattern ["CYYM"; "YCMY"; "YMCY"; "MYYC"]%string ->
  0 <= R <= 255 -> 0 <= G <= 255 -> 0 <= B <= 255 ->
  debayer_cyym (Arr2 (Examples.mosaic_block pattern (G + B) (R + G) (R + B))) pattern
  = Ok (Img (Arr3 [[[R; G; B]; [R; G; B]]; [[R; G; B]; [R; G; B]]])).
Proof.
  intros Hp HR HG HB.
  pose proof (astype_uint8_clip _ R (solve_R R G B) HR) as Er.
  pose proof (astype_uint8_clip _ G (solve_G R G B) HG) as Eg.
  pose proof (astype_uint8_clip _ B (solve_B R G B) HB) as Eb.
  cbn in Hp.
  destruct Hp as [<-|[<-|[<-|[<-|[]]]]];
    cbn -[zoom2 astype_uint8 clipQ Qplus Qminus Qdiv inject_Z];
    rewrite !zoom2_single;
    cbn -[astype_uint8 clipQ Qplus Qminus Qdiv inject_Z];
    rewrite Er, Eg, Eb; reflexivity.
Qed.

Lemma cyym_roundtrip_witness :
  debayer_cyym (Arr2 (Examples.mosaic_block "YCMY" (60 + 40) (100 + 60) (100 + 40))) "YCMY"
  = Ok (Img (Arr3 [[[100; 60; 40]; [100; 60; 40]]; [[100; 60; 40]; [100; 60; 40]]])).
Proof.
  apply (cyym_roundtrip "YCMY" 100 60 40); [cbn; auto | lia | lia | lia].
Defined.

End ReconstructionFacts.

(** ** The shift limit of the feature-based alignment *)

Section ShiftLimit.

(** C7, as the code has it: in the stacking path ([align_frame_orb]) a
    fitted transform whose x or y translation exceeds [max_shift] in
    absolute value (200 by default) gives an alignment failure; the
    lucky-imaging path ([align_frame_features]) applies no limit and hands
    back the warped frame whatever the translation. *)
Theorem orb_rejects_large_shift (cv : OpenCV) (reference frm : frame)
        (max_shift : Z) (M : matrix23) :
  estimate_transform 10000 (75 # 100) 5 5000 reference frm = Ok (Some M) ->
  (inject_Z max_shift < Qabs (M02 M) \/ inject_Z max_shift < Qabs (M12 M))%Q ->
  FrameAligner.align_frame_orb_with reference frm max_shift = None /\
  forall M' : matrix23,
    estimate_transform 5000 (7 # 10) 3 2000 reference frm = Ok (Some M') ->
    LuckyImaging.align_frame_features reference frm
    = match warpAffine frm M' (snd (shape2 (px reference)), fst (shape2 (px reference))) false with
      | Ok aligned => Some aligned
      | Raise _ => None
      end.
Proof.
  intros E Hs. split.
  - unfold FrameAligner.align_frame_orb_with. rewrite E. cbn [rbind].
    assert (B : Qlt_bool (inject_Z max_shift) (Qabs (M02 M))
                || Qlt_bool (inject_Z max_shift) (Qabs (M12 M)) = true).
    { apply orb_true_iff. unfold Qlt_bool.
      destruct Hs as [H|H]; [left|right];
        apply negb_true_iff; apply not_true_iff_false; intros L;
        apply Qle_bool_iff in L; apply (Qlt_not_le _ _ H L). }
    rewrite B. reflexivity.
  - intros M' E'. unfold LuckyImaging.align_frame_features. rewrite E'. cbn [rbind].
    destruct (shape2 (px reference)) as [h w]. cbn [fst snd].
    destruct (warpAffine frm M' (w, h) false); reflexivity.
Qed.

Lemma orb_rejects_large_shift_witness :
  FrameAligner.align_frame_orb_with (cv := Examples.cv_far_shift)
    Examples.dark_frame Examples.grey_frame 200 = None.
Proof.
  apply (orb_rejects_large_shift Examples.cv_far_shift Examples.dark_frame Examples.grey_frame
           200 ((1, 0, 1000), (0, 1, 0))%Q).
  - vm_compute. reflexivity.
  - left. vm_compute. reflexivity.
Defined.

(** C7 as stated fails in the lucky-imaging path: with a fitted translation
    of 1000 pixels, [align_frame_features] still returns an aligned frame,
    where [align_frame_orb] fails. *)
Lemma lucky_path_keeps_far_shift :
  estimate_transform (cv := Examples.cv_far_shift) 5000 (7 # 10) 3 2000
    Examples.dark_frame Examples.grey_frame
  = Ok (Some ((1, 0, 1000), (0, 1, 0))%Q) /\
  LuckyImaging.align_frame_features (cv := Examples.cv_far_shift)
    Examples.dark_frame Examples.grey_frame = Some Examples.grey_frame /\
  FrameAligner.align_frame_orb (cv := Examples.cv_far_shift)
    Examples.dark_frame Examples.grey_frame = None.
Proof. vm_compute. repeat split; reflexivity. Qed.

End ShiftLimit.

(** ** Stacking: reports, cancellation and the frames kept *)

Section LoopFacts.
Context {CB X St : Type}.
Variable cb : callback CB.
Variable total : Z.
Variable ck : X -> Z.

Lemma for_each_ext (l : list X) (f g : X -> St -> M CB St) acc s :
  (forall x a s, f x a s = g x a s) -> for_each l f acc s = for_each l g acc s.
Proof.
  intros E. revert acc s. induction l as [|x t IH]; intros acc s; cbn [for_each]; [reflexivity|].
  unfold bind. rewrite E. destruct (g x acc s) as [s' [a|e]]; [apply IH | reflexivity].
Qed.

Lemma for_each_silent (step : X -> St -> result St) l acc (s : CB) :
  for_each l (reporting total ck step None) acc s = (s, fold_steps step l acc).
Proof.
  revert acc. induction l as [|x t IH]; intros acc; cbn [for_each fold_steps]; [reflexivity|].
  unfold bind at 1. unfold reporting at 1. unfold bind, lift, report, ret.
  destruct (step x acc) as [a|e]; cbn [rbind]; [apply IH | reflexivity].
Qed.

End LoopFacts.

Lemma bind_cong {CB A B} (m1 m2 : M CB A) (k1 k2 : A -> M CB B) s :
  m1 s = m2 s -> (forall a s', k1 a s' = k2 a s') -> bind m1 k1 s = bind m2 k2 s.
Proof.
  intros Em Ek. unfold bind. rewrite Em. destruct (m2 s) as [s' [a|e]]; [apply Ek | reflexivity].
Qed.

Lemma progress_run_app {CB} (cb : callback CB) r1 r2 s :
  progress_run cb (r1 ++ r2) s
  = match progress_run cb r1 s with
    | (s1, None) => progress_run cb r2 s1
    | (s1, Some e) => (s1, Some e)
    end.
Proof.
  revert s. induction r1 as [|[c t] r1 IH]; intros s; cbn [app progress_run]; [reflexivity|].
  destruct (cb c t s) as [s1 [[]|e]]; [apply IH | reflexivity].
Qed.

Lemma length_insert_by {A} (le : A -> A -> bool) x l :
  length (insert_by le x l) = S (length l).
Proof.
  induction l as [|y t IH]; cbn [insert_by length]; [reflexivity|].
  destruct (le x y); cbn [length]; [reflexivity | rewrite IH; reflexivity].
Qed.

Lemma length_sort_by {A} (le : A -> A -> bool) l : length (sort_by le l) = length l.
Proof.
  unfold sort_by. induction l as [|x t IH]; cbn [fold_right length]; [reflexivity|].
  rewrite length_insert_by, IH. reflexivity.
Qed.

Lemma length_range lo hi : length (range lo hi) = Z.to_nat (hi - lo).
Proof. unfold range. rewrite length_map, length_seq. reflexivity. Qed.

Lemma map_fst_combine {A B} (a : list A) (b : list B) :
  length a = length b -> map fst (combine a b) = a.
Proof.
  revert b. induction a as [|x a IH]; intros [|y b] H; cbn in *; try discriminate; [reflexivity|].
  f_equal. apply IH. lia.
Qed.

Lemma fold_steps_length {X St} (step : X -> St -> result St) (size : St -> nat) l acc final :
  (forall x a a', step x a = Ok a' -> size a' = S (size a)) ->
  fold_steps step l acc = Ok final -> size final = (size acc + length l)%nat.
Proof.
  intros Hs. revert acc. induction l as [|x t IH]; intros acc; cbn [fold_steps length].
  - intros [= ->]. lia.
  - destruct (step x acc) as [a|e] eqn:E; cbn [rbind]; [|discriminate].
    intros F. rewrite (IH _ F), (Hs _ _ _ E). lia.
Qed.

Lemma for_each_Ok_fold {CB X St} total (ck : X -> Z) (step : X -> St -> result St)
      (pc : option (callback CB)) l acc s s' final :
  for_each l (reporting total ck step pc) acc s = (s', Ok final) ->
  fold_steps step l acc = Ok final.
Proof.
  revert acc s. induction l as [|x t IH]; intros acc s; cbn [for_each fold_steps].
  - unfold ret. intros [= _ ->]. reflexivity.
  - unfold bind at 1. unfold reporting at 1. unfold bind, lift, ret.
    destruct (step x acc) as [a|e]; cbn [rbind]; [|discriminate].
    destruct (report pc (ck x) total s) as [s1 [[]|e]]; [apply IH | discriminate].
Qed.

Lemma In_range i lo hi : In i (range lo hi) <-> lo <= i < hi.
Proof.
  unfold range. rewrite in_map_iff. split.
  - intros (k & <- & Hk). apply in_seq in Hk. lia.
  - intros H. exists (Z.to_nat (i - lo)). split; [lia|]. apply in_seq. lia.
Qed.

Section StackerFacts.
Context {cv : OpenCV} {CB : Type}.
Import FrameStacker.

Lemma read_all_loop vf (pc : option (callback CB)) s :
  read_all vf pc s
  = for_each (range 0 (header_frame_count vf))
             (reporting (header_frame_count vf) next (step_read vf) pc) [] s.
Proof.
  unfold read_all. apply for_each_ext. intros i frames s0.
  unfold reporting, step_read, next, bind, lift, ret.
  destruct (parser_get_frame vf i); cbn [rbind]; [|reflexivity].
  destruct (report pc (i + 1) (header_frame_count vf) s0) as [s1 [[]|e]]; reflexivity.
Qed.

Lemma sum_all_loop vf first (pc : option (callback CB)) s :
  sum_all vf first pc s
  = for_each (range 0 (header_frame_count vf))
             (reporting (header_frame_count vf) next (step_sum vf) pc) (zeros_like first) s.
Proof.
  unfold sum_all. apply for_each_ext. intros i acc s0.
  unfold reporting, step_sum, next, bind, lift, ret.
  destruct (parser_get_frame vf i); cbn [rbind]; [|reflexivity].
  destruct (add_frame acc a); [|reflexivity].
  destruct (report pc (i + 1) (header_frame_count vf) s0) as [s1 [[]|e]]; reflexivity.
Qed.

Lemma align_all_loop vf first (pc : option (callback CB)) thr s :
  align_all vf first pc thr s
  = (q0 <- lift (FrameAligner.calculate_quality_score first) ;;
     report pc 1 (header_frame_count vf) ;;
     for_each (range 1 (header_frame_count vf))
              (reporting (header_frame_count vf) next (step_align vf first thr) pc)
              ([first], [q0]))%run s.
Proof.
  unfold align_all.
  apply bind_cong; [reflexivity|]. intros q0 s0.
  apply bind_cong; [reflexivity|]. intros [] s1.
  apply for_each_ext. intros i [af qs] s2.
  unfold reporting, step_align, align_either, next, bind, lift, ret. cbn [fst snd].
  destruct (parser_get_frame vf i) as [frm|e]; cbn [rbind]; [|reflexivity].
  destruct (match FrameAligner.align_frame_ecc first frm with
            | Some a => Some a
            | None => FrameAligner.align_frame_orb first frm
            end) as [a|].
  - destruct (FrameAligner.calculate_quality_score a) as [q|e]; cbn [rbind]; [|reflexivity].
    destruct (Qle_bool thr q);
      destruct (report pc (i + 1) (header_frame_count vf) s2) as [s3 [[]|e]]; reflexivity.
  - destruct (report pc (i + 1) (header_frame_count vf) s2) as [s3 [[]|e]]; reflexivity.
Qed.

Lemma bind_lift {A B} (r : result A) (k : A -> M CB B) s :
  bind (lift r) k s = match r with Ok a => k a s | Raise e => (s, Raise e) end.
Proof. unfold bind, lift. destruct r; reflexivity. Qed.

Lemma align_all_silent vf first thr (s : CB) :
  align_all vf first None thr s
  = (s, (q0 <- FrameAligner.calculate_quality_score first ;;
         fold_steps (step_align vf first thr) (range 1 (header_frame_count vf))
                    ([first], [q0]))%result).
Proof.
  rewrite align_all_loop, bind_lift.
  destruct (FrameAligner.calculate_quality_score first) as [q0|e]; [|reflexivity].
  cbn [rbind report]. unfold bind, ret. apply for_each_silent.
Qed.


Lemma fold_align_kept vf first thr l af qs af' qs' :
  (forall i, In i l -> 1 <= i < header_frame_count vf) ->
  fold_steps (step_align vf first thr) l (af, qs) = Ok (af', qs') ->
  exists extra, af' = af ++ extra /\ (length extra <= length l)%nat /\
                Forall (kept vf first thr) extra.
Proof.
  revert af qs. induction l as [|i t IH]; intros af qs Hl; cbn [fold_steps].
  - intros [= <- <-]. exists []. rewrite app_nil_r. repeat split; [cbn; lia | constructor].
  - unfold step_align at 1. cbn [fst snd].
    destruct (parser_get_frame vf i) as [frm|e] eqn:G; cbn [rbind]; [|discriminate].
    assert (Hi : 1 <= i < header_frame_count vf) by (apply Hl; left; reflexivity).
    assert (Ht : forall j, In j t -> 1 <= j < header_frame_count vf)
      by (intros j Hj; apply Hl; right; exact Hj).
    destruct (align_either first frm) as [a|] eqn:A.
    + destruct (FrameAligner.calculate_quality_score a) as [q|e] eqn:Sc; cbn [rbind];
        [|discriminate].
      destruct (Qle_bool thr q) eqn:T; intros F.
      * destruct (IH _ _ Ht F) as (extra & -> & Hlen & Hk).
        exists (a :: extra). rewrite <- app_assoc. repeat split; [cbn; lia|].
        constructor; [|exact Hk]. exists i, frm, q. repeat split; auto; lia.
      * destruct (IH _ _ Ht F) as (extra & -> & Hlen & Hk).
        exists extra. repeat split; [cbn; lia | exact Hk].
    + intros F. destruct (IH _ _ Ht F) as (extra & -> & Hlen & Hk).
      exists extra. repeat split; [cbn; lia | exact Hk].
Qed.

Lemma fold_align_total vf first thr l acc :
  (forall i, In i l -> exists frm, parser_get_frame vf i = Ok frm) ->
  (forall f, exists q, FrameAligner.calculate_quality_score f = Ok q) ->
  exists final, fold_steps (step_align vf first thr) l acc = Ok final.
Proof.
  intros Hg Hs. revert acc. induction l as [|i t IH]; intros acc; cbn [fold_steps].
  - eexists. reflexivity.
  - assert (Ht : forall j, In j t -> exists frm, parser_get_frame vf j = Ok frm)
      by (intros j Hj; apply Hg; right; exact Hj).
    destruct (Hg i (or_introl eq_refl)) as [frm G].
    unfold step_align at 1. rewrite G. cbn [rbind].
    destruct (align_either first frm) as [a|].
    + destruct (Hs a) as [q Sc]. rewrite Sc. cbn [rbind].
      destruct (Qle_bool thr q); apply (IH Ht).
    + apply (IH Ht).
Qed.

Lemma align_all_Ok vf first (pc : option (callback CB)) thr s s' af qs :
  align_all vf first pc thr s = (s', Ok (af, qs)) ->
  exists q0, FrameAligner.calculate_quality_score first = Ok q0 /\
             fold_steps (step_align vf first thr) (range 1 (header_frame_count vf))
                        ([first], [q0]) = Ok (af, qs).
Proof.
  rewrite align_all_loop, bind_lift.
  destruct (FrameAligner.calculate_quality_score first) as [q0|e]; [|discriminate].
  unfold bind at 1. destruct (report pc 1 (header_frame_count vf) s) as [s1 [[]|e]];
    [|discriminate].
  intros F. exists q0. split; [reflexivity|]. exact (for_each_Ok_fold _ _ _ _ _ _ _ _ _ F).
Qed.

Lemma align_all_frames vf first (pc : option (callback CB)) thr s s' af qs :
  align_all vf first pc thr s = (s', Ok (af, qs)) ->
  exists rest, af = first :: rest /\
               (length rest <= Z.to_nat (header_frame_count vf - 1))%nat /\
               Forall (kept vf first thr) rest.
Proof.
  intros H. destruct (align_all_Ok _ _ _ _ _ _ _ _ H) as (q0 & _ & F).
  apply fold_align_kept in F; [|intros i Hi; apply In_range in Hi; exact Hi].
  destruct F as (extra & -> & Hlen & Hk). rewrite length_range in Hlen.
  exists extra. repeat split; auto.
Qed.

Lemma select_best_frames_loop vf pct (pc : option (callback CB)) s :
  LuckyImaging.select_best_frames vf pct pc s
  = (frame_scores <- for_each (range 0 (header_frame_count vf))
                       (reporting (header_frame_count vf) next (step_score vf) pc) [] ;;
     let best := select_sorted pct (header_frame_count vf) frame_scores in
     _ <- lift (py_index best (-1)) ;;
     lift (fold_steps (step_load vf) best []))%run s.
Proof.
  unfold LuckyImaging.select_best_frames.
  apply bind_cong.
  - apply for_each_ext. intros i fs s0.
    unfold reporting, step_score, next, bind, lift, ret.
    destruct (parser_get_frame vf i) as [frm|e]; cbn [rbind]; [|reflexivity].
    destruct (LuckyImaging.calculate_sharpness frm) as [q|e]; cbn [rbind]; [|reflexivity].
    destruct (report pc (i + 1) (header_frame_count vf) s0) as [s1 [[]|e]]; reflexivity.
  - intros fs s0. cbv zeta. fold (select_sorted pct (header_frame_count vf) fs).
    apply bind_cong; [reflexivity|]. intros _ s1.
    etransitivity; [| exact (for_each_silent 0 (fun _ => 0) (step_load vf) _ [] s1)].
    apply for_each_ext. intros [idx score] acc s2.
    unfold reporting, step_load, bind, lift, ret, report. cbn [fst snd].
    destruct (parser_get_frame vf idx); reflexivity.
Qed.

Lemma align_and_stack_lucky_loop vf pct method (pc : option (callback CB)) s :
  LuckyImaging.align_and_stack_lucky vf pct method pc s
  = (best_frames <- LuckyImaging.select_best_frames vf pct pc ;;
     match best_frames with
     | [] => lift (Raise (PyException "No frames selected"))
     | (_, _, reference_frame) :: others =>
       aligned_frames <-
         for_each (enumerate others 1)
                  (reporting (Z.of_nat (length best_frames)) fst
                             (step_feature reference_frame) pc)
                  [reference_frame] ;;
       lift (LuckyImaging.combine_lucky method aligned_frames)
     end)%run s.
Proof.
  unfold LuckyImaging.align_and_stack_lucky.
  apply bind_cong; [reflexivity|]. intros [|[[ri rs] rf] others] s0; [reflexivity|].
  apply bind_cong; [|reflexivity].
  apply for_each_ext. intros [i [[idx score] frm]] af s1.
  unfold reporting, step_feature, bind, lift, ret. cbn [fst snd].
  destruct (LuckyImaging.align_frame_features rf frm);
    destruct (report pc i _ s1) as [s2 [[]|e]]; reflexivity.
Qed.

Lemma selected_count_length vf fs loaded :
  fold_steps (step_score vf) (range 0 (header_frame_count vf)) [] = Ok fs ->
  fold_steps (step_load vf) (select_sorted 10 (header_frame_count vf) fs) [] = Ok loaded ->
  Z.of_nat (length loaded) = selected_count (header_frame_count vf).
Proof.
  intros F1 F2.
  apply (fold_steps_length _ (@length _)) in F1.
  2:{ intros x a a'. unfold step_score.
      destruct (parser_get_frame vf x); cbn [rbind]; [|discriminate].
      destruct (LuckyImaging.calculate_sharpness a0); cbn [rbind]; [|discriminate].
      intros [= <-]. rewrite length_app. cbn. lia. }
  apply (fold_steps_length _ (@length _)) in F2.
  2:{ intros x a a'. unfold step_load.
      destruct (parser_get_frame vf (fst x)); cbn [rbind]; [|discriminate].
      intros [= <-]. rewrite length_app. cbn. lia. }
  rewrite F2. unfold select_sorted, selected_count.
  rewrite length_sort_by, length_firstn, length_sort_by, F1, length_range.
  cbn [length]. rewrite Z.sub_0_r. reflexivity.
Qed.

Lemma map_next_range lo hi : map next (range lo hi) = range (lo + 1) (hi + 1).
Proof.
  unfold range. rewrite map_map. replace (hi + 1 - (lo + 1)) with (hi - lo) by lia.
  apply map_ext. intros k. unfold next. lia.
Qed.

Lemma range_cons lo hi : lo < hi -> range lo hi = lo :: range (lo + 1) hi.
Proof.
  intros H. unfold range.
  replace (Z.to_nat (hi - lo)) with (S (Z.to_nat (hi - (lo + 1)))) by lia.
  cbn [seq map]. rewrite <- seq_shift, map_map. f_equal; [lia|].
  apply map_ext. intros k. lia.
Qed.

Lemma native_reports_list vf align_frames :
  is_video vf = false ->
  1 <= header_frame_count vf ->
  stack_reports vf align_frames
  = map (fun k => (k, header_frame_count vf)) (range 1 (header_frame_count vf + 1)).
Proof.
  intros V Hn. unfold stack_reports. rewrite V.
  rewrite <- !(map_map next (fun k => (k, header_frame_count vf))), !map_next_range.
  destruct align_frames; [|reflexivity].
  rewrite (range_cons 1 (header_frame_count vf + 1)) by lia. reflexivity.
Qed.

(** C10: in aligned stacking of a native source, frame 0 is the reference
    and the first of the frames stacked, whatever the quality threshold:
    every other frame stacked is the aligned version of one of the frames
    1 .. frame_count-1 whose quality reaches the threshold, so at least one
    frame is used.  With all frames readable and a quality score for every
    frame, the alignment pass does return such a list. *)
Theorem frame0_always_stacked vf first method (pc : option (callback CB)) auto_stretch thr s :
  is_video vf = false ->
  parser_get_frame vf 0 = Ok first ->
  ((forall i, 1 <= i < header_frame_count vf -> exists frm, parser_get_frame vf i = Ok frm) ->
   (forall f, exists q, FrameAligner.calculate_quality_score f = Ok q) ->
   exists rest qs, align_all vf first None thr s = (s, Ok (first :: rest, qs))) /\
  (forall s' af qs,
     align_all vf first pc thr s = (s', Ok (af, qs)) ->
     exists rest,
       af = first :: rest /\
       (1 <= length af)%nat /\
       (length rest <= Z.to_nat (header_frame_count vf - 1))%nat /\
       Forall (kept vf first thr) rest /\
       stack_frames vf method pc auto_stretch true thr s
       = (s', combine_aligned method auto_stretch first (first :: rest))).
Proof.
  intros V G0. split.
  - intros Hg Hs. rewrite align_all_silent.
    destruct (Hs first) as [q0 E0]. rewrite E0. cbn [rbind].
    destruct (fold_align_total vf first thr (range 1 (header_frame_count vf)) ([first], [q0]))
      as [[af qs] F]; [intros i Hi; apply Hg, In_range, Hi | exact Hs |].
    destruct (fold_align_kept _ _ _ _ _ _ _ _ (fun i Hi => proj1 (In_range i _ _) Hi) F)
      as (extra & E & _).
    rewrite F, E. exists extra, qs. reflexivity.
  - intros s' af qs H.
    destruct (align_all_frames _ _ _ _ _ _ _ _ H) as (rest & -> & Hlen & Hk).
    exists rest. repeat split; auto; [cbn; lia|].
    unfold stack_frames. rewrite V, bind_lift, G0. unfold bind. rewrite H. reflexivity.
Qed.

(** C8, as the code has it: the five frames of constant value 10, 20, 30,
    40, 50 stack without alignment to a uniform 30 by average, a uniform 30
    by median, and a uniform 150 by sum: the stretch finds a degenerate
    range every time and passes the data through, so the sum stays the sum. *)
Theorem five_constant_frames_stack (s : CB) (thr : Q) :
  (vf <- open_ser Examples.five_frames ;;
   Ok (stack_frames vf "average" None true false thr s,
       stack_frames vf "sum" None true false thr s,
       stack_frames vf "median" None true false thr s))%result
  = Ok ((s, Ok {| dtype_of := uint8; px := Examples.uniform 4 4 30 |}),
        (s, Ok {| dtype_of := uint8; px := Examples.uniform 4 4 150 |}),
        (s, Ok {| dtype_of := uint8; px := Examples.uniform 4 4 30 |})).
Proof. vm_compute. reflexivity. Qed.

End StackerFacts.

Section StackerExamples.
Import FrameStacker.

Lemma frame0_always_stacked_witness :
  exists vf first rest qs,
    open_ser Examples.three_alike = Ok vf /\
    parser_get_frame vf 0 = Ok first /\
    align_all (cv := Examples.cv_still) vf first None 1 tt = (tt, Ok (first :: rest, qs)).
Proof.
  destruct (open_ser Examples.three_alike) as [vf|e] eqn:E;
    [|vm_compute in E; discriminate].
  destruct (parser_get_frame vf 0) as [first|e] eqn:G0.
  - assert (V : is_video vf = false)
      by (vm_compute in E; injection E as <-; reflexivity).
    destruct (proj1 (frame0_always_stacked (cv := Examples.cv_still) (CB := unit)
                       vf first "average" None true 1 tt V G0))
      as (rest & qs & A).
    + intros i Hi. vm_compute in E. injection E as <-.
      assert (Hc : i = 1 \/ i = 2) by (cbn in Hi; lia).
      destruct Hc as [-> | ->]; eexists; vm_compute; reflexivity.
    + intros f. unfold FrameAligner.calculate_quality_score.
      destruct (is_3d (px f)); eexists; reflexivity.
    + exists vf, first, rest, qs. repeat split; auto.
  - exfalso. vm_compute in E. injection E as <-. vm_compute in G0. discriminate.
Defined.

(** C8 as stated fails for the sum: the result is a uniform 150, not the
    maximal output value 255. *)
Lemma sum_of_five_is_not_saturated :
  (vf <- open_ser Examples.five_frames ;;
   Ok (stack_frames (cv := Examples.cv_still) vf "sum" None true false 0 tt))%result
  = Ok (tt, Ok {| dtype_of := uint8; px := Examples.uniform 4 4 150 |}) /\
  Examples.uniform 4 4 150 <> Examples.uniform 4 4 255.
Proof. split; [vm_compute; reflexivity | vm_compute; discriminate]. Qed.

End StackerExamples.

(** ** Stacking: the callback in step with the frames, and what is returned *)

Section InterleavingFacts.
Context {CB X St : Type}.
Variable cb : callback CB.
Variable total : Z.
Variable ck : X -> Z.

Lemma steps_done_le (step : X -> St -> result St) l acc :
  (steps_done step l acc <= length l)%nat.
Proof.
  revert acc. induction l as [|x t IH]; intros acc; cbn [steps_done length]; [lia|].
  destruct (step x acc) as [a|e]; [specialize (IH a)|]; lia.
Qed.

Lemma steps_done_Ok (step : X -> St -> result St) l acc final :
  fold_steps step l acc = Ok final -> steps_done step l acc = length l.
Proof.
  revert acc. induction l as [|x t IH]; intros acc; cbn [steps_done fold_steps length];
    [reflexivity|].
  destruct (step x acc) as [a|e]; cbn [rbind]; [|discriminate].
  intros F. rewrite (IH _ F). reflexivity.
Qed.

(** Every turn counted is a turn that completed. *)
Lemma steps_done_nth (step : X -> St -> result St) l acc k x :
  (k < steps_done step l acc)%nat -> nth_error l k = Some x ->
  exists a a', step x a = Ok a'.
Proof.
  revert acc k. induction l as [|y t IH]; intros acc k; cbn [steps_done]; [lia|].
  destruct (step y acc) as [a|e] eqn:E; [|lia].
  destruct k as [|k]; cbn [nth_error].
  - intros _ [= <-]. exists acc, a. exact E.
  - intros Hk N. apply (IH a k); [lia | exact N].
Qed.

(** A loop with reports: the callback is told of each turn completed, in
    order, until it raises or a turn does. *)
Lemma for_each_interleaved (step : X -> St -> result St) l acc (s : CB) :
  for_each l (reporting total ck step (Some cb)) acc s
  = ending (progress_run cb (firstn (steps_done step l acc) (map (fun x => (ck x, total)) l)) s)
           (fold_steps step l acc).
Proof.
  revert acc s. induction l as [|x t IH]; intros acc s;
    cbn [for_each fold_steps steps_done map]; [reflexivity|].
  unfold bind at 1. unfold reporting at 1. unfold bind, lift, report, ret.
  destruct (step x acc) as [a|e]; cbn [rbind firstn progress_run ending]; [|reflexivity].
  destruct (cb (ck x) total s) as [s' [[]|e]]; [apply IH | reflexivity].
Qed.

End InterleavingFacts.

Lemma bind_ending {CB A B} (p : CB * option exn) (r : result A) (k : A -> M CB B)
      (k' : A -> result B) :
  (forall a s, k a s = (s, k' a)) ->
  (let '(s', x) := ending p r in
   match x with Ok a => k a s' | Raise e => (s', Raise e) end) = ending p (rbind r k').
Proof.
  intros K. destruct p as [s' [e|]]; cbn [ending]; [reflexivity|].
  destruct r as [a|e]; cbn [rbind]; [apply K | reflexivity].
Qed.

Lemma nth_error_range lo hi k :
  (k < length (range lo hi))%nat -> nth_error (range lo hi) k = Some (lo + Z.of_nat k).
Proof.
  intros H. unfold range in *. rewrite length_map, length_seq in H.
  rewrite nth_error_map, nth_error_seq.
  destruct (Nat.ltb_spec k (Z.to_nat (hi - lo))); [reflexivity | lia].
Qed.

Section ReportFacts.
Context {cv : OpenCV} {CB : Type}.
Import FrameStacker.

Lemma select_best_frames_count vf (pc : option (callback CB)) s s1 best :
  LuckyImaging.select_best_frames vf 10 pc s = (s1, Ok best) ->
  Z.of_nat (length best) = selected_count (header_frame_count vf).
Proof.
  rewrite select_best_frames_loop. unfold bind at 1.
  destruct (for_each _ _ _ s) as [s0 [fs|e]] eqn:F; [|discriminate].
  apply for_each_Ok_fold in F. cbv zeta. rewrite bind_lift.
  destruct (py_index (select_sorted 10 (header_frame_count vf) fs) (-1)); [|discriminate].
  unfold lift. intros [= _ F2]. exact (selected_count_length _ _ _ F F2).
Qed.

Lemma selected_count_le n : 0 <= n -> selected_count n <= n.
Proof. intros H. unfold selected_count. lia. Qed.

Lemma fold_feature_kept reference l acc final :
  fold_steps (step_feature reference) l acc = Ok final ->
  exists extra, final = acc ++ extra /\ (length extra <= length l)%nat.
Proof.
  revert acc. induction l as [|x t IH]; intros acc; cbn [fold_steps].
  - intros [= <-]. exists []. rewrite app_nil_r. split; [reflexivity | cbn; lia].
  - unfold step_feature at 1.
    destruct (LuckyImaging.align_frame_features reference (snd (snd x))) as [a|];
      cbn [rbind]; intros F; destruct (IH _ F) as (extra & -> & L).
    + exists (a :: extra). rewrite <- app_assoc. split; [reflexivity | cbn; lia].
    + exists extra. split; [reflexivity | cbn; lia].
Qed.

Lemma fold_feature_total reference l acc :
  exists final, fold_steps (step_feature reference) l acc = Ok final.
Proof.
  revert acc. induction l as [|x t IH]; intros acc; cbn [fold_steps]; [eexists; reflexivity|].
  unfold step_feature at 1.
  destruct (LuckyImaging.align_frame_features reference (snd (snd x))); cbn [rbind]; apply IH.
Qed.

Lemma length_enumerate {A} (l : list A) start : length (enumerate l start) = length l.
Proof.
  unfold enumerate. rewrite length_combine, length_range. lia.
Qed.

(** The frames of the unaligned loops: all of them, in order. *)
Lemma fold_read_frames vf l acc final :
  fold_steps (step_read vf) l acc = Ok final ->
  exists frames, final = acc ++ frames /\
                 Forall2 (fun i f => parser_get_frame vf i = Ok f) l frames.
Proof.
  revert acc. induction l as [|i t IH]; intros acc; cbn [fold_steps].
  - intros [= <-]. exists []. rewrite app_nil_r. split; [reflexivity | constructor].
  - unfold step_read at 1.
    destruct (parser_get_frame vf i) as [f|e] eqn:G; cbn [rbind]; [|discriminate].
    intros F. destruct (IH _ F) as (frames & -> & H).
    exists (f :: frames). rewrite <- app_assoc. split; [reflexivity|].
    constructor; assumption.
Qed.

Lemma fold_sum_frames vf l acc final :
  fold_steps (step_sum vf) l acc = Ok final ->
  exists frames,
    Forall2 (fun i f => parser_get_frame vf i = Ok f) l frames /\
    fold_left (fun acc frm => (a <- acc ;; add_frame a frm)%result) frames (Ok acc)
    = Ok final.
Proof.
  revert acc. induction l as [|i t IH]; intros acc; cbn [fold_steps].
  - intros [= <-]. exists []. split; [constructor | reflexivity].
  - unfold step_sum at 1.
    destruct (parser_get_frame vf i) as [f|e] eqn:G; cbn [rbind]; [|discriminate].
    destruct (add_frame acc f) as [a|e] eqn:A; cbn [rbind]; [|discriminate].
    intros F. destruct (IH _ F) as (frames & H & S).
    exists (f :: frames). split; [constructor; assumption|].
    cbn [fold_left rbind]. rewrite A. exact S.
Qed.

Lemma Forall2_length_range {A} (R : Z -> A -> Prop) n (l : list A) :
  0 <= n -> Forall2 R (range 0 n) l -> Z.of_nat (length l) = n.
Proof.
  intros Hn F. apply Forall2_length in F. rewrite length_range in F. lia.
Qed.

(** What a completed run returns, path by path. *)
Lemma lucky_composite vf method (pc : option (callback CB)) s s' img :
  1 <= header_frame_count vf ->
  LuckyImaging.align_and_stack_lucky vf 10 method pc s = (s', Ok img) ->
  exists s1 idx score reference others rest,
    LuckyImaging.select_best_frames vf 10 pc s = (s1, Ok ((idx, score, reference) :: others)) /\
    (length rest <= length others)%nat /\
    Z.of_nat (length (reference :: rest)) <= header_frame_count vf /\
    LuckyImaging.combine_lucky method (reference :: rest) = Ok img.
Proof.
  intros Hn. rewrite align_and_stack_lucky_loop. unfold bind at 1.
  destruct (LuckyImaging.select_best_frames vf 10 pc s) as [s1 [best|e]] eqn:Sel;
    [|discriminate].
  pose proof (select_best_frames_count _ _ _ _ _ Sel) as K.
  destruct best as [|[[idx score] reference] others]; [discriminate|].
  unfold bind at 1.
  destruct (for_each _ _ _ s1) as [s2 [aligned|e]] eqn:F; [|discriminate].
  apply for_each_Ok_fold in F. apply fold_feature_kept in F.
  destruct F as (rest & -> & L). rewrite length_enumerate in L.
  unfold lift. intros [= _ C].
  exists s1, idx, score, reference, others, rest.
  split; [reflexivity|]. split; [exact L|]. split; [|exact C].
  assert (Hn0 : 0 <= header_frame_count vf) by lia.
  pose proof (selected_count_le (header_frame_count vf) Hn0).
  cbn [length app] in *. lia.
Qed.

Lemma unaligned_composite vf method (pc : option (callback CB)) auto_stretch thr s s' img :
  is_video vf = false ->
  1 <= header_frame_count vf ->
  stack_frames vf method pc auto_stretch false thr s = (s', Ok img) ->
  exists first frames,
    parser_get_frame vf 0 = Ok first /\
    Forall2 (fun i f => parser_get_frame vf i = Ok f) (range 0 (header_frame_count vf)) frames /\
    combine_aligned method auto_stretch first frames = Ok img.
Proof.
  intros V Hn H. unfold stack_frames in H. rewrite V, bind_lift in H.
  destruct (parser_get_frame vf 0) as [first|e] eqn:G0; [|discriminate].
  exists first. unfold combine_aligned.
  destruct (String.eqb method "median").
  - unfold bind at 1 in H. rewrite read_all_loop in H.
    destruct (for_each _ _ _ s) as [s1 [frames|e]] eqn:F; [|discriminate].
    apply for_each_Ok_fold in F. apply fold_read_frames in F.
    destruct F as (fr & -> & R). cbn [app] in *.
    rewrite bind_lift in H.
    destruct (median_stack fr) as [m|e] eqn:Em; [|discriminate].
    unfold ret in H. injection H as _ <-.
    exists fr. split; [reflexivity|]. split; [exact R | rewrite Em; reflexivity].
  - destruct (String.eqb method "sum").
    + unfold bind in H. rewrite sum_all_loop in H.
      destruct (for_each _ _ _ s) as [s1 [acc|e]] eqn:F; [|discriminate].
      apply for_each_Ok_fold in F. apply fold_sum_frames in F.
      destruct F as (fr & R & A).
      unfold ret in H. injection H as _ <-.
      exists fr. split; [reflexivity|]. split; [exact R|].
      unfold accumulate. rewrite A. reflexivity.
    + unfold bind in H. rewrite sum_all_loop in H.
      destruct (for_each _ _ _ s) as [s1 [acc|e]] eqn:F; [|discriminate].
      apply for_each_Ok_fold in F. apply fold_sum_frames in F.
      destruct F as (fr & R & A).
      unfold ret in H. injection H as _ <-.
      exists fr. split; [reflexivity|]. split; [exact R|].
      unfold accumulate. rewrite A. cbn [rbind].
      assert (Hn0 : 0 <= header_frame_count vf) by lia.
      rewrite (Forall2_length_range _ _ _ Hn0 R). reflexivity.
Qed.

(** C3, as the code has it: a completed stack operation returns the
    composite alone.  The composite is the combination of the frames
    incorporated, at least one and at most the frame count of them: all the
    frames of the file without alignment; frame 0 and the frames that came
    out of the alignment pass with it, whose number is the local
    [used_frames]; for a video source the reference and those of the
    selected frames that aligned to it.  How many they are is not part of
    what is returned. *)
Theorem stack_returns_composite_alone vf method (pc : option (callback CB))
        auto_stretch align_frames thr s s' (img : frame) :
  1 <= header_frame_count vf ->
  stack_frames vf method pc auto_stretch align_frames thr s = (s', Ok img) ->
  exists used : list frame,
    1 <= Z.of_nat (length used) <= header_frame_count vf /\
    (if is_video vf then LuckyImaging.combine_lucky method used
     else (first <- parser_get_frame vf 0 ;;
           combine_aligned method auto_stretch first used)%result) = Ok img /\
    (if is_video vf then
       exists s1 idx score reference others rest,
         LuckyImaging.select_best_frames vf 10 pc s
         = (s1, Ok ((idx, score, reference) :: others)) /\
         used = reference :: rest /\ (length rest <= length others)%nat
     else if align_frames then
       exists first qs,
         parser_get_frame vf 0 = Ok first /\
         align_all vf first pc thr s = (s', Ok (used, qs)) /\
         used_frames vf pc thr s = (s', Ok (Z.of_nat (length used)))
     else
       Forall2 (fun i f => parser_get_frame vf i = Ok f)
               (range 0 (header_frame_count vf)) used).
Proof.
  intros Hn H. destruct (is_video vf) eqn:V.
  - unfold stack_frames in H. rewrite V in H.
    destruct (lucky_composite _ _ _ _ _ _ Hn H)
      as (s1 & idx & score & reference & others & rest & Sel & L & B & C).
    exists (reference :: rest). split; [cbn [length] in *; lia|]. split; [exact C|].
    exists s1, idx, score, reference, others, rest. repeat split; assumption.
  - destruct align_frames.
    + unfold stack_frames in H. rewrite V, bind_lift in H.
      destruct (parser_get_frame vf 0) as [first|e] eqn:G0; [|discriminate].
      unfold bind in H.
      destruct (align_all vf first pc thr s) as [s1 [[af qs]|e]] eqn:A; [|discriminate].
      unfold lift in H. injection H as <- C.
      destruct (align_all_frames _ _ _ _ _ _ _ _ A) as (rest & E & Hlen & _).
      exists af. split; [subst af; cbn [length]; lia|]. split; [exact C|].
      exists first, qs. split; [reflexivity|]. split; [exact A|].
      unfold used_frames. rewrite bind_lift, G0. unfold bind. rewrite A. reflexivity.
    + destruct (unaligned_composite _ _ _ _ _ _ _ _ V Hn H) as (first & frames & G0 & R & C).
      assert (Hn0 : 0 <= header_frame_count vf) by lia.
      exists frames. rewrite (Forall2_length_range _ _ _ Hn0 R).
      split; [lia|]. rewrite G0. split; [exact C | exact R].
Qed.


Lemma firstn_map_all {A B} (f : A -> B) (l : list A) :
  firstn (length l) (map f l) = map f l.
Proof. rewrite <- (length_map f l). apply firstn_all. Qed.

Lemma firstn_within {A} k (l1 l2 : list A) :
  (k <= length l1)%nat -> firstn k (l1 ++ l2) = firstn k l1.
Proof.
  intros H. rewrite firstn_app. replace (k - length l1)%nat with 0%nat by lia.
  cbn [firstn]. apply app_nil_r.
Qed.

Lemma native_interleaved vf method auto_stretch align_frames thr (cb : callback CB) (s : CB) :
  is_video vf = false ->
  stack_frames vf method (Some cb) auto_stretch align_frames thr s
  = ending (progress_run cb (firstn (reports_reached vf method align_frames thr)
                                    (stack_reports vf align_frames)) s)
           (snd (stack_frames vf method None auto_stretch align_frames thr s)).
Proof.
  intros V. unfold stack_frames, stack_reports, reports_reached. rewrite V.
  rewrite !bind_lift.
  destruct (parser_get_frame vf 0) as [first|e]; [|reflexivity].
  destruct align_frames.
  - unfold bind. rewrite align_all_silent, align_all_loop, bind_lift.
    destruct (FrameAligner.calculate_quality_score first) as [q0|e]; [|reflexivity].
    cbn [rbind report firstn progress_run]. unfold bind at 1.
    destruct (cb 1 (header_frame_count vf) s) as [s1 [[]|e]]; [|reflexivity].
    rewrite for_each_interleaved.
    destruct (fold_steps (step_align vf first thr) (range 1 (header_frame_count vf))
                         ([first], [q0])) as [[af qs]|e];
      destruct (progress_run cb _ s1) as [s2 [e'|]]; reflexivity.
  - destruct (String.eqb method "median").
    + unfold bind at 1. unfold bind at 2. rewrite !read_all_loop.
      rewrite for_each_silent, for_each_interleaved.
      destruct (fold_steps (step_read vf) (range 0 (header_frame_count vf)) [])
        as [frames|e];
        destruct (progress_run cb _ s) as [s2 [e'|]]; cbn [ending snd]; try reflexivity.
      rewrite !bind_lift. destruct (median_stack frames); reflexivity.
    + destruct (String.eqb method "sum").
      * unfold bind. rewrite !sum_all_loop.
        rewrite for_each_silent, for_each_interleaved.
        destruct (fold_steps (step_sum vf) (range 0 (header_frame_count vf)) (zeros_like first))
          as [acc|e];
          destruct (progress_run cb _ s) as [s2 [e'|]]; reflexivity.
      * unfold bind. rewrite !sum_all_loop.
        rewrite for_each_silent, for_each_interleaved.
        destruct (fold_steps (step_sum vf) (range 0 (header_frame_count vf)) (zeros_like first))
          as [acc|e];
          destruct (progress_run cb _ s) as [s2 [e'|]]; reflexivity.
Qed.


Lemma feature_reports vf loaded (r : Z * Q * frame) others :
  Z.of_nat (length loaded) = selected_count (header_frame_count vf) ->
  loaded = r :: others ->
  map (fun x : Z * (Z * Q * frame) => (fst x, Z.of_nat (length loaded))) (enumerate others 1)
  = map (fun i => (i, selected_count (header_frame_count vf)))
        (range 1 (selected_count (header_frame_count vf))).
Proof.
  intros K ->. rewrite K.
  rewrite <- (map_map fst (fun i => (i, selected_count (header_frame_count vf)))).
  unfold enumerate. rewrite map_fst_combine by (rewrite length_range; lia).
  rewrite <- K. cbn [length]. do 2 f_equal. lia.
Qed.

Lemma steps_done_feature reference l acc :
  steps_done (step_feature reference) l acc = length l.
Proof.
  destruct (fold_feature_total reference l acc) as [final F].
  exact (steps_done_Ok _ _ _ _ F).
Qed.

Lemma lucky_interleaved vf method (cb : callback CB) (s : CB) :
  LuckyImaging.align_and_stack_lucky vf 10 method (Some cb) s
  = ending (progress_run cb (firstn (lucky_reached vf) (lucky_reports vf)) s)
           (snd (LuckyImaging.align_and_stack_lucky vf 10 method None s)).
Proof.
  rewrite !align_and_stack_lucky_loop.
  unfold bind at 1. unfold bind at 2.
  rewrite !select_best_frames_loop.
  unfold bind at 1. unfold bind at 3.
  rewrite for_each_silent, for_each_interleaved.
  unfold lucky_reached, lucky_reports. cbv zeta.
  set (n := header_frame_count vf).
  set (reports1 := map (fun i => (next i, n)) (range 0 n)).
  set (reports2 := map (fun i => (i, selected_count n)) (range 1 (selected_count n))).
  pose proof (steps_done_le (step_score vf) (range 0 n) []) as D1.
  destruct (fold_steps (step_score vf) (range 0 n) []) as [fs|e] eqn:F1.
  - rewrite (steps_done_Ok _ _ _ _ F1) in *.
    assert (FA : firstn (length (range 0 n)) reports1 = reports1) by apply firstn_map_all.
    rewrite FA.
    assert (L1 : length reports1 = length (range 0 n)) by apply length_map.
    rewrite <- L1.
    assert (Stop : firstn (length reports1) (reports1 ++ reports2) = reports1).
    { rewrite firstn_within by lia. apply firstn_all. }
    rewrite bind_lift.
    destruct (py_index (select_sorted 10 n fs) (-1)) as [last|e] eqn:P; cbn [rbind].
    2:{ rewrite Stop. destruct (progress_run cb reports1 s) as [s1 [e'|]]; cbn [ending];
          [reflexivity|]. rewrite bind_lift, P. reflexivity. }
    unfold lift at 3.
    destruct (fold_steps (step_load vf) (select_sorted 10 n fs) []) as [loaded|e] eqn:F2.
    2:{ rewrite Stop. destruct (progress_run cb reports1 s) as [s1 [e'|]]; cbn [ending];
          [reflexivity|]. rewrite bind_lift, P. unfold lift. rewrite F2. reflexivity. }
    pose proof (selected_count_length _ _ _ F1 F2) as K. fold n in K.
    destruct loaded as [|[[ri rs] rf] others].
    { rewrite Stop. destruct (progress_run cb reports1 s) as [s1 [e'|]]; cbn [ending];
        [reflexivity|]. rewrite bind_lift, P. unfold lift. rewrite F2. reflexivity. }
    pose proof (feature_reports vf _ (ri, rs, rf) others K eq_refl) as R. fold n reports2 in R.
    assert (L2 : length reports2 = length others).
    { rewrite <- R, length_map, length_enumerate. reflexivity. }
    rewrite firstn_app_2, <- L2, firstn_all, progress_run_app.
    destruct (progress_run cb reports1 s) as [s1 [e'|]]; cbn [ending]; [reflexivity|].
    rewrite bind_lift, P. unfold lift at 1. rewrite F2.
    unfold bind, lift. cbv beta iota. rewrite for_each_silent, for_each_interleaved.
    rewrite steps_done_feature, firstn_map_all, R.
    destruct (fold_feature_total rf (enumerate others 1) [rf]) as [aligned F3].
    rewrite F3. destruct (progress_run cb reports2 s1) as [s2 [e'|]]; reflexivity.
  - assert (L1 : length reports1 = length (range 0 n)) by apply length_map.
    rewrite firstn_within by lia. fold reports1.
    destruct (progress_run cb _ s) as [s1 [e'|]]; reflexivity.
Qed.


Lemma lucky_reached_bounds vf :
  (lucky_reached vf <= length (lucky_reports vf))%nat /\
  (forall method (s : CB) img,
     snd (LuckyImaging.align_and_stack_lucky vf 10 method None s) = Ok img ->
     lucky_reached vf = length (lucky_reports vf)).
Proof.
  unfold lucky_reached, lucky_reports. cbv zeta.
  set (n := header_frame_count vf).
  rewrite length_app, !length_map.
  pose proof (steps_done_le (step_score vf) (range 0 n) []) as D1.
  assert (Silent : forall method (s : CB),
            LuckyImaging.align_and_stack_lucky vf 10 method None s
            = (s, (best <- (fs <- fold_steps (step_score vf) (range 0 n) [] ;;
                            _ <- py_index (select_sorted 10 n fs) (-1) ;;
                            fold_steps (step_load vf) (select_sorted 10 n fs) []) ;;
                   match best with
                   | [] => Raise (PyException "No frames selected")
                   | (_, _, rf) :: others =>
                     aligned <- fold_steps (step_feature rf) (enumerate others 1) [rf] ;;
                     LuckyImaging.combine_lucky method aligned
                   end)%result)).
  { intros method s. rewrite align_and_stack_lucky_loop. unfold bind at 1.
    rewrite select_best_frames_loop. unfold bind at 1. rewrite for_each_silent. fold n.
    destruct (fold_steps (step_score vf) (range 0 n) []) as [fs|e]; [|reflexivity].
    cbv zeta. cbn [rbind]. rewrite bind_lift.
    destruct (py_index (select_sorted 10 n fs) (-1)) as [last|e]; [|reflexivity].
    unfold lift at 1. cbn [rbind].
    destruct (fold_steps (step_load vf) (select_sorted 10 n fs) [])
      as [[|[[ri rs] rf] others]|e]; try reflexivity.
    unfold bind. rewrite for_each_silent.
    cbn [rbind]. destruct (fold_steps (step_feature rf) (enumerate others 1) [rf]);
      reflexivity. }
  destruct (fold_steps (step_score vf) (range 0 n) []) as [fs|e] eqn:F1.
  - rewrite (steps_done_Ok _ _ _ _ F1) in *.
    destruct (py_index (select_sorted 10 n fs) (-1)) as [last|e] eqn:P; cbn [rbind].
    2:{ split; [lia|]. intros method s img. rewrite Silent. rewrite ?F1. cbn [rbind]. rewrite ?P. cbn [rbind]. rewrite ?F2. cbn [snd rbind]. discriminate. }
    destruct (fold_steps (step_load vf) (select_sorted 10 n fs) []) as [loaded|e] eqn:F2.
    2:{ split; [lia|]. intros method s img. rewrite Silent. rewrite ?F1. cbn [rbind]. rewrite ?P. cbn [rbind]. rewrite ?F2. cbn [snd rbind]. discriminate. }
    pose proof (selected_count_length _ _ _ F1 F2) as K. fold n in K.
    destruct loaded as [|[[ri rs] rf] others].
    { split; [lia|]. intros method s img. rewrite Silent. rewrite ?F1. cbn [rbind]. rewrite ?P. cbn [rbind]. rewrite ?F2. cbn [snd rbind]. discriminate. }
    rewrite !length_range. cbn [length] in K. split; [lia|]. intros _ _ _ _. lia.
  - split; [lia|]. intros method s img. rewrite Silent. rewrite ?F1. cbn [rbind]. rewrite ?P. cbn [rbind]. rewrite ?F2. cbn [snd rbind]. discriminate.
Qed.

Lemma native_reached_bounds vf method auto_stretch align_frames thr (s : CB) :
  is_video vf = false ->
  (reports_reached vf method align_frames thr <= length (stack_reports vf align_frames))%nat /\
  (forall img,
     snd (stack_frames vf method None auto_stretch align_frames thr s) = Ok img ->
     reports_reached vf method align_frames thr = length (stack_reports vf align_frames)).
Proof.
  intros V. unfold stack_frames, stack_reports, reports_reached. rewrite V.
  rewrite bind_lift.
  destruct (parser_get_frame vf 0) as [first|e];
    [|split; [apply Nat.le_0_l | discriminate]].
  destruct align_frames.
  - unfold bind. rewrite align_all_silent. cbn [length]. rewrite length_map.
    destruct (FrameAligner.calculate_quality_score first) as [q0|e];
      [|split; [apply Nat.le_0_l | discriminate]].
    cbn [rbind].
    pose proof (steps_done_le (step_align vf first thr) (range 1 (header_frame_count vf))
                              ([first], [q0])) as D.
    split; [lia|].
    destruct (fold_steps (step_align vf first thr) (range 1 (header_frame_count vf))
                         ([first], [q0])) as [[af qs]|e] eqn:F; [|discriminate].
    intros _ _. rewrite (steps_done_Ok _ _ _ _ F). reflexivity.
  - rewrite length_map. destruct (String.eqb method "median").
    + unfold bind at 1. rewrite read_all_loop, for_each_silent.
      pose proof (steps_done_le (step_read vf) (range 0 (header_frame_count vf)) []) as D.
      split; [exact D|].
      destruct (fold_steps (step_read vf) (range 0 (header_frame_count vf)) [])
        as [frames|e] eqn:F; [|discriminate].
      intros _ _. exact (steps_done_Ok _ _ _ _ F).
    + pose proof (steps_done_le (step_sum vf) (range 0 (header_frame_count vf))
                                (zeros_like first)) as D.
      split; [exact D|].
      destruct (String.eqb method "sum"); unfold bind; rewrite sum_all_loop, for_each_silent;
        (destruct (fold_steps (step_sum vf) (range 0 (header_frame_count vf))
                              (zeros_like first)) as [acc|e] eqn:F; [|discriminate]);
        intros _ _; exact (steps_done_Ok _ _ _ _ F).
Qed.

(** On a native source a report reached is the report of a frame read. *)
Lemma native_reached_frames vf method align_frames thr i :
  is_video vf = false ->
  0 <= i < Z.of_nat (reports_reached vf method align_frames thr) ->
  exists f, parser_get_frame vf i = Ok f.
Proof.
  intros V. unfold reports_reached. rewrite V.
  destruct (parser_get_frame vf 0) as [first|e] eqn:G0; [|cbn; lia].
  assert (Read : forall (St : Type) (step : Z -> St -> result St) lo acc,
            (forall j a a', step j a = Ok a' -> exists f, parser_get_frame vf j = Ok f) ->
            lo <= i < lo + Z.of_nat (steps_done step (range lo (header_frame_count vf)) acc) ->
            exists f, parser_get_frame vf i = Ok f).
  { intros St step lo acc Hs Hi.
    pose proof (steps_done_le step (range lo (header_frame_count vf)) acc) as D.
    destruct (steps_done_nth step (range lo (header_frame_count vf)) acc
                             (Z.to_nat (i - lo)) i) as (a & a' & E).
    - lia.
    - rewrite nth_error_range by lia. f_equal. lia.
    - exact (Hs _ _ _ E). }
  destruct align_frames.
  - destruct (FrameAligner.calculate_quality_score first) as [q0|e]; [|cbn; lia].
    intros Hi. destruct (Z.eq_dec i 0) as [->|Ni]; [exists first; exact G0|].
    apply (Read _ (step_align vf first thr) 1 ([first], [q0])); [|lia].
    intros j a a'. unfold step_align.
    destruct (parser_get_frame vf j) as [f|e]; [exists f; reflexivity | discriminate].
  - destruct (String.eqb method "median"); intros Hi.
    + apply (Read _ (step_read vf) 0 []); [|lia].
      intros j a a'. unfold step_read.
      destruct (parser_get_frame vf j) as [f|e]; [exists f; reflexivity | discriminate].
    + apply (Read _ (step_sum vf) 0 (zeros_like first)); [|lia].
      intros j a a'. unfold step_sum.
      destruct (parser_get_frame vf j) as [f|e]; [exists f; reflexivity | discriminate].
Qed.

Lemma progress_run_raise (cb : callback CB) l k c t (s s1 s2 : CB) e :
  nth_error l k = Some (c, t) ->
  progress_run cb (firstn k l) s = (s1, None) ->
  cb c t s1 = (s2, Raise e) ->
  progress_run cb l s = (s2, Some e).
Proof.
  revert k s. induction l as [|[c' t'] l IH]; intros k s; [destruct k; discriminate|].
  destruct k as [|k]; cbn [nth_error firstn progress_run].
  - intros [= -> ->] [= ->] R. rewrite R. reflexivity.
  - intros N. destruct (cb c' t' s) as [s' [[]|e']]; [apply IH; exact N | discriminate].
Qed.

(** C2, as the code has it: the callback is told of each frame as soon as
    that frame is processed, in order, for as long as frames process and
    the callback returns; what the callback returns is dropped, and
    [stack_frames] has no cancellation of its own.  A callback stops the
    run only by raising: the run then ends at that call, without a
    composite, with the exception the callback raised, whatever the frames
    not yet read would have done.  So a run with a callback is the callback
    run over the reports reached, then what the run without callback comes
    to.  All reports are reached when the run without callback completes;
    on a native source of n frames they are (1,n), ..., (n,n), and a report
    is reached only after its frame was read. *)
Theorem stack_frames_reports_in_step vf method auto_stretch align_frames thr
        (cb : callback CB) (s : CB) :
  let reports := stack_reports vf align_frames in
  let reached := reports_reached vf method align_frames thr in
  let silent := snd (stack_frames vf method None auto_stretch align_frames thr s) in
  stack_frames vf method (Some cb) auto_stretch align_frames thr s
  = ending (progress_run cb (firstn reached reports) s) silent /\
  (forall k current total s1 s2 e,
     nth_error (firstn reached reports) k = Some (current, total) ->
     progress_run cb (firstn k reports) s = (s1, None) ->
     cb current total s1 = (s2, Raise e) ->
     stack_frames vf method (Some cb) auto_stretch align_frames thr s = (s2, Raise e)) /\
  (reached <= length reports)%nat /\
  (forall img, silent = Ok img -> reached = length reports) /\
  (is_video vf = false ->
   (1 <= header_frame_count vf ->
    reports = map (fun k => (k, header_frame_count vf))
                  (range 1 (header_frame_count vf + 1))) /\
   (forall i, 0 <= i < Z.of_nat reached -> exists f, parser_get_frame vf i = Ok f)).
Proof.
  cbv zeta.
  assert (Eq : stack_frames vf method (Some cb) auto_stretch align_frames thr s
               = ending (progress_run cb (firstn (reports_reached vf method align_frames thr)
                                                 (stack_reports vf align_frames)) s)
                        (snd (stack_frames vf method None auto_stretch align_frames thr s))).
  { destruct (is_video vf) eqn:V; [|apply native_interleaved; exact V].
    unfold stack_frames, stack_reports, reports_reached. rewrite V.
    apply lucky_interleaved. }
  split; [exact Eq|]. split.
  { intros k current total s1 s2 e N P R. rewrite Eq.
    assert (Hk : (k < reports_reached vf method align_frames thr)%nat).
    { assert (Hl : (k < length (firstn (reports_reached vf method align_frames thr)
                                       (stack_reports vf align_frames)))%nat)
        by (apply nth_error_Some; rewrite N; discriminate).
      rewrite length_firstn in Hl. lia. }
    rewrite (progress_run_raise cb _ k current total s s1 s2 e N); [reflexivity | | exact R].
    rewrite firstn_firstn. replace (Nat.min k _) with k by lia. exact P. }
  destruct (is_video vf) eqn:V.
  - unfold stack_frames, stack_reports, reports_reached. rewrite V.
    destruct (lucky_reached_bounds vf) as (B1 & B2).
    split; [exact B1|]. split; [exact (B2 method s) | discriminate].
  - destruct (native_reached_bounds vf method auto_stretch align_frames thr s V) as (B1 & B2).
    split; [exact B1|]. split; [exact B2|].
    intros _. split; [apply native_reports_list; exact V|].
    intros i. apply native_reached_frames. exact V.
Qed.

End ReportFacts.

Section ReportExamples.
Import FrameStacker.

Lemma stack_frames_reports_in_step_witness :
  let cancelled := Raise (PyException "Stacking cancelled by user") in
  exists cut long,
    open_ser five_frames_cut = Ok cut /\
    open_ser twenty_frames = Ok long /\
    stack_frames (cv := Examples.cv_still) cut "median" None true false 0 ([] : list Z)
    = ([], Raise SERIOError) /\
    stack_frames (cv := Examples.cv_still) cut "median" (Some (update_progress 3)) true false 0 []
    = ([1; 2; 3], cancelled) /\
    stack_frames (cv := Examples.cv_still) cut "median" (Some (update_progress 9)) true false 0 []
    = ([1; 2; 3; 4], Raise SERIOError) /\
    stack_frames (cv := Examples.cv_still) cut "sum" (Some (update_progress 3)) true false 0 []
    = ([1; 2; 3], cancelled) /\
    stack_frames (cv := Examples.cv_still) cut "average" (Some (update_progress 9)) true false 0 []
    = ([1; 2; 3; 4], Raise SERIOError) /\
    stack_frames (cv := Examples.cv_still) cut "average" (Some (update_progress 3)) true true 0 []
    = ([1; 2; 3], cancelled) /\
    stack_frames (cv := Examples.cv_still) cut "average" (Some (update_progress 9)) true true 0 []
    = ([1; 2; 3; 4], Raise SERIOError) /\
    stack_frames (cv := Examples.cv_still) (as_video cut) "average" (Some (update_progress 3))
                 true true 0 []
    = ([1; 2; 3], cancelled) /\
    stack_frames (cv := Examples.cv_still) (as_video cut) "average" (Some (update_progress 9))
                 true true 0 []
    = ([1; 2; 3; 4], Raise SERIOError) /\
    stack_frames (cv := Examples.cv_still) (as_video long) "average" (Some (update_progress 21))
                 true true 0 []
    = (map Z.of_nat (seq 1 20) ++ [1], cancelled) /\
    stack_frames (cv := Examples.cv_still) (as_video long) "average" (Some (update_progress 30))
                 true true 0 []
    = (map Z.of_nat (seq 1 20) ++ [1],
       Ok {| dtype_of := uint8; px := Examples.uniform 2 2 1 |}).
Proof.
  cbv zeta.
  destruct (open_ser five_frames_cut) as [cut|e] eqn:E;
    [|vm_compute in E; discriminate].
  destruct (open_ser twenty_frames) as [long|e] eqn:L;
    [|vm_compute in L; discriminate].
  exists cut, long. split; [reflexivity|]. split; [reflexivity|].
  split; [vm_compute in E; injection E as <-; vm_compute; reflexivity|].
  repeat split;
    match goal with
    | |- stack_frames ?vf ?m (Some ?cb) ?a ?al ?thr ?s = _ =>
      rewrite (proj1 (stack_frames_reports_in_step (cv := Examples.cv_still)
                        vf m a al thr cb s))
    end;
    vm_compute in E; injection E as <-; vm_compute in L; injection L as <-;
    vm_compute; reflexivity.
Defined.

(** C2 as stated fails.  A callable that answers every report with the
    request to stop is called five times for the five frames and the
    composite is returned all the same: what it returns is dropped.  And a
    callback that stops the run by raising decides what the run reports:
    raising the I/O error at the fifth report leaves the very outcome of a
    run, without callback, over the file whose fifth frame is cut short.
    Neither run enters OpenCV. *)
Lemma returned_cancel_is_discarded :
  (forall cv : OpenCV,
     (vf <- open_ser Examples.five_frames ;;
      Ok (stack_frames vf "average" (Some (as_callback return_cancel)) true false 0 []))%result
     = Ok ([1; 2; 3; 4; 5], Ok {| dtype_of := uint8; px := Examples.uniform 4 4 30 |})) /\
  (forall cv : OpenCV,
     (vf <- open_ser Examples.five_frames ;;
      cut <- open_ser five_frames_cut ;;
      Ok (stack_frames vf "average" (Some raise_at_five) true false 0 tt,
          stack_frames cut "average" None true false 0 tt))%result
     = Ok ((tt, Raise SERIOError), (tt, Raise SERIOError))).
Proof. split; intros cv; vm_compute; reflexivity. Qed.

(** C3 as stated fails: without alignment, a container of one frame and a
    container of three such frames return the same image, and nothing else,
    while one frame is incorporated in one run and three in the other.  The
    count is not in the result.  Neither run enters OpenCV. *)
Lemma same_composite_other_count :
  (forall cv : OpenCV,
     (vf <- open_ser Examples.one_alike ;;
      Ok (stack_frames vf "average" None true false 0 tt, header_frame_count vf))%result
     = Ok ((tt, Ok {| dtype_of := uint8; px := Examples.uniform 2 2 30 |}), 1)) /\
  (forall cv : OpenCV,
     (vf <- open_ser Examples.three_alike ;;
      Ok (stack_frames vf "average" None true false 0 tt, header_frame_count vf))%result
     = Ok ((tt, Ok {| dtype_of := uint8; px := Examples.uniform 2 2 30 |}), 3)).
Proof. split; intros cv; vm_compute; reflexivity. Qed.

Lemma stack_returns_composite_alone_witness :
  exists vf,
    open_ser Examples.three_alike = Ok vf /\
    (exists (used : list frame) img,
       stack_frames (cv := Examples.cv_still) vf "average" None true false 0 tt = (tt, Ok img) /\
       Forall2 (fun i f => parser_get_frame vf i = Ok f) [0; 1; 2] used /\
       (first <- parser_get_frame vf 0 ;; combine_aligned "average" true first used)%result
       = Ok img) /\
    (exists (used : list frame) img,
       stack_frames (cv := Examples.cv_still) vf "average" None true true 1 tt = (tt, Ok img) /\
       used_frames (cv := Examples.cv_still) vf None 1 tt = (tt, Ok (Z.of_nat (length used))) /\
       1 <= Z.of_nat (length used) <= 3) /\
    (exists (used : list frame) img,
       stack_frames (cv := Examples.cv_still) (as_video vf) "average" None true true 0 tt
       = (tt, Ok img) /\
       LuckyImaging.combine_lucky "average" used = Ok img /\
       1 <= Z.of_nat (length used) <= 3).
Proof.
  cbv zeta.
  destruct (open_ser Examples.three_alike) as [vf|e] eqn:E;
    [|vm_compute in E; discriminate].
  assert (V : is_video vf = false)
    by (vm_compute in E; injection E as <-; reflexivity).
  assert (N : header_frame_count vf = 3)
    by (vm_compute in E; injection E as <-; reflexivity).
  assert (Hn : 1 <= header_frame_count vf) by (rewrite N; lia).
  exists vf. split; [reflexivity|]. split; [|split].
  - destruct (stack_frames (cv := Examples.cv_still) vf "average" None true false 0 tt)
      as [[] [img|e]] eqn:H;
      [|exfalso; vm_compute in E; injection E as <-; vm_compute in H; discriminate].
    destruct (stack_returns_composite_alone (cv := Examples.cv_still)
                vf "average" None true false 0 tt tt img Hn H)
      as (used & B & C & D).
    rewrite V in C, D. rewrite N in D.
    exists used, img. split; [reflexivity|]. split; [exact D | exact C].
  - destruct (stack_frames (cv := Examples.cv_still) vf "average" None true true 1 tt)
      as [[] [img|e]] eqn:H;
      [|exfalso; vm_compute in E; injection E as <-; vm_compute in H; discriminate].
    destruct (stack_returns_composite_alone (cv := Examples.cv_still)
                vf "average" None true true 1 tt tt img Hn H)
      as (used & B & C & D).
    rewrite V in D. rewrite N in B. destruct D as (first & qs & _ & _ & U).
    exists used, img. split; [reflexivity|]. split; [exact U | exact B].
  - destruct (stack_frames (cv := Examples.cv_still) (as_video vf) "average" None true true 0 tt)
      as [[] [img|e]] eqn:H;
      [|exfalso; vm_compute in E; injection E as <-; vm_compute in H; discriminate].
    destruct (stack_returns_composite_alone (cv := Examples.cv_still)
                (as_video vf) "average" None true true 0 tt tt img Hn H)
      as (used & B & C & _).
    change (header_frame_count (as_video vf)) with (header_frame_count vf) in B.
    rewrite N in B.
    exists used, img. split; [reflexivity|]. split; [exact C | exact B].
Defined.

End ReportExamples.

(** ** The frame cache *)

Section CacheFacts.
Import FrameCache.
Context {V : Type}.

Lemma contains_In (d : list (Z * V)) k : contains V d k = true <-> In k (map fst d).
Proof.
  unfold contains. rewrite existsb_exists, in_map_iff. unfold has_key.
  split; intros (kv & A & B); exists kv.
  - split; [apply Z.eqb_eq; exact B | exact A].
  - split; [exact B | apply Z.eqb_eq; exact A].
Qed.

Lemma contains_false (d : list (Z * V)) k : contains V d k = false <-> ~ In k (map fst d).
Proof.
  rewrite <- contains_In. destruct (contains V d k); split; intros H; try discriminate;
    try reflexivity; try (intros E; discriminate). exfalso. apply H. reflexivity.
Qed.

Lemma without_absent (d : list (Z * V)) k : ~ In k (map fst d) -> without V d k = d.
Proof.
  unfold without. induction d as [|[k0 v0] d IH]; cbn [filter map fst]; intros H; [reflexivity|].
  unfold has_key at 1. cbn [fst]. destruct (k0 =? k) eqn:E.
  - exfalso. apply H. left. apply Z.eqb_eq. exact E.
  - cbn [negb]. f_equal. apply IH. intros I. apply H. right. exact I.
Qed.

Lemma keys_without (d : list (Z * V)) k :
  map fst (without V d k) = filter (fun x => negb (x =? k)) (map fst d).
Proof.
  unfold without. induction d as [|[k0 v0] d IH]; cbn [filter map fst]; [reflexivity|].
  unfold has_key at 1. cbn [fst]. destruct (k0 =? k); cbn [negb map fst]; rewrite IH; reflexivity.
Qed.

Lemma In_without (d : list (Z * V)) k x :
  In x (map fst (without V d k)) <-> In x (map fst d) /\ x <> k.
Proof.
  rewrite keys_without, filter_In, negb_true_iff, Z.eqb_neq. reflexivity.
Qed.

Lemma NoDup_filter {A} (f : A -> bool) l : NoDup l -> NoDup (filter f l).
Proof.
  induction 1 as [|x l Hx Hl IH]; cbn; [constructor|].
  destruct (f x); [constructor; [|exact IH] | exact IH].
  intros I. apply filter_In in I. apply Hx, I.
Qed.

Lemma length_without_present (d : list (Z * V)) k :
  NoDup (map fst d) -> In k (map fst d) ->
  S (length (without V d k)) = length d.
Proof.
  induction d as [|[k0 v0] d IH]; cbn [map fst]; intros N I; [contradiction|].
  inversion N as [|? ? Hk Hd]; subst.
  unfold without. cbn [filter]. fold (without V d k).
  unfold has_key at 1. cbn [fst]. destruct (k0 =? k) eqn:E.
  - apply Z.eqb_eq in E. subst k0. cbn [negb length].
    rewrite without_absent by exact Hk. reflexivity.
  - cbn [negb length]. f_equal. apply IH; [exact Hd|]. destruct I as [I|I]; [|exact I].
    apply Z.eqb_neq in E. contradiction.
Qed.

Lemma find_present (d : list (Z * V)) k :
  In k (map fst d) -> exists v, find (has_key V k) d = Some (k, v).
Proof.
  induction d as [|[k0 v0] d IH]; cbn; intros I; [contradiction|].
  unfold has_key at 1. cbn [fst]. destruct (k0 =? k) eqn:E.
  - apply Z.eqb_eq in E. subst. eexists. reflexivity.
  - apply IH. destruct I as [I|I]; [|exact I]. apply Z.eqb_neq in E. contradiction.
Qed.

Lemma find_app_last (d : list (Z * V)) k v :
  ~ In k (map fst d) -> find (has_key V k) (d ++ [(k, v)]) = Some (k, v).
Proof.
  induction d as [|[k0 v0] d IH]; cbn; intros H.
  - unfold has_key. cbn. rewrite Z.eqb_refl. reflexivity.
  - unfold has_key at 1. cbn [fst]. destruct (k0 =? k) eqn:E.
    + exfalso. apply H. left. apply Z.eqb_eq. exact E.
    + apply IH. intros I. apply H. right. exact I.
Qed.

Lemma move_to_end_present (d : list (Z * V)) k :
  In k (map fst d) ->
  exists v, lookup V d k = Some v /\ move_to_end V d k = without V d k ++ [(k, v)].
Proof.
  intros I. destruct (find_present d k I) as [v F].
  exists v. unfold lookup, move_to_end. rewrite F. split; reflexivity.
Qed.

Lemma set_item_absent (d : list (Z * V)) k v :
  ~ In k (map fst d) -> set_item V d k v = d ++ [(k, v)].
Proof.
  intros H. unfold set_item. apply contains_false in H. rewrite H. reflexivity.
Qed.

Lemma set_item_last (d : list (Z * V)) k v0 v :
  ~ In k (map fst d) -> set_item V (d ++ [(k, v0)]) k v = d ++ [(k, v)].
Proof.
  intros H. unfold set_item.
  assert (C : contains V (d ++ [(k, v0)]) k = true).
  { apply contains_In. rewrite map_app. apply in_or_app. right. left. reflexivity. }
  rewrite C, map_app. cbn [map]. unfold has_key at 2. cbn [fst]. rewrite Z.eqb_refl.
  f_equal. rewrite <- (map_id d) at 2. apply map_ext_in. intros [k0 v1] I.
  unfold has_key. cbn [fst]. destruct (k0 =? k) eqn:E; [|reflexivity].
  exfalso. apply H. apply Z.eqb_eq in E. subst. apply (in_map fst) in I. exact I.
Qed.

(** What [put] leaves in the dictionary. *)
Lemma put_present (c : t V) k v :
  NoDup (keys V c) -> mem V c k = true ->
  _cache V (put V c k v) = without V (_cache V c) k ++ [(k, v)].
Proof.
  intros N M. unfold put. unfold mem in M. rewrite M. cbn [_cache with_cache].
  apply contains_In in M. destruct (move_to_end_present _ _ M) as (v0 & _ & ->).
  apply set_item_last. intros I. apply In_without in I. destruct I as [_ I]. apply I. reflexivity.
Qed.

Lemma put_absent (c : t V) k v :
  mem V c k = false ->
  _cache V (put V c k v)
  = if len V c + 1 >? max_size V c
    then tl (_cache V c ++ [(k, v)])
    else _cache V c ++ [(k, v)].
Proof.
  intros M. unfold put. unfold mem in M. rewrite M.
  apply contains_false in M. rewrite set_item_absent by exact M.
  unfold len. rewrite length_app, Nat2Z.inj_add. cbn [length].
  change (Z.of_nat 1) with 1.
  destruct (Z.of_nat (length (_cache V c)) + 1 >? max_size V c); reflexivity.
Qed.

Lemma max_size_put (c : t V) k v : max_size V (put V c k v) = max_size V c.
Proof.
  unfold put. destruct (contains V (_cache V c) k); [reflexivity|].
  destruct (_ >? _); reflexivity.
Qed.

Lemma NoDup_app_last (l : list Z) k : NoDup l -> ~ In k l -> NoDup (l ++ [k]).
Proof.
  intros N H. induction N as [|x l Hx Hl IH]; cbn; [constructor; [intros []|constructor]|].
  constructor.
  - intros I. apply in_app_or in I. destruct I as [I|[I|[]]]; [contradiction|].
    subst. apply H. left. reflexivity.
  - apply IH. intros I. apply H. right. exact I.
Qed.

Lemma cache_ok_put (c : t V) k v : cache_ok c -> cache_ok (put V c k v).
Proof.
  intros [N L]. unfold cache_ok, keys, len in *. rewrite max_size_put.
  destruct (mem V c k) eqn:M.
  - rewrite (put_present c k v N M). pose proof M as I. apply contains_In in I.
    rewrite map_app, length_app. cbn [map fst length]. split.
    + apply NoDup_app_last.
      * rewrite keys_without. apply NoDup_filter. exact N.
      * intros J. apply In_without in J. destruct J as [_ J]. apply J. reflexivity.
    + pose proof (length_without_present _ _ N I). lia.
  - rewrite (put_absent c k v M). unfold len. pose proof M as I. apply contains_false in I.
    assert (N' : NoDup (map fst (_cache V c ++ [(k, v)])))
      by (rewrite map_app; apply NoDup_app_last; assumption).
    destruct (Z.of_nat (length (_cache V c)) + 1 >? max_size V c) eqn:G.
    + destruct (_cache V c) as [|kv d]; cbn in *.
      * split; [constructor | lia].
      * inversion N' as [|? ? _ Hd]; subst. split; [exact Hd|].
        rewrite length_app in *. cbn [length] in *. lia.
    + split; [exact N'|]. rewrite length_app. cbn [length]. lia.
Qed.

Lemma cache_ok_get (c : t V) k : cache_ok c -> cache_ok (fst (get V c k)).
Proof.
  intros [N L]. unfold get. destruct (contains V (_cache V c) k) eqn:M; [|split; assumption].
  cbn [fst]. pose proof M as I. apply contains_In in I.
  destruct (move_to_end_present _ _ I) as (v & _ & E). rewrite E.
  unfold cache_ok, keys, len in *. cbn [_cache with_cache max_size].
  rewrite map_app, length_app. cbn [map fst length]. split.
  - apply NoDup_app_last.
    + rewrite keys_without. apply NoDup_filter. exact N.
    + intros J. apply In_without in J. destruct J as [_ J]. apply J. reflexivity.
  - pose proof (length_without_present _ _ N I). lia.
Qed.

Lemma cache_ok_prefetch (c : t V) l f : cache_ok c -> cache_ok (prefetch V c l f).
Proof.
  revert c. induction l as [|i l IH]; intros c H; cbn [prefetch]; [exact H|].
  destruct (contains V (_cache V c) i); [apply IH; exact H|].
  destruct (f i); apply IH; [apply cache_ok_put|]; exact H.
Qed.

(** X1: the cache keeps its shape: from a cache with distinct keys and at
    most [max_size] of them, [put], [get], [prefetch] and [clear] lead to
    such a cache again; a fresh cache is one. *)
Theorem cache_stays_bounded (c : t V) k v l f :
  cache_ok c ->
  cache_ok (put V c k v) /\ cache_ok (fst (get V c k)) /\
  cache_ok (prefetch V c l f) /\ cache_ok (clear V c) /\
  cache_ok (init V (max_size V c)).
Proof.
  intros H. split; [apply cache_ok_put, H|]. split; [apply cache_ok_get, H|].
  split; [apply cache_ok_prefetch, H|].
  destruct H as [N L]. unfold len in L.
  assert (0 <= max_size V c) by lia.
  split; split; try constructor; unfold len; cbn; assumption.
Qed.

Lemma put_shape (c : t V) k v :
  cache_ok c -> 1 <= max_size V c ->
  exists d, _cache V (put V c k v) = d ++ [(k, v)] /\ ~ In k (map fst d).
Proof.
  intros [N L] Hm. destruct (mem V c k) eqn:M.
  - rewrite (put_present c k v N M). eexists. split; [reflexivity|].
    intros I. apply In_without in I. destruct I as [_ I]. apply I. reflexivity.
  - rewrite (put_absent c k v M). pose proof M as I. apply contains_false in I.
    unfold len, keys in *.
    destruct (Z.of_nat (length (_cache V c)) + 1 >? max_size V c) eqn:G.
    + apply Z.gtb_lt in G.
      destruct (_cache V c) as [|kv d]; cbn [length] in *; [lia|].
      exists d. split; [reflexivity|]. intros J. apply I. right. exact J.
    + exists (_cache V c). split; [reflexivity | exact I].
Qed.

(** X2: with room for at least one frame, a frame that was put is the one
    [get] returns, and that [get] changes nothing: the frame is already the
    most recently used. *)
Theorem put_then_get (c : t V) k v :
  cache_ok c -> 1 <= max_size V c ->
  get V (put V c k v) k = (put V c k v, Some v).
Proof.
  intros H Hm. destruct (put_shape c k v H Hm) as (d & E & I).
  unfold get. rewrite E.
  assert (C : contains V (d ++ [(k, v)]) k = true).
  { apply contains_In. rewrite map_app. apply in_or_app. right. left. reflexivity. }
  rewrite C. unfold move_to_end, lookup. rewrite (find_app_last d k v I).
  assert (W : without V (d ++ [(k, v)]) k = d).
  { unfold without. rewrite filter_app. fold (without V d k). rewrite without_absent by exact I.
    cbn. unfold has_key. cbn. rewrite Z.eqb_refl. cbn. apply app_nil_r. }
  rewrite W, (find_app_last d k v I). cbn [option_map snd]. f_equal.
  destruct (put V c k v) as [m d0]. cbn in *. subst. reflexivity.
Qed.

(** X3: putting a frame under a new index appends it as the most recent;
    when the cache is full, exactly the least recently used entry goes and
    every other entry stays, in order. *)
Theorem put_evicts_oldest (c : t V) k v :
  mem V c k = false ->
  (len V c < max_size V c -> _cache V (put V c k v) = _cache V c ++ [(k, v)]) /\
  (len V c = max_size V c -> 1 <= max_size V c ->
   _cache V (put V c k v) = tl (_cache V c) ++ [(k, v)]).
Proof.
  intros M. rewrite (put_absent c k v M). split.
  - intros L. destruct (len V c + 1 >? max_size V c) eqn:G; [|reflexivity].
    apply Z.gtb_lt in G. lia.
  - intros L Hm. destruct (len V c + 1 >? max_size V c) eqn:G;
      [|rewrite Z.gtb_ltb in G; apply Z.ltb_ge in G; lia].
    unfold len in L. destruct (_cache V c); cbn [length] in *; [lia | reflexivity].
Qed.

Lemma get_present (c : t V) k :
  mem V c k = true ->
  exists v,
    In (k, v) (_cache V c) /\
    get V c k = (with_cache V c (without V (_cache V c) k ++ [(k, v)]), Some v).
Proof.
  intros M. unfold mem in M. unfold get. rewrite M.
  pose proof M as I. apply contains_In in I.
  destruct (find_present _ _ I) as [v F].
  exists v. split; [apply (find_some _ _ F)|].
  unfold move_to_end. rewrite F. f_equal.
  unfold lookup.
  assert (J : ~ In k (map fst (without V (_cache V c) k)))
    by (intros J; apply In_without in J; destruct J as [_ J]; apply J; reflexivity).
  rewrite (find_app_last _ k v J). reflexivity.
Qed.

(** X4: a [get] of a cached index returns its frame and moves the entry to
    the most recent place, the others keeping their order. *)
Theorem get_promotes (c : t V) k :
  mem V c k = true ->
  exists v,
    In (k, v) (_cache V c) /\
    get V c k = (with_cache V c (without V (_cache V c) k ++ [(k, v)]), Some v).
Proof. exact (get_present c k). Qed.

(** X5: in a full cache of two or more entries, a [get] of an index keeps
    it through the next overflow, where without the [get] the oldest entry
    is the one lost. *)
Theorem get_protects_from_eviction (c : t V) k k' v' :
  cache_ok c -> len V c = max_size V c -> 2 <= len V c ->
  mem V c k = true -> mem V c k' = false ->
  mem V (put V (fst (get V c k)) k' v') k = true /\
  (forall v rest, _cache V c = (k, v) :: rest -> mem V (put V c k' v') k = false).
Proof.
  intros [N L0] L H2 M M'. split.
  - destruct (get_present c k M) as (v & Iv & G). rewrite G. cbn [fst].
    pose proof M as I. apply contains_In in I.
    pose proof (length_without_present _ _ N I) as Lw.
    assert (Mk : mem V (with_cache V c (without V (_cache V c) k ++ [(k, v)])) k' = false).
    { unfold mem. cbn [_cache with_cache]. apply contains_false. rewrite map_app.
      intros J. apply in_app_or in J. apply contains_false in M'.
      destruct J as [J|[J|[]]].
      - apply In_without in J. apply M', J.
      - cbn in J. subst. apply M'. exact I. }
    unfold mem at 1. rewrite (put_absent _ k' v' Mk). unfold len. cbn [_cache with_cache max_size].
    rewrite length_app. cbn [length]. unfold len in *.
    destruct (_ >? _).
    + destruct (without V (_cache V c) k) as [|kv d] eqn:W; cbn [length] in *; [lia|].
      cbn [app tl]. apply contains_In. rewrite !map_app. apply in_or_app. left.
      apply in_or_app. right. left. reflexivity.
    + apply contains_In. rewrite !map_app. apply in_or_app. left.
      apply in_or_app. right. left. reflexivity.
  - intros v rest E. unfold mem at 1. rewrite (put_absent c k' v' M').
    assert (G : (len V c + 1 >? max_size V c) = true) by (apply Z.gtb_lt; lia).
    rewrite G, E. cbn [app tl]. apply contains_false. rewrite map_app.
    unfold keys in N. rewrite E in N. cbn [map fst] in N. inversion N as [|? ? Hk _]; subst.
    intros J. apply in_app_or in J. destruct J as [J|[J|[]]]; [contradiction|].
    cbn in J. subst. unfold mem in M, M'. rewrite M in M'. discriminate.
Qed.

(** X6: [prefetch] leaves the cache as it is, recency order included, when
    every index asked for is cached already or fails to fetch. *)
Theorem prefetch_cached_or_failing (c : t V) l f :
  (forall i, In i l -> mem V c i = true \/ exists e, f i = Raise e) ->
  prefetch V c l f = c.
Proof.
  induction l as [|i l IH]; intros H; cbn [prefetch]; [reflexivity|].
  assert (Hl : forall j, In j l -> mem V c j = true \/ exists e, f j = Raise e)
    by (intros j Hj; apply H; right; exact Hj).
  destruct (contains V (_cache V c) i) eqn:C; [apply IH, Hl|].
  destruct (H i (or_introl eq_refl)) as [M|[e E]].
  - unfold mem in M. rewrite M in C. discriminate.
  - rewrite E. apply IH, Hl.
Qed.

End CacheFacts.

Section CacheExamples.
Import FrameCache.

Lemma cache_stays_bounded_witness :
  cache_ok (put Z (put Z (put Z (init Z 2) 0 10) 1 11) 2 12).
Proof.
  apply (cache_stays_bounded (put Z (put Z (init Z 2) 0 10) 1 11) 2 12 [] (fun _ => Ok 0)).
  split; [vm_compute; repeat constructor; cbn; intuition congruence | vm_compute; discriminate].
Defined.

Lemma put_then_get_witness :
  get Z (put Z (init Z 2) 7 70) 7 = (put Z (init Z 2) 7 70, Some 70).
Proof.
  apply put_then_get; [|cbn; lia].
  split; [constructor | vm_compute; discriminate].
Defined.

Lemma put_evicts_oldest_witness :
  _cache Z (put Z (put Z (put Z (init Z 2) 0 10) 1 11) 2 12) = [(1, 11); (2, 12)].
Proof.
  apply (proj2 (put_evicts_oldest (put Z (put Z (init Z 2) 0 10) 1 11) 2 12 eq_refl));
    vm_compute; try reflexivity; discriminate.
Defined.

Lemma get_promotes_witness :
  exists v, In (0, v) [(0, 10); (1, 11)] /\
    get Z (put Z (put Z (init Z 2) 0 10) 1 11) 0
    = (with_cache Z (init Z 2) [(1, 11); (0, v)], Some v).
Proof.
  destruct (get_promotes (put Z (put Z (init Z 2) 0 10) 1 11) 0 eq_refl) as (v & I & G).
  exists v. split; [exact I | exact G].
Defined.

Lemma get_protects_from_eviction_witness :
  mem Z (put Z (fst (get Z (put Z (put Z (init Z 2) 0 10) 1 11) 0)) 2 12) 0 = true.
Proof.
  refine (proj1 (get_protects_from_eviction (put Z (put Z (init Z 2) 0 10) 1 11) 0 2 12
                   _ _ _ _ _)); try reflexivity.
  split; [vm_compute; repeat constructor; cbn; intuition congruence | vm_compute; discriminate].
Defined.

Lemma prefetch_cached_or_failing_witness :
  prefetch Z (put Z (init Z 2) 0 10) [0; 5] (fun _ => Raise SERIOError)
  = put Z (init Z 2) 0 10.
Proof.
  apply prefetch_cached_or_failing. intros i _. right. eexists. reflexivity.
Defined.

End CacheExamples.

(** ** The container decoder: validation, frames and timestamps *)

Section DecoderFacts.
Import SERParser.

Lemma byte_val_range b : 0 <= byte_val b < 256.
Proof.
  unfold byte_val. pose proof (Byte.to_N_bounded b). lia.
Qed.

Lemma little_endian_at_range bs off n :
  0 <= little_endian_at bs off n < 256 ^ Z.of_nat n.
Proof.
  revert off. induction n as [|n IH]; intros off; cbn [little_endian_at].
  - cbn. lia.
  - rewrite Nat2Z.inj_succ, Z.pow_succ_r by lia.
    pose proof (IH (S off)). pose proof (byte_val_range (nth off bs x00)).
    unfold byte_at. nia.
Qed.

Lemma big_endian_at_range bs off n :
  0 <= big_endian_at bs off n < 256 ^ Z.of_nat n.
Proof.
  revert off. induction n as [|n IH]; intros off; cbn [big_endian_at].
  - cbn. lia.
  - rewrite Nat2Z.inj_succ, Z.pow_succ_r by lia.
    pose proof (IH (S off)). pose proof (byte_val_range (nth off bs x00)).
    assert (0 < 256 ^ Z.of_nat n) by (apply Z.pow_pos_nonneg; lia).
    unfold byte_at. nia.
Qed.

Lemma field_at_range e bs off n : 0 <= field_at e bs off n < 256 ^ Z.of_nat n.
Proof.
  destruct e; [apply little_endian_at_range | apply big_endian_at_range].
Qed.

Lemma Z_in_In x l : Z_in x l = true <-> In x l.
Proof.
  unfold Z_in. rewrite existsb_exists. split.
  - intros (y & I & E). apply Z.eqb_eq in E. subst. exact I.
  - intros I. exists x. split; [exact I | apply Z.eqb_refl].
Qed.

Lemma parse_header_valid p0 p h :
  parse_header p0 = Ok (p, h) ->
  In (color_id h) [0; 1; 2; 3; 4; 8; 9; 16; 17; 100; 101] /\
  (pixel_depth h = 8 \/ pixel_depth h = 16) /\
  1 <= frame_count h < 2 ^ 32 /\
  0 <= image_width h < 2 ^ 32 /\
  0 <= image_height h < 2 ^ 32 /\
  0 <= datetime_utc h < 2 ^ 64 /\
  0 <= _frame_size p /\
  header p = Some h /\ file p = file p0.
Proof.
  intros H. pose proof (parse_header_fields _ _ _ H) as F. cbv zeta in F.
  destruct F as (_ & _ & _ & Fw & Fh & _ & Fn & Ft).
  apply parse_header_Ok in H.
  destruct H as (_ & Hh & Hf & Hs & _ & Hc & Hd & Hn).
  pose proof (field_at_range (endian_char (little_endian_at (file p0) 22 4)) (file p0) 26 4) as Rw.
  pose proof (field_at_range (endian_char (little_endian_at (file p0) 22 4)) (file p0) 30 4) as Rh.
  pose proof (field_at_range (endian_char (little_endian_at (file p0) 22 4)) (file p0) 38 4) as Rn.
  pose proof (field_at_range (endian_char (little_endian_at (file p0) 22 4)) (file p0) 162 8) as Rt.
  rewrite <- Fw in Rw. rewrite <- Fh in Rh. rewrite <- Fn in Rn. rewrite <- Ft in Rt.
  change (256 ^ Z.of_nat 4) with (2 ^ 32) in *. change (256 ^ Z.of_nat 8) with (2 ^ 64) in *.
  apply Z_in_In in Hc, Hd.
  assert (Dd : pixel_depth h = 8 \/ pixel_depth h = 16)
    by (cbn in Hd; destruct Hd as [E|[E|[]]]; [left | right]; symmetry; exact E).
  repeat split; try assumption; try lia.
  rewrite Hs. unfold frame_size_of.
  assert (0 <= pixel_depth h / 8) by (destruct Dd as [-> | ->]; cbn; lia).
  destruct (Z_in (color_id h) [100; 101]); nia.
Qed.

(** X7: a header that parses is a valid one: the colour format is one of
    the eleven known, the depth is 8 or 16, there is at least one frame,
    every integer field fits its width, the frame size is not negative, and
    the parser holds the header it returns over the same file. *)
Theorem parsed_header_is_valid p0 p h :
  parse_header p0 = Ok (p, h) ->
  In (color_id h) [0; 1; 2; 3; 4; 8; 9; 16; 17; 100; 101] /\
  (pixel_depth h = 8 \/ pixel_depth h = 16) /\
  1 <= frame_count h < 2 ^ 32 /\
  0 <= image_width h < 2 ^ 32 /\
  0 <= image_height h < 2 ^ 32 /\
  0 <= datetime_utc h < 2 ^ 64 /\
  0 <= _frame_size p /\
  header p = Some h /\ file p = file p0.
Proof. exact (parse_header_valid p0 p h). Qed.

(** X8: a file shorter than the 178-byte header is refused as too small,
    whatever it holds; and whatever is wrong with a header, the refusal is
    a format error. *)
Theorem parse_header_refusals p0 :
  (file_size p0 < 178 -> parse_header p0 = Raise (SERFormatError FileTooSmall)) /\
  (forall e, parse_header p0 = Raise e -> exists f, e = SERFormatError f).
Proof.
  split.
  - intros H. unfold parse_header.
    assert (L : (Z.of_nat (length (firstn (Z.to_nat HEADER_SIZE) (file p0))) <? HEADER_SIZE) = true).
    { apply Z.ltb_lt. rewrite length_firstn. unfold file_size, HEADER_SIZE in *. lia. }
    rewrite L. reflexivity.
  - intros e. unfold parse_header.
    repeat match goal with
           | |- context [if ?b then _ else _] => destruct b
           end; intros [= <-]; eexists; reflexivity.
Qed.

(** X9: parsing again changes nothing: the parser that [parse_header] leaves
    parses to itself and to the same header. *)
Theorem parse_header_again p0 p h :
  parse_header p0 = Ok (p, h) -> parse_header p = Ok (p, h).
Proof.
  intros H. pose proof (parse_header_Ok _ _ _ H) as (_ & _ & Hf & _).
  rewrite <- H. unfold parse_header, file_size. rewrite Hf.
  destruct (_ <? HEADER_SIZE); [reflexivity|].
  destruct (negb (bytes_eqb _ FILE_ID)); [reflexivity|].
  destruct (negb (Z_in _ VALID_COLOR_IDS)); [reflexivity|].
  destruct (negb (Z_in _ VALID_PIXEL_DEPTHS)); [reflexivity|].
  destruct (_ =? 0); reflexivity.
Qed.

Lemma length_reshape {A} n w (l : list A) : length (reshape n w l) = n.
Proof.
  revert l. induction n as [|n IH]; intros l; cbn [reshape length]; [reflexivity|].
  rewrite IH. reflexivity.
Qed.

Lemma reshape_rows {A} n w (l : list A) :
  (n * w <= length l)%nat -> Forall (fun r => length r = w) (reshape n w l).
Proof.
  revert l. induction n as [|n IH]; intros l H; cbn [reshape]; constructor.
  - rewrite length_firstn. nia.
  - apply IH. rewrite length_skipn. nia.
Qed.

Lemma reshape_Forall {A} (P : A -> Prop) n w (l : list A) :
  Forall P l -> Forall (Forall P) (reshape n w l).
Proof.
  revert l. induction n as [|n IH]; intros l H; cbn [reshape]; constructor;
    rewrite <- (firstn_skipn w l) in H; apply Forall_app in H; destruct H as [H1 H2].
  - exact H1.
  - apply IH. exact H2.
Qed.

Lemma nth_reshape {A} (d : A) n w (l : list A) r c :
  (r < n)%nat -> (c < w)%nat ->
  nth c (nth r (reshape n w l) []) d = nth (r * w + c) l d.
Proof.
  revert l r. induction n as [|n IH]; intros l r Hr Hc; [lia|].
  cbn [reshape]. destruct r as [|r]; cbn [nth].
  - apply nth_firstn_lt. exact Hc.
  - rewrite IH by lia. rewrite nth_skipn. f_equal. lia.
Qed.

Lemma length_frombuffer_u2 e n bs :
  length bs = (2 * n)%nat -> length (frombuffer_u2 e bs) = n.
Proof.
  revert bs. induction n as [|n IH]; intros bs H.
  - destruct bs; [reflexivity | discriminate].
  - destruct bs as [|b0 [|b1 bs]]; cbn [length] in H; try lia.
    cbn [frombuffer_u2 length]. rewrite IH by lia. reflexivity.
Qed.

Lemma frombuffer_u2_range e bs :
  Forall (fun v => 0 <= v <= 65535) (frombuffer_u2 e bs).
Proof.
  assert (G : forall n bs, (length bs <= n)%nat ->
                           Forall (fun v => 0 <= v <= 65535) (frombuffer_u2 e bs)).
  { induction n as [|n IH]; intros l H.
    - destruct l; [constructor | cbn in H; lia].
    - destruct l as [|b0 [|b1 l]]; cbn [frombuffer_u2]; try constructor.
      + pose proof (byte_val_range b0). pose proof (byte_val_range b1).
        destruct e; cbn [unpack_uint le_uint rev app]; lia.
      + apply IH. cbn [length] in H. lia. }
  apply (G (length bs)). lia.
Qed.

Lemma length_read_at p off sz :
  0 <= off -> 0 <= sz -> off + sz <= file_size p ->
  length (read_at p off sz) = Z.to_nat sz.
Proof.
  intros Ho Hs H. unfold read_at, file_size in *. rewrite length_firstn, length_skipn. lia.
Qed.

Lemma length_read_at_short p off sz :
  0 <= off -> 0 < sz -> file_size p < off + sz ->
  Z.of_nat (length (read_at p off sz)) < sz.
Proof.
  intros Ho Hs H. unfold read_at, file_size in *. rewrite length_firstn, length_skipn. lia.
Qed.

(** The shape [get_frame] gives a frame of a header. *)
Lemma Forall_and {A} (P Q : A -> Prop) l :
  Forall P l -> Forall Q l -> Forall (fun x => P x /\ Q x) l.
Proof.
  intros HP HQ. apply Forall_forall. intros x I. split.
  - apply (proj1 (Forall_forall P l) HP x I).
  - apply (proj1 (Forall_forall Q l) HQ x I).
Qed.

(** X10: for an index in range, [get_frame] returns a frame exactly when
    the file holds all the bytes of that frame; the frame has the header's
    height and width (and three values per pixel for packed colour), and
    samples within the range of its depth.  When the file is cut short
    there is no frame; and where the frame is no larger than the file and
    ends below 2^63, so that [seek] and [read] take their arguments, what
    is raised is the I/O error. *)
Theorem get_frame_reads_whole_frames p0 p h i :
  parse_header p0 = Ok (p, h) ->
  0 <= i < frame_count h ->
  (178 + (i + 1) * _frame_size p <= file_size p ->
   exists f, get_frame p i = Ok f /\ frame_shape h f) /\
  (file_size p < 178 + (i + 1) * _frame_size p ->
   (forall f, get_frame p i <> Ok f) /\
   (_frame_size p <= file_size p -> 178 + (i + 1) * _frame_size p < 2 ^ 63 ->
    get_frame p i = Raise SERIOError)).
Proof.
  intros H Hi. pose proof (parse_header_valid _ _ _ H)
    as (_ & Hd & _ & Hw & Hh & _ & Hs0 & Hp & _).
  pose proof (parse_header_Ok _ _ _ H) as (Hlen & _ & Hfile & Hs & _).
  assert (Hsz : 178 <= file_size p) by (unfold file_size in *; rewrite Hfile; exact Hlen).
  assert (B : (i <? 0) || (i >=? frame_count h) = false).
  { apply orb_false_iff. split; [apply Z.ltb_ge; lia|].
    rewrite Z.geb_leb. apply Z.leb_gt. lia. }
  unfold get_frame. rewrite Hp, B. unfold HEADER_SIZE. split.
  - intros L.
    assert (Lr : length (read_at p (178 + i * _frame_size p) (_frame_size p))
                 = Z.to_nat (_frame_size p)) by (apply length_read_at; nia).
    assert (Lt : (Z.of_nat (length (read_at p (178 + i * _frame_size p) (_frame_size p)))
                  <? _frame_size p) = false) by (apply Z.ltb_ge; lia).
    rewrite Lt. clear Lt.
    set (bs := read_at p (178 + i * _frame_size p) (_frame_size p)) in *.
    set (hh := Z.to_nat (image_height h)). set (ww := Z.to_nat (image_width h)).
    set (planes := if Z_in (color_id h) [100; 101] then 3%nat else 1%nat).
    assert (Ld : length (frombuffer (if pixel_depth h =? 8 then uint8 else uint16)
                                    (endian_char (little_endian h)) bs)
                 = (hh * ww * planes)%nat).
    { rewrite Hs in Lr. unfold frame_size_of in Lr. subst planes hh ww.
      destruct Hd as [E|E]; rewrite E in *; cbn [Z.eqb Pos.eqb frombuffer].
      - rewrite length_map, Lr. change (8 / 8) with 1.
        destruct (Z_in (color_id h) [100; 101]); nia.
      - apply length_frombuffer_u2. rewrite Lr. change (16 / 8) with 2.
        destruct (Z_in (color_id h) [100; 101]); nia. }
    assert (Rd : Forall (fun v => 0 <= v <= iinfo_max (if pixel_depth h =? 8 then uint8 else uint16))
                        (frombuffer (if pixel_depth h =? 8 then uint8 else uint16)
                                    (endian_char (little_endian h)) bs)).
    { destruct Hd as [E|E]; rewrite E; cbn [Z.eqb Pos.eqb frombuffer iinfo_max].
      - apply Forall_forall. intros v Iv. apply in_map_iff in Iv. destruct Iv as (b & <- & _).
        pose proof (byte_val_range b). lia.
      - apply frombuffer_u2_range. }
    set (data := frombuffer _ _ bs) in *.
    destruct (Z_in (color_id h) [100; 101]) eqn:C; eexists; (split; [reflexivity|]);
      unfold frame_shape; cbn [dtype_of px]; rewrite C; fold hh ww;
      (split; [reflexivity|]); (split; [reflexivity|]); (split; [apply length_reshape|]).
    + apply Forall_and.
      * apply reshape_rows. rewrite length_reshape. lia.
      * change (Forall (Forall (fun pixel => length pixel = 3%nat /\
                  Forall (fun v => 0 <= v <= iinfo_max (if pixel_depth h =? 8 then uint8 else uint16))
                         pixel))
                  (reshape hh ww (reshape (hh * ww) 3 data))).
        apply reshape_Forall. apply Forall_and.
        -- apply reshape_rows. subst planes. lia.
        -- apply reshape_Forall. exact Rd.
    + apply Forall_and.
      * apply reshape_rows. subst planes. lia.
      * apply reshape_Forall. exact Rd.
  - intros L.
    assert (Lt : (Z.of_nat (length (read_at p (178 + i * _frame_size p) (_frame_size p)))
                  <? _frame_size p) = true).
    { apply Z.ltb_lt. apply length_read_at_short; nia. }
    rewrite Lt. split; [intros f; discriminate | reflexivity].
Qed.

Lemma byte_at_read_at p off sz j :
  0 <= off -> (j < Z.to_nat sz)%nat ->
  byte_at (read_at p off sz) j = byte_at (file p) (Z.to_nat off + j).
Proof.
  intros Ho Hj. unfold byte_at, read_at. rewrite nth_firstn_lt by exact Hj.
  rewrite nth_skipn. reflexivity.
Qed.

Lemma field_at_read_at e p off sz j n :
  0 <= off -> (j + n <= Z.to_nat sz)%nat ->
  field_at e (read_at p off sz) j n = field_at e (file p) (Z.to_nat off + j) n.
Proof.
  intros Ho. revert j. destruct e; cbn [field_at];
    induction n as [|n IH]; intros j Hj; cbn [little_endian_at big_endian_at];
    try reflexivity; rewrite byte_at_read_at by lia; rewrite IH by lia;
    replace (Z.to_nat off + S j)%nat with (S (Z.to_nat off + j)) by lia; reflexivity.
Qed.

Lemma field_at_cons e b bs j n : field_at e (b :: bs) (S j) n = field_at e bs j n.
Proof.
  revert j. destruct e; cbn [field_at]; induction n as [|n IH]; intros j;
    cbn [little_endian_at big_endian_at]; try reflexivity; rewrite IH; reflexivity.
Qed.

Lemma nth_frombuffer_u2 e bs k :
  (2 * k + 2 <= length bs)%nat ->
  nth k (frombuffer_u2 e bs) 0 = field_at e bs (2 * k) 2.
Proof.
  revert bs. induction k as [|k IH]; intros bs H.
  - destruct bs as [|b0 [|b1 bs]]; cbn [length] in H; try lia.
    cbn [frombuffer_u2 nth]. destruct e; cbn [unpack_uint le_uint rev app field_at];
      cbn [little_endian_at big_endian_at Nat.mul]; unfold byte_at; cbn [nth Nat.add];
      change (Z.of_nat 1) with 1; change (Z.of_nat 0) with 0; lia.
  - destruct bs as [|b0 [|b1 bs]]; cbn [length] in H; try lia.
    cbn [frombuffer_u2 nth]. rewrite IH by lia.
    replace (2 * S k)%nat with (S (S (2 * k))) by lia.
    rewrite !field_at_cons. reflexivity.
Qed.

Lemma nth_map_byte_val bs k :
  nth k (map byte_val bs) 0 = field_at LittleEnd bs k 1.
Proof.
  cbn [field_at little_endian_at]. unfold byte_at.
  change 0 with (byte_val x00) at 1. rewrite map_nth. lia.
Qed.

Lemma field_at_one_byte e bs k : field_at e bs k 1 = byte_at bs k.
Proof.
  destruct e; cbn [field_at little_endian_at big_endian_at];
    change (Z.of_nat 0) with 0; lia.
Qed.

(** X11: the sample at row [r], column [c] of mono frame [i] is the value of
    the one or two bytes at offset 178 + i x frame size + (r x width + c) x
    bytes per sample of the file, in the byte order of the header. *)
Theorem get_frame_sample p0 p h i (r c : nat) :
  parse_header p0 = Ok (p, h) ->
  Z_in (color_id h) [100; 101] = false ->
  0 <= i < frame_count h ->
  178 + (i + 1) * _frame_size p <= file_size p ->
  (r < Z.to_nat (image_height h))%nat ->
  (c < Z.to_nat (image_width h))%nat ->
  exists d rows,
    get_frame p i = Ok {| dtype_of := d; px := Arr2 rows |} /\
    nth c (nth r rows []) 0
    = field_at (endian_char (little_endian h)) (file p)
               (Z.to_nat (178 + i * _frame_size p)
                + Z.to_nat (pixel_depth h / 8) * (r * Z.to_nat (image_width h) + c))
               (Z.to_nat (pixel_depth h / 8)).
Proof.
  intros H C Hi L Hr Hc. pose proof (parse_header_valid _ _ _ H)
    as (_ & Hd & _ & Hw & Hh & _ & Hs0 & Hp & _).
  pose proof (parse_header_Ok _ _ _ H) as (_ & _ & _ & Hs & _).
  assert (B : (i <? 0) || (i >=? frame_count h) = false).
  { apply orb_false_iff. split; [apply Z.ltb_ge; lia|].
    rewrite Z.geb_leb. apply Z.leb_gt. lia. }
  unfold get_frame. rewrite Hp, B, C. unfold HEADER_SIZE.
  assert (Lr : length (read_at p (178 + i * _frame_size p) (_frame_size p))
               = Z.to_nat (_frame_size p)) by (apply length_read_at; nia).
  assert (Lt : (Z.of_nat (length (read_at p (178 + i * _frame_size p) (_frame_size p)))
                <? _frame_size p) = false) by (apply Z.ltb_ge; lia).
  rewrite Lt. clear Lt. eexists. eexists. split; [reflexivity|].
  rewrite nth_reshape by assumption.
  assert (Es : Z.to_nat (_frame_size p)
               = (Z.to_nat (image_height h) * Z.to_nat (image_width h)
                  * Z.to_nat (pixel_depth h / 8))%nat).
  { rewrite Hs. unfold frame_size_of. rewrite C.
    assert (0 <= pixel_depth h / 8) by (destruct Hd as [-> | ->]; cbn; lia). nia. }
  destruct Hd as [E|E]; rewrite E in *; cbn [Z.eqb Pos.eqb frombuffer].
  - change (Z.to_nat (8 / 8)) with 1%nat in *.
    rewrite nth_map_byte_val, !field_at_one_byte.
    rewrite byte_at_read_at by nia. f_equal. lia.
  - change (Z.to_nat (16 / 8)) with 2%nat in *.
    rewrite nth_frombuffer_u2 by nia.
    rewrite field_at_read_at by nia. reflexivity.
Qed.

Lemma raw_timestamp_value p0 p h i :
  parse_header p0 = Ok (p, h) ->
  has_timestamps p = true ->
  0 <= i < frame_count h ->
  178 + frame_count h * _frame_size p + i * 8 + 8 <= file_size p /\
  raw_timestamp p i
  = Ok (field_at (endian_char (little_endian h)) (file p)
                 (Z.to_nat (178 + frame_count h * _frame_size p + i * 8)) 8).
Proof.
  intros H T Hi. pose proof (parse_header_valid _ _ _ H)
    as (_ & _ & _ & _ & _ & _ & Hs0 & Hp & Hf).
  assert (Sz : file_size p0 = 178 + frame_count h * _frame_size p + frame_count h * 8).
  { pose proof (parse_header_Ok _ _ _ H) as (_ & _ & _ & Es & Et & _).
    unfold has_timestamps in T. rewrite Et in T. apply Z.eqb_eq in T.
    rewrite Es. exact T. }
  assert (Sp : file_size p = 178 + frame_count h * _frame_size p + frame_count h * 8)
    by (unfold file_size in *; rewrite Hf; exact Sz).
  split; [lia|].
  unfold raw_timestamp. rewrite Hp. unfold HEADER_SIZE.
  assert (L8 : length (read_at p (178 + frame_count h * _frame_size p + i * 8) 8) = 8%nat).
  { rewrite length_read_at; [reflexivity | nia | lia | nia]. }
  rewrite L8. cbn [Nat.eqb negb].
  set (off := 178 + frame_count h * _frame_size p + i * 8) in *.
  assert (S8 : slice 0 (0 + 8) (read_at p off 8) = read_at p off 8).
  { unfold slice. cbn [skipn Nat.add Nat.sub].
    rewrite <- L8. apply firstn_all. }
  rewrite <- S8 at 1. rewrite unpack_uint_slice by lia.
  fold (field_at (endian_char (little_endian h)) (read_at p off 8) 0 8).
  rewrite field_at_read_at by (subst off; first [nia | cbn; lia]).
  do 2 f_equal. lia.
Qed.

(** In the model [get_timestamp] is the field [raw_timestamp] unpacks,
    converted. *)
Lemma get_timestamp_unpacks p h i :
  header p = Some h ->
  _has_timestamps p = true ->
  0 <= i < frame_count h ->
  get_timestamp p i
  = (raw <- raw_timestamp p i ;;
     Ok (Some (inject_Z (raw - EPOCH_DIFF) / inject_Z 10000000)%Q))%result.
Proof.
  intros Hp T Hi.
  assert (B : (i <? 0) || (i >=? frame_count h) = false).
  { apply orb_false_iff. split; [apply Z.ltb_ge; lia|].
    rewrite Z.geb_leb. apply Z.leb_gt. lia. }
  unfold get_timestamp, raw_timestamp. rewrite Hp, T, B. cbn [negb].
  destruct (negb (length (read_at p (HEADER_SIZE + frame_count h * _frame_size p + i * 8) 8)
                  =? 8)%nat); reflexivity.
Qed.

(** X12: in a container with a timestamp trailer, the field [get_timestamp]
    reads for an index in range lies within the file, so the read never
    falls short, and what is unpacked is the 8 bytes at offset
    178 + n x frame size + 8 x index in the header's byte order, an
    unsigned 64-bit count.  (Its conversion to a [datetime] is not part of
    the statement.) *)
Theorem raw_timestamp_in_range p0 p h i :
  parse_header p0 = Ok (p, h) ->
  has_timestamps p = true ->
  0 <= i < frame_count h ->
  let raw := field_at (endian_char (little_endian h)) (file p)
                      (Z.to_nat (178 + frame_count h * _frame_size p + i * 8)) 8 in
  178 + frame_count h * _frame_size p + i * 8 + 8 <= file_size p /\
  raw_timestamp p i = Ok raw /\
  0 <= raw < 2 ^ 64.
Proof.
  intros H T Hi raw.
  destruct (raw_timestamp_value p0 p h i H T Hi) as (L & R).
  split; [exact L|]. split; [exact R|].
  exact (field_at_range _ _ _ 8).
Qed.

End DecoderFacts.

Section DecoderExamples.
Import SERParser.

Lemma parsed_header_is_valid_witness :
  exists p h, parse_header (init Examples.five_frames_big) = Ok (p, h) /\
              (pixel_depth h = 8 \/ pixel_depth h = 16) /\
              1 <= frame_count h < 2 ^ 32.
Proof.
  destruct (parse_header (init Examples.five_frames_big)) as [[p h]|e] eqn:E.
  - exists p, h. split; [reflexivity|].
    pose proof (parsed_header_is_valid _ p h E) as (_ & D & N & _).
    split; [exact D | exact N].
  - vm_compute in E. discriminate.
Defined.

Lemma parse_header_refusals_witness :
  parse_header (init five_frames_stub) = Raise (SERFormatError FileTooSmall).
Proof.
  apply (proj1 (parse_header_refusals (init five_frames_stub))).
  vm_compute. reflexivity.
Defined.

Lemma parse_header_again_witness :
  exists p h, parse_header (init Examples.five_frames) = Ok (p, h) /\
              parse_header p = Ok (p, h).
Proof.
  destruct (parse_header (init Examples.five_frames)) as [[p h]|e] eqn:E.
  - exists p, h. split; [reflexivity|]. exact (parse_header_again _ p h E).
  - vm_compute in E. discriminate.
Defined.

Lemma get_frame_reads_whole_frames_witness :
  (exists p h, parse_header (init Examples.five_frames) = Ok (p, h) /\
               exists f, get_frame p 4 = Ok f /\ frame_shape h f) /\
  (exists p h, parse_header (init five_frames_cut) = Ok (p, h) /\
               get_frame p 4 = Raise SERIOError).
Proof.
  split.
  - destruct (parse_header (init Examples.five_frames)) as [[p h]|e] eqn:E.
    + exists p, h. split; [reflexivity|].
      refine (proj1 (get_frame_reads_whole_frames _ p h 4 E _) _);
        vm_compute in E; injection E as <- <-; vm_compute;
        first [discriminate | split; [discriminate | reflexivity]].
    + vm_compute in E. discriminate.
  - destruct (parse_header (init five_frames_cut)) as [[p h]|e] eqn:E.
    + exists p, h. split; [reflexivity|].
      refine (proj2 (proj2 (get_frame_reads_whole_frames _ p h 4 E _) _) _ _);
        vm_compute in E; injection E as <- <-; vm_compute;
        first [reflexivity | discriminate | split; [discriminate | reflexivity]].
    + vm_compute in E. discriminate.
Defined.

Lemma get_frame_sample_witness :
  exists p h d rows,
    parse_header (init Examples.five_frames) = Ok (p, h) /\
    get_frame p 2 = Ok {| dtype_of := d; px := Arr2 rows |} /\
    nth 2 (nth 1 rows []) 0 = 30.
Proof.
  destruct (parse_header (init Examples.five_frames)) as [[p h]|e] eqn:E.
  - destruct (get_frame_sample _ p h 2 1 2 E) as (d & rows & G & N);
      try (vm_compute in E; injection E as <- <-; vm_compute;
           first [reflexivity | discriminate | lia
                 | split; [discriminate | reflexivity]]).
    exists p, h, d, rows. split; [reflexivity|]. split; [exact G|].
    rewrite N. vm_compute in E. injection E as <- <-. vm_compute. reflexivity.
  - vm_compute in E. discriminate.
Defined.

Lemma raw_timestamp_in_range_witness :
  exists p h, parse_header (init Examples.five_frames_stamped) = Ok (p, h) /\
              raw_timestamp p 3 = Ok 0.
Proof.
  destruct (parse_header (init Examples.five_frames_stamped)) as [[p h]|e] eqn:E.
  - exists p, h. split; [reflexivity|].
    destruct (raw_timestamp_in_range _ p h 3 E) as (_ & R & _);
      [ vm_compute in E; injection E as <- <-; vm_compute; reflexivity
      | vm_compute in E; injection E as <- <-; vm_compute;
        split; [discriminate | reflexivity]
      | ].
    rewrite R. vm_compute in E. injection E as <- <-. vm_compute. reflexivity.
  - vm_compute in E. discriminate.
Defined.

End DecoderExamples.

(** ** Frames for display *)

Section DisplayFacts.
Import SERParser ImageProcessor.
Variable HAS_OPENCV : bool.
Variable cv2_cvtColor : ndarray Z -> cv2_code -> result image.
Variable debayer_simple : ndarray Z -> string -> result image.
Variable CYYM_PATTERN : string.

Lemma astype_uint8_high_byte v :
  0 <= v <= 65535 -> astype_uint8 (inject_Z v / 256) = v / 256.
Proof.
  intros Hv. unfold astype_uint8.
  unfold Qdiv, Qmult, Qinv, inject_Z. cbn [Qnum Qden].
  change (Qnum 256) with 256. cbn [Qnum Qden Z.mul Pos.mul].
  rewrite Z.mul_1_r. change (Z.pos (1 * 256)) with 256.
  rewrite Z.quot_div_nonneg by lia.
  apply Z.mod_small. split; [apply Z.div_pos; lia|].
  apply Z.div_lt_upper_bound; lia.
Qed.

Lemma shown_range depth v :
  depth = 8 \/ depth = 16 ->
  0 <= v <= iinfo_max (if depth =? 8 then uint8 else uint16) ->
  0 <= shown depth v <= 255.
Proof.
  unfold shown. intros [-> | ->]; cbn; intros Hv; [exact Hv|].
  split; [apply Z.div_pos; lia | apply Z.lt_succ_r, Z.div_lt_upper_bound; lia].
Qed.

(** What [process_frame] does to one sample before the channels are laid
    out: nothing at depth 8, the scaling of [normalize_16bit] at depth 16. *)
Lemma normalized_samples depth (l : list Z) :
  depth = 8 \/ depth = 16 ->
  Forall (fun v => 0 <= v <= iinfo_max (if depth =? 8 then uint8 else uint16)) l ->
  (if depth =? 16 then map (fun v => astype_uint8 (inject_Z v / 256)) l else l)
  = map (shown depth) l.
Proof.
  unfold shown. intros [-> | ->] H; cbn [Z.eqb Pos.eqb] in *.
  - symmetry. apply map_id.
  - apply map_ext_Forall. revert H. apply Forall_impl. intros v Hv.
    apply astype_uint8_high_byte. exact Hv.
Qed.

Lemma if_map {A B} (b : bool) (f : A -> B) (g : A -> A) (l : list A) :
  map f (if b then map g l else l) = if b then map f (map g l) else map f l.
Proof. destruct b; reflexivity. Qed.

(** X13: a frame of the parser whose colour format needs no demosaicing
    (mono, the three formats treated as mono, packed RGB and BGR) always
    converts: the image has the frame's height and width, three 8-bit values
    per pixel, each the sample itself at depth 8 and the sample divided by
    256, rounded down, at depth 16; BGR pixels are reversed. *)
Theorem process_frame_without_demosaic h f :
  pixel_depth h = 8 \/ pixel_depth h = 16 ->
  frame_shape h f ->
  In (color_id h) [0; 9; 16; 17; 100; 101] ->
  let g := shown (pixel_depth h) in
  let im :=
    Img (Arr3 (match px f with
               | Arr2 rows => np_map (fun v => [g v; g v; g v]) rows
               | Arr3 rows =>
                 np_map (fun pixel => if color_id h =? COLOR_BGR
                                      then rev (map g pixel) else map g pixel) rows
               end)) in
  process_frame HAS_OPENCV cv2_cvtColor debayer_simple CYYM_PATTERN
                (px f) (color_id h) (pixel_depth h) = Ok im /\
  displayable (Z.to_nat (image_height h)) (Z.to_nat (image_width h)) im.
Proof.
  intros D [T S] C g im. subst im.
  assert (G : forall v, 0 <= v <= iinfo_max (dtype_of f) -> 0 <= g v <= 255).
  { intros v Hv. apply shown_range; [exact D|]. rewrite <- T. exact Hv. }
  destruct (px f) as [rows|rows] eqn:P.
  - destruct S as (C2 & L & F).
    assert (N : (if pixel_depth h =? 16 then normalize_16bit (Arr2 rows) else Arr2 rows)
                = Arr2 (np_map g rows)).
    { unfold normalize_16bit, np_map.
      transitivity (Arr2 (map (fun r => if pixel_depth h =? 16
                                        then map (fun v => astype_uint8 (inject_Z v / 256)) r
                                        else r) rows)).
      - destruct (pixel_depth h =? 16); [reflexivity|]. rewrite map_id. reflexivity.
      - f_equal. apply map_ext_Forall. revert F. apply Forall_impl.
        intros r [_ Hr]. apply normalized_samples; [exact D|]. rewrite <- T. exact Hr. }
    split.
    + unfold process_frame. rewrite N.
      assert (E : mono_to_rgb (Arr2 (np_map g rows))
                  = Img (Arr3 (np_map (fun v => [g v; g v; g v]) rows))).
      { unfold mono_to_rgb, stack3, np_map. rewrite map_map. do 2 f_equal.
        apply map_ext. intros r. rewrite map_map. reflexivity. }
      cbn [In] in C.
      destruct C as [C|[C|[C|[C|[C|[C|[]]]]]]]; rewrite <- C in *;
        try discriminate C2; cbn [Z.eqb Pos.eqb Z_in existsb orb COLOR_MONO];
        try (rewrite E; reflexivity);
        unfold debayer; cbn -[mono_to_rgb];
        destruct HAS_OPENCV; cbn -[mono_to_rgb]; rewrite E; reflexivity.
    + eexists. split; [reflexivity|]. unfold np_map. rewrite length_map.
      split; [exact L|]. apply Forall_map. revert F. apply Forall_impl.
      intros r [Lr Hr]. rewrite length_map. split; [exact Lr|].
      apply Forall_map. revert Hr. apply Forall_impl. intros v Hv.
      split; [reflexivity|]. pose proof (G v Hv). repeat constructor; lia.
  - destruct S as (C3 & L & F).
    assert (N : (if pixel_depth h =? 16 then normalize_16bit (Arr3 rows) else Arr3 rows)
                = Arr3 (np_map (map g) rows)).
    { unfold normalize_16bit, np_map.
      transitivity (Arr3 (map (map (fun pixel =>
                            if pixel_depth h =? 16
                            then map (fun v => astype_uint8 (inject_Z v / 256)) pixel
                            else pixel)) rows)).
      - destruct (pixel_depth h =? 16); [reflexivity|].
        f_equal. symmetry. etransitivity; [|apply map_id].
        apply map_ext. intros r. apply map_id.
      - f_equal. apply map_ext_Forall. revert F. apply Forall_impl.
        intros r [_ Hr]. apply map_ext_Forall. revert Hr. apply Forall_impl.
        intros pixel [_ Hp]. apply normalized_samples; [exact D|].
        rewrite <- T. exact Hp. }
    split.
    + unfold process_frame. rewrite N.
      cbn [In] in C.
      destruct C as [C|[C|[C|[C|[C|[C|[]]]]]]]; rewrite <- C in *;
        try discriminate C3;
        cbv [COLOR_MONO COLOR_BAYER_RGGB COLOR_BAYER_GRBG COLOR_BAYER_GBRG COLOR_BAYER_BGGR
             COLOR_BAYER_CYYM COLOR_BAYER_YCMY COLOR_BAYER_YMCY COLOR_BAYER_MYYC
             COLOR_RGB COLOR_BGR Z_in existsb orb Z.eqb Pos.eqb].
      * reflexivity.
      * unfold bgr_to_rgb, np_map. do 3 f_equal. rewrite map_map.
        apply map_ext. intros r. rewrite map_map. reflexivity.
    + eexists. split; [reflexivity|]. unfold np_map. rewrite length_map.
      split; [exact L|]. apply Forall_map. revert F. apply Forall_impl.
      intros r [Lr Hr]. rewrite length_map. split; [exact Lr|].
      apply Forall_map. revert Hr. apply Forall_impl. intros pixel [Lp Hp].
      assert (Forall (fun v => 0 <= v <= 255) (map g pixel)).
      { apply Forall_map. revert Hp. apply Forall_impl. exact G. }
      destruct (color_id h =? COLOR_BGR).
      * rewrite length_rev, length_map. split; [exact Lp|].
        apply Forall_rev. assumption.
      * rewrite length_map. split; [exact Lp | assumption].
Qed.

Lemma length_from0_step2 {A} (l : list A) :
  length (from0_step2 l) = Nat.div2 (S (length l)).
Proof.
  assert (H : forall n (l : list A), (length l <= n)%nat ->
                length (from0_step2 l) = Nat.div2 (S (length l))).
  { induction n as [|n IH]; intros [|x [|y t]] Hl; cbn [length] in *;
      try reflexivity; try lia.
    cbn [from0_step2 length]. rewrite IH by (cbn [length] in *; lia). reflexivity. }
  apply (H (length l)). lia.
Qed.

Lemma length_step2 {A} b (l : list A) :
  length (step2 b l) = match b with O => Nat.div2 (S (length l)) | _ => Nat.div2 (length l) end.
Proof.
  destruct b; cbn [step2]; [apply length_from0_step2|].
  unfold from1_step2. rewrite length_from0_step2. destruct l; reflexivity.
Qed.

Lemma Forall_from0_step2 {A} (P : A -> Prop) (l : list A) :
  Forall P l -> Forall P (from0_step2 l).
Proof.
  assert (H : forall n (l : list A), (length l <= n)%nat ->
                Forall P l -> Forall P (from0_step2 l)).
  { induction n as [|n IH]; intros [|x [|y t]] Hl F; cbn [length from0_step2] in *;
      try lia; try constructor; try (inversion F; assumption).
    apply IH; [lia|]. inversion F as [|? ? _ F']. inversion F'. assumption. }
  apply (H (length l)). lia.
Qed.

Lemma Forall_step2 {A} (P : A -> Prop) b (l : list A) :
  Forall P l -> Forall P (step2 b l).
Proof.
  intros F. destruct b; cbn [step2]; [apply Forall_from0_step2; exact F|].
  unfold from1_step2. apply Forall_from0_step2. destruct l; [constructor|].
  inversion F; assumption.
Qed.

(** The rows of a plane [data[a::2, b::2]] of a rectangular array. *)
Lemma quarter_rows {A} a b (data : list (list A)) w :
  Forall (fun r => length r = w) data ->
  Forall (fun r => length r = match b with O => Nat.div2 (S w) | _ => Nat.div2 w end)
         (quarter a b data).
Proof.
  intros F. unfold quarter. apply Forall_map. apply Forall_step2.
  revert F. apply Forall_impl. intros r <-. apply length_step2.
Qed.

Lemma quarter_nonempty {A} a b (data : list (list A)) :
  (2 <= length data)%nat -> quarter a b data <> [].
Proof.
  intros H E. apply (f_equal (@length _)) in E. unfold quarter in E.
  rewrite length_map, length_step2 in E. cbn [length] in E.
  assert (D : forall m, (2 <= m)%nat -> (1 <= Nat.div2 m)%nat).
  { intros [|[|m]] Hm; try lia. change (Nat.div2 (S (S m))) with (S (Nat.div2 m)).
    apply le_n_S, Nat.le_0_l. }
  destruct a; [pose proof (D (S (length data))) as D' | pose proof (D (length data)) as D'];
    rewrite E in D'; specialize (D' ltac:(lia)); inversion D'.
Qed.

(** Two arrays whose rows differ in length, neither length being 1, do not
    broadcast. *)
Lemma np_binop_mismatch f (x y : list (list Q)) p q :
  x <> [] -> y <> [] ->
  Forall (fun r => length r = p) x -> Forall (fun r => length r = q) y ->
  p <> q -> (2 <= p)%nat -> (2 <= q)%nat ->
  np_binop f x y = Raise ValueError.
Proof.
  intros Hx Hy Fx Fy Hpq Hp Hq.
  destruct x as [|r1 x]; [contradiction|]. destruct y as [|r2 y]; [contradiction|].
  inversion Fx as [|? ? L1 _]. inversion Fy as [|? ? L2 _]. subst.
  assert (I : broadcast (fun a b => Ok (f a b)) r1 r2 = Raise ValueError).
  { unfold broadcast. destruct (Nat.eqb_spec (length r1) (length r2)); [lia|].
    destruct r1 as [|a [|a' r1]]; cbn [length] in *; try lia.
    destruct r2 as [|b [|b' r2]]; cbn [length] in *; try lia. reflexivity. }
  unfold np_binop, broadcast at 1.
  destruct (length (r1 :: x) =? length (r2 :: y))%nat.
  - cbn [combine map sequence]. rewrite I. reflexivity.
  - destruct x as [|r1' x].
    + cbn [map sequence]. rewrite I. reflexivity.
    + destruct y as [|r2' y]; [|reflexivity].
      cbn [map sequence]. rewrite I. reflexivity.
Qed.

Lemma np_map_rows {A B} (g : A -> B) (x : list (list A)) n :
  Forall (fun r => length r = n) x -> Forall (fun r => length r = n) (np_map g x).
Proof.
  intros F. unfold np_map. apply Forall_map. revert F. apply Forall_impl.
  intros r <-. apply length_map.
Qed.

Lemma np_map_nonempty {A B} (g : A -> B) (x : list (list A)) :
  x <> [] -> np_map g x <> [].
Proof. destruct x; [contradiction | discriminate]. Qed.

(** X14: the cyan-yellow-magenta reconstruction needs an even width: on a
    frame of two or more rows whose width is odd and at least 5 the two
    yellow planes differ in width and their sum does not broadcast, so
    [debayer_cyym] raises, whichever arrangement is set, and so does
    [process_frame] for colour id 8 at either depth. *)
Theorem cyym_odd_width_fails (data : list (list Z)) (w : nat) pattern depth :
  (2 <= length data)%nat ->
  Forall (fun r => length r = w) data ->
  Nat.odd w = true -> (5 <= w)%nat ->
  debayer_cyym (Arr2 data) pattern = Raise ValueError /\
  process_frame HAS_OPENCV cv2_cvtColor debayer_simple CYYM_PATTERN
                (Arr2 data) COLOR_BAYER_CYYM depth = Raise ValueError.
Proof.
  intros Hh Hw Ho H5.
  assert (Hd : Nat.div2 (S w) <> Nat.div2 w /\ (2 <= Nat.div2 (S w))%nat /\
               (2 <= Nat.div2 w)%nat).
  { destruct (Nat.Even_or_Odd w) as [[k E]|[k E]].
    - subst w. rewrite Nat.odd_mul, Nat.odd_2 in Ho. discriminate.
    - subst w. replace (S (2 * k + 1)) with (2 * (S k))%nat by lia.
      rewrite Nat.div2_double.
      replace (2 * k + 1)%nat with (S (2 * k)) by lia.
      rewrite Nat.div2_succ_double. lia. }
  destruct Hd as (Hne & H2a & H2b).
  assert (Q : forall (d : list (list Z)) pat,
             (2 <= length d)%nat -> Forall (fun r => length r = w) d ->
             debayer_cyym_2d d pat = Raise ValueError).
  { intros d pat Hl Hr.
    assert (K : forall a a' b b', b <> b' -> (b <= 1)%nat -> (b' <= 1)%nat ->
                np_binop Qplus (np_map inject_Z (quarter a b d))
                               (np_map inject_Z (quarter a' b' d)) = Raise ValueError).
    { intros a a' b b' Hb Hb1 Hb1'.
      eapply np_binop_mismatch;
        try (apply np_map_nonempty, quarter_nonempty; exact Hl);
        try (apply np_map_rows, quarter_rows; exact Hr).
      all: destruct b as [|[|]], b' as [|[|]]; try lia; congruence. }
    unfold debayer_cyym_2d, cyym_planes.
    destruct (String.eqb pat "CYYM"); [rewrite K by lia; reflexivity|].
    destruct (String.eqb pat "YCMY"); [rewrite K by lia; reflexivity|].
    destruct (String.eqb pat "YMCY"); [rewrite K by lia; reflexivity|].
    destruct (String.eqb pat "MYYC"); rewrite K by lia; reflexivity. }
  split.
  - unfold debayer_cyym. rewrite Q by assumption. reflexivity.
  - unfold process_frame.
    change (COLOR_BAYER_CYYM =? COLOR_MONO) with false.
    change (Z_in COLOR_BAYER_CYYM _) with true. cbv iota.
    unfold debayer. change (COLOR_BAYER_CYYM =? COLOR_BAYER_CYYM) with true. cbv iota.
    destruct (depth =? 16); unfold normalize_16bit, debayer_cyym.
    + rewrite Q; [reflexivity | unfold np_map; rewrite length_map; exact Hh
                 | apply np_map_rows; exact Hw].
    + rewrite Q by assumption. reflexivity.
Qed.

End DisplayFacts.

Lemma process_frame_without_demosaic_witness :
  ImageProcessor.process_frame false Examples.cvtColor_unavailable
    Examples.debayer_simple_unreached "CYYM" (px deep_frame) 0 16
  = Ok (ImageProcessor.Img (Arr3 [[[1; 1; 1]; [255; 255; 255]]])).
Proof.
  refine (proj1 (process_frame_without_demosaic false Examples.cvtColor_unavailable
                   Examples.debayer_simple_unreached "CYYM" deep_header deep_frame _ _ _)).
  - right. reflexivity.
  - split; [reflexivity|]. cbn. split; [reflexivity|]. split; [reflexivity|].
    repeat constructor; cbn; lia.
  - left. reflexivity.
Defined.

Lemma cyym_odd_width_fails_witness :
  ImageProcessor.debayer_cyym (Arr2 (repeat (repeat 0 5) 2)) "YCMY" = Raise ValueError.
Proof.
  refine (proj1 (cyym_odd_width_fails false Examples.cvtColor_unavailable
                   Examples.debayer_simple_unreached "CYYM"
                   (repeat (repeat 0 5) 2) 5 "YCMY" 8 _ _ _ _)).
  - cbn. lia.
  - repeat constructor.
  - reflexivity.
  - lia.
Defined.

(** ** Alignment by features *)

Section FeatureFacts.
Context {cv : OpenCV}.

Lemma ratio_test_length ratio ms :
  (length (ratio_test ratio ms)
   <= length (filter (fun p => (length p =? 2)%nat) ms))%nat.
Proof.
  induction ms as [|p ms IH]; [apply le_n|].
  destruct p as [|m [|n [|x p]]]; cbn [ratio_test filter length Nat.eqb]; try exact IH.
  destruct (Qlt_bool (distance m) (ratio * distance n)); cbn [length]; lia.
Qed.

Lemma ratio_test_In ratio ms m :
  In m (ratio_test ratio ms) ->
  exists n, In [m; n] ms /\ Qlt_bool (distance m) (ratio * distance n) = true.
Proof.
  induction ms as [|p ms IH]; [intros []|].
  destruct p as [|m' [|n [|x p]]]; cbn [ratio_test];
    try (intros H; destruct (IH H) as (n0 & I & L); exists n0; split; [right; exact I | exact L]).
  destruct (Qlt_bool (distance m') (ratio * distance n)) eqn:E.
  - intros [<- | H].
    + exists n. split; [left; reflexivity | exact E].
    + destruct (IH H) as (n0 & I & L). exists n0. split; [right; exact I | exact L].
  - intros H. destruct (IH H) as (n0 & I & L). exists n0. split; [right; exact I | exact L].
Qed.

(** What a fitted transform presupposes. *)
Lemma estimate_transform_Some nf ratio reproj iters reference frm M :
  estimate_transform nf ratio reproj iters reference frm = Ok (Some M) ->
  exists ref_gray frame_gray kp1 kp2 d1 d2 ms,
    gray_pair reference frm = Ok (ref_gray, frame_gray) /\
    ORB_detectAndCompute nf ref_gray = Ok (kp1, Some d1) /\
    ORB_detectAndCompute nf frame_gray = Ok (kp2, Some d2) /\
    (10 <= length kp1)%nat /\ (10 <= length kp2)%nat /\
    BFMatcher_knnMatch d1 d2 = Ok ms /\
    (10 <= length (ratio_test ratio ms))%nat.
Proof.
  unfold estimate_transform.
  destruct (gray_pair reference frm) as [[rg fg]|e]; cbn [rbind]; [|discriminate].
  destruct (ORB_detectAndCompute nf rg) as [[kp1 o1]|e] eqn:E1; cbn [rbind]; [|discriminate].
  destruct (ORB_detectAndCompute nf fg) as [[kp2 o2]|e] eqn:E2; cbn [rbind]; [|discriminate].
  destruct o1 as [d1|]; [|discriminate]. destruct o2 as [d2|]; [|discriminate].
  destruct (Z.of_nat (length kp1) <? 10) eqn:K1; cbn [orb]; [discriminate|].
  destruct (Z.of_nat (length kp2) <? 10) eqn:K2; [discriminate|].
  destruct (BFMatcher_knnMatch d1 d2) as [ms|e] eqn:EM; cbn [rbind]; [|discriminate].
  destruct (Z.of_nat (length (ratio_test ratio ms)) <? 10) eqn:K3; [discriminate|].
  intros _. exists rg, fg, kp1, kp2, d1, d2, ms.
  apply Z.ltb_ge in K1, K2, K3. repeat split; try reflexivity; try assumption; lia.
Qed.

Lemma too_few_no_transform nf ratio reproj iters reference frm ref_gray frame_gray :
  gray_pair reference frm = Ok (ref_gray, frame_gray) ->
  too_few nf ratio ref_gray frame_gray ->
  estimate_transform nf ratio reproj iters reference frm = Ok None.
Proof.
  intros G (kp1 & des1 & kp2 & des2 & E1 & E2 & H).
  unfold estimate_transform. rewrite G. cbn [rbind]. rewrite E1. cbn [rbind].
  rewrite E2. cbn [rbind].
  destruct des1 as [d1|]; [|reflexivity]. destruct des2 as [d2|]; [|reflexivity].
  destruct (Z.of_nat (length kp1) <? 10) eqn:K1; cbn [orb]; [reflexivity|].
  destruct (Z.of_nat (length kp2) <? 10) eqn:K2; [reflexivity|].
  apply Z.ltb_ge in K1, K2.
  destruct H as [H|[H|(ms & EM & H)]]; [lia | lia |].
  rewrite EM. cbn [rbind].
  destruct (Z.of_nat (length (ratio_test ratio ms)) <? 10) eqn:K3; [reflexivity|].
  apply Z.ltb_ge in K3. lia.
Qed.

(** X15: alignment by features wants ten of everything.  When, for the grey
    versions of the two frames at hand, the detector finds fewer than ten
    key points in one of them, or no descriptors, or fewer than ten of the
    matcher's pairs pass the ratio test, the alignment fails: for
    [align_frame_orb] with its detector of 10000 features and ratio 0.75,
    and for the lucky-imaging [align_frame_features] with 5000 and 0.7. *)
Theorem feature_alignment_needs_ten (reference frm ref_gray frame_gray : frame)
        (max_shift : Z) :
  gray_pair reference frm = Ok (ref_gray, frame_gray) ->
  (too_few 10000 (75 # 100) ref_gray frame_gray ->
   FrameAligner.align_frame_orb_with reference frm max_shift = None) /\
  (too_few 5000 (7 # 10) ref_gray frame_gray ->
   LuckyImaging.align_frame_features reference frm = None).
Proof.
  intros G. split; intros H.
  - unfold FrameAligner.align_frame_orb_with.
    rewrite (too_few_no_transform _ _ _ _ _ _ _ _ G H). reflexivity.
  - unfold LuckyImaging.align_frame_features.
    rewrite (too_few_no_transform _ _ _ _ _ _ _ _ G H). reflexivity.
Qed.

(** X16: the limit on the translation is inclusive and is the only test of
    the fitted transform: with both translations at most [max_shift] in
    absolute value, [align_frame_orb] returns the frame itself (not its
    grey version) warped by the transform to the reference's size, and
    fails only if the warp does. *)
Theorem orb_accepts_within_limit (reference frm : frame) (max_shift : Z) (M : matrix23) :
  estimate_transform 10000 (75 # 100) 5 5000 reference frm = Ok (Some M) ->
  (Qabs (M02 M) <= inject_Z max_shift)%Q ->
  (Qabs (M12 M) <= inject_Z max_shift)%Q ->
  FrameAligner.align_frame_orb_with reference frm max_shift
  = match warpAffine frm M (snd (shape2 (px reference)), fst (shape2 (px reference))) false with
    | Ok aligned => Some aligned
    | Raise _ => None
    end.
Proof.
  intros E Hx Hy. unfold FrameAligner.align_frame_orb_with. rewrite E. cbn [rbind].
  unfold Qlt_bool. apply Qle_bool_iff in Hx, Hy. rewrite Hx, Hy. cbn [negb orb].
  destruct (shape2 (px reference)) as [h w]. cbn [fst snd].
  destruct (warpAffine frm M (w, h) false); reflexivity.
Qed.

End FeatureFacts.

(** ** The quality threshold *)

Section ThresholdFacts.
Context {cv : OpenCV} {CB : Type}.
Import FrameStacker.

Lemma Qsquare_nonneg (a : Q) : (0 <= a * a)%Q.
Proof. destruct a as [n d]. unfold Qle, Qmult. cbn. nia. Qed.

Lemma sum_nonneg (l : list Q) :
  Forall (fun v => 0 <= v)%Q l -> (0 <= fold_right Qplus 0 l)%Q.
Proof.
  induction 1 as [|v l Hv _ IH]; cbn [fold_right]; [apply Qle_refl|].
  replace 0%Q with (0 + 0)%Q by reflexivity. apply Qplus_le_compat; assumption.
Qed.

(** The variance is never negative.  (Of an array without elements numpy's
    variance is nan, which passes no threshold; here it is 0.) *)
Lemma np_var_nonneg (x : list (list Q)) : (0 <= FrameAligner.np_var x)%Q.
Proof.
  unfold FrameAligner.np_var, Qdiv. apply Qmult_le_0_compat.
  - apply sum_nonneg. apply Forall_map. apply Forall_forall. intros v _.
    apply Qsquare_nonneg.
  - apply Qinv_le_0_compat. change 0%Q with (inject_Z 0).
    rewrite <- Zle_Qle. lia.
Qed.

Lemma quality_score_nonneg (image : frame) q :
  FrameAligner.calculate_quality_score image = Ok q -> (0 <= q)%Q.
Proof.
  unfold FrameAligner.calculate_quality_score.
  destruct (if is_3d (px image) then cvtColor_RGB2GRAY image else Ok image) as [g|e];
    cbn [rbind]; [|discriminate].
  destruct (Laplacian g) as [l|e]; cbn [rbind]; [|discriminate].
  intros [= <-]. apply np_var_nonneg.
Qed.

(** X17: a threshold of zero or less rejects nothing, as the docstring of
    [stack_frames] says of its default 0.0: when every frame after the
    first aligns, by ECC or by ORB, and every Laplacian has elements, a
    stacking run that completes has stacked all the frames. *)
Theorem nonpositive_threshold_keeps_aligned vf first (pc : option (callback CB))
        thr s s' af qs :
  (thr <= 0)%Q ->
  1 <= header_frame_count vf ->
  (forall g l, Laplacian g = Ok l -> concat l <> []) ->
  (forall i frm, 1 <= i < header_frame_count vf ->
                 parser_get_frame vf i = Ok frm -> align_either first frm <> None) ->
  align_all vf first pc thr s = (s', Ok (af, qs)) ->
  Z.of_nat (length af) = header_frame_count vf /\ length qs = length af /\
  Forall (fun q => thr <= q)%Q qs.
Proof.
  intros Ht Hn _ Ha A.
  destruct (align_all_Ok _ _ _ _ _ _ _ _ A) as (q0 & Q0 & F).
  assert (Step : forall i a a', In i (range 1 (header_frame_count vf)) ->
            step_align vf first thr i a = Ok a' ->
            length (fst a') = S (length (fst a)) /\
            (length (snd a) = length (fst a) -> length (snd a') = length (fst a')) /\
            (Forall (fun q => thr <= q)%Q (snd a) -> Forall (fun q => thr <= q)%Q (snd a'))).
  { intros i a a' I. apply In_range in I. unfold step_align.
    destruct (parser_get_frame vf i) as [frm|e] eqn:G; cbn [rbind]; [|discriminate].
    specialize (Ha i frm I G).
    destruct (align_either first frm) as [al|]; [|contradiction].
    destruct (FrameAligner.calculate_quality_score al) as [q|e] eqn:Q; cbn [rbind];
      [|discriminate].
    assert (L : Qle_bool thr q = true).
    { apply Qle_bool_iff. apply Qle_trans with 0%Q; [exact Ht|].
      exact (quality_score_nonneg _ _ Q). }
    rewrite L. intros [= <-]. cbn [fst snd]. rewrite !length_app. cbn [length].
    split; [lia|]. split; [lia|].
    intros Fq. apply Forall_app. split; [exact Fq|].
    constructor; [apply Qle_bool_iff; exact L | constructor]. }
  assert (Inv : forall l acc final,
            (forall i, In i l -> In i (range 1 (header_frame_count vf))) ->
            fold_steps (step_align vf first thr) l acc = Ok final ->
            length (snd acc) = length (fst acc) ->
            Forall (fun q => thr <= q)%Q (snd acc) ->
            length (fst final) = (length (fst acc) + length l)%nat /\
            length (snd final) = length (fst final) /\
            Forall (fun q => thr <= q)%Q (snd final)).
  { induction l as [|i l IH]; intros acc final Hl; cbn [fold_steps length].
    - intros [= <-] E Fq. split; [lia|]. split; assumption.
    - destruct (step_align vf first thr i acc) as [a|e] eqn:E; cbn [rbind]; [|discriminate].
      intros Fo El Fq.
      destruct (Step i acc a (Hl i (or_introl eq_refl)) E) as (S1 & S2 & S3).
      destruct (IH a final (fun j I => Hl j (or_intror I)) Fo (S2 El) (S3 Fq))
        as (I1 & I2 & I3).
      split; [lia|]. split; assumption. }
  destruct (Inv _ _ _ (fun i I => I) F eq_refl) as (I1 & I2 & I3).
  { constructor; [|constructor]. apply Qle_trans with 0%Q; [exact Ht|].
    exact (quality_score_nonneg _ _ Q0). }
  cbn [fst snd length] in *. rewrite length_range in I1.
  split; [lia|]. split; assumption.
Qed.

End ThresholdFacts.

Section AlignmentExamples.
Import FrameStacker.

Lemma feature_alignment_needs_ten_witness :
  FrameAligner.align_frame_orb_with (cv := Examples.cv_still)
    Examples.dark_frame Examples.grey_frame 200 = None /\
  LuckyImaging.align_frame_features (cv := Examples.cv_still)
    Examples.dark_frame Examples.grey_frame = None.
Proof.
  destruct (feature_alignment_needs_ten (cv := Examples.cv_still)
              Examples.dark_frame Examples.grey_frame
              Examples.dark_frame Examples.grey_frame 200 eq_refl) as (A & B).
  split; [apply A | apply B];
    exists [], None, [], None; (split; [reflexivity|]); (split; [reflexivity|]);
    exact I.
Defined.

Lemma orb_accepts_within_limit_witness :
  FrameAligner.align_frame_orb_with (cv := cv_limit_shift)
    Examples.dark_frame Examples.grey_frame 200 = Some Examples.grey_frame.
Proof.
  apply (orb_accepts_within_limit (cv := cv_limit_shift) Examples.dark_frame
           Examples.grey_frame 200 ((1, 0, 200), (0, 1, 0))%Q).
  - vm_compute. reflexivity.
  - vm_compute. discriminate.
  - vm_compute. discriminate.
Defined.

Lemma nonpositive_threshold_keeps_aligned_witness :
  exists vf first af qs,
    open_ser Examples.three_alike = Ok vf /\
    align_all (cv := Examples.cv_still) vf first None 0 tt = (tt, Ok (af, qs)) /\
    Z.of_nat (length af) = 3.
Proof.
  destruct (open_ser Examples.three_alike) as [vf|e] eqn:E;
    [|vm_compute in E; discriminate].
  destruct (parser_get_frame vf 0) as [first|e] eqn:G0.
  - destruct (align_all (cv := Examples.cv_still) (CB := unit) vf first None 0 tt)
      as [[] [[af qs]|e]] eqn:A.
    + exists vf, first, af, qs. split; [reflexivity|]. split; [exact A|].
      destruct (nonpositive_threshold_keeps_aligned (cv := Examples.cv_still)
                  vf first None 0 tt tt af qs) as (L & _).
      * apply Qle_refl.
      * vm_compute in E. injection E as <-. vm_compute. discriminate.
      * intros g l [= <-]. discriminate.
      * intros i frm _ _. vm_compute in E. injection E as <-.
        vm_compute in G0. injection G0 as <-. vm_compute. discriminate.
      * exact A.
      * rewrite L. vm_compute in E. injection E as <-. reflexivity.
    + exfalso. vm_compute in E. injection E as <-.
      vm_compute in G0. injection G0 as <-. vm_compute in A. discriminate.
  - exfalso. vm_compute in E. injection E as <-. vm_compute in G0. discriminate.
Defined.

End AlignmentExamples.

(** ** Lucky imaging: the frames selected *)

Section SortFacts.
Context {A : Type}.
Variable le : A -> A -> bool.

Lemma In_insert_by x l z : In z (insert_by le x l) <-> z = x \/ In z l.
Proof.
  induction l as [|y t IH]; cbn [insert_by In].
  - intuition congruence.
  - destruct (le x y); cbn [In]; [intuition congruence|].
    rewrite IH. intuition congruence.
Qed.

Lemma In_sort_by l z : In z (sort_by le l) <-> In z l.
Proof.
  induction l as [|y t IH]; [reflexivity|].
  change (sort_by le (y :: t)) with (insert_by le y (sort_by le t)).
  rewrite In_insert_by, IH. cbn [In]. intuition congruence.
Qed.

Lemma Forall_sort_by (P : A -> Prop) l : Forall P l -> Forall P (sort_by le l).
Proof.
  rewrite !Forall_forall. intros H z I. apply H, In_sort_by, I.
Qed.

(** A key without repetition stays so under sorting. *)
Lemma NoDup_sort_by {K} (key : A -> K) l :
  NoDup (map key l) -> NoDup (map key (sort_by le l)).
Proof.
  intros N. apply (NoDup_incl_NoDup N).
  - rewrite !length_map, length_sort_by. apply le_n.
  - intros k I. apply in_map_iff in I. destruct I as (z & <- & I).
    apply in_map, In_sort_by, I.
Qed.

Hypothesis le_total : forall x y, le x y = false -> le y x = true.
Hypothesis le_trans : forall x y z, le x y = true -> le y z = true -> le x z = true.

Lemma insert_by_sorted x l :
  StronglySorted (fun a b => le a b = true) l ->
  StronglySorted (fun a b => le a b = true) (insert_by le x l).
Proof.
  induction 1 as [|y t St IH Hy]; cbn [insert_by].
  - constructor; constructor.
  - destruct (le x y) eqn:E.
    + constructor; [constructor; assumption|].
      constructor; [exact E|]. revert Hy. apply Forall_impl.
      intros z Hz. exact (le_trans _ _ _ E Hz).
    + constructor; [exact IH|]. apply Forall_forall. intros z I.
      apply In_insert_by in I. destruct I as [-> | I].
      * apply le_total, E.
      * rewrite Forall_forall in Hy. apply Hy, I.
Qed.

Lemma sort_by_sorted l : StronglySorted (fun a b => le a b = true) (sort_by le l).
Proof.
  induction l as [|y t IH]; [constructor|].
  change (sort_by le (y :: t)) with (insert_by le y (sort_by le t)).
  apply insert_by_sorted, IH.
Qed.

End SortFacts.

Lemma StronglySorted_app_inv {A} (R : A -> A -> Prop) l1 l2 :
  StronglySorted R (l1 ++ l2) ->
  forall x y, In x l1 -> In y l2 -> R x y.
Proof.
  induction l1 as [|a l1 IH]; intros St x y Ix Iy; [destruct Ix|].
  inversion St as [|? ? St' Fa]; subst. destruct Ix as [<- | Ix].
  - rewrite Forall_forall in Fa. apply Fa, in_or_app. right. exact Iy.
  - exact (IH St' x y Ix Iy).
Qed.

Lemma StronglySorted_firstn {A} (R : A -> A -> Prop) k l :
  StronglySorted R l -> StronglySorted R (firstn k l).
Proof.
  revert k. induction l as [|a l IH]; intros [|k] St; cbn [firstn]; try constructor.
  - apply IH. inversion St; assumption.
  - inversion St as [|? ? _ Fa]; subst. apply Forall_forall. intros z I.
    rewrite Forall_forall in Fa. apply Fa. revert I. clear. revert k.
    induction l as [|b l IH]; intros [|k]; cbn [firstn In]; try tauto.
    intros [->|I]; [left; reflexivity | right; exact (IH k I)].
Qed.

Lemma insert_by_sharper (x : Z * Q) l :
  StronglySorted sharper l ->
  Forall (fun y => fst x < fst y) l ->
  StronglySorted sharper (insert_by (fun a b => Qle_bool (snd b) (snd a)) x l).
Proof.
  induction 1 as [|y t St IH Hy]; intros Hx; cbn [insert_by].
  - constructor; constructor.
  - inversion Hx as [|? ? Hxy Hxt]; subst.
    destruct (Qle_bool (snd y) (snd x)) eqn:E.
    + apply Qle_bool_iff in E.
      constructor; [constructor; assumption|].
      constructor; [split; [exact E | intros _; exact Hxy]|].
      rewrite Forall_forall in *. intros z I. split.
      * apply Qle_trans with (snd y); [apply (Hy z I) | exact E].
      * intros _. apply (Hxt z I).
    + assert (L : (snd x < snd y)%Q).
      { apply Qnot_le_lt. intros L. apply Qle_bool_iff in L. congruence. }
      constructor; [exact (IH Hxt)|]. apply Forall_forall. intros z I.
      apply In_insert_by in I. destruct I as [-> | I].
      * split; [apply Qlt_le_weak, L|]. intros L'. exfalso.
        exact (Qlt_not_le _ _ L L').
      * rewrite Forall_forall in Hy. apply Hy, I.
Qed.

Lemma sort_by_sharper (l : list (Z * Q)) :
  StronglySorted Z.lt (map fst l) ->
  StronglySorted sharper (sort_by (fun a b => Qle_bool (snd b) (snd a)) l).
Proof.
  induction l as [|x l IH]; intros St; [constructor|].
  change (sort_by ?f (x :: l)) with (insert_by f x (sort_by f l)).
  cbn [map] in St. inversion St as [|? ? St' Hx]; subst.
  apply insert_by_sharper; [exact (IH St')|].
  apply Forall_sort_by. rewrite Forall_map in Hx. exact Hx.
Qed.

Lemma range_increasing lo hi : StronglySorted Z.lt (range lo hi).
Proof.
  unfold range. generalize (Z.to_nat (hi - lo)) as m. intros m.
  generalize 0%nat as a. induction m as [|m IH]; intros a; cbn [seq map]; constructor.
  - apply IH.
  - apply Forall_map, Forall_forall. intros k I. apply in_seq in I. lia.
Qed.

Lemma NoDup_increasing (l : list Z) : StronglySorted Z.lt l -> NoDup l.
Proof.
  induction 1 as [|x l _ IH Hx]; constructor; [|exact IH].
  intros I. rewrite Forall_forall in Hx. specialize (Hx x I). lia.
Qed.

(** Sorted by a key without repetition is strictly sorted. *)
Lemma increasing_keys {A} (key : A -> Z) (l : list A) :
  StronglySorted (fun a b => (key a <=? key b) = true) l ->
  NoDup (map key l) ->
  StronglySorted Z.lt (map key l).
Proof.
  induction 1 as [|x l _ IH Hx]; cbn [map]; intros N; constructor.
  - apply IH. inversion N; assumption.
  - inversion N as [|? ? Nx _]; subst. apply Forall_map, Forall_forall. intros y I.
    rewrite Forall_forall in Hx. specialize (Hx y I). apply Z.leb_le in Hx.
    assert (key x <> key y) by (intros E; apply Nx; rewrite E; apply in_map, I).
    lia.
Qed.

Lemma NoDup_firstn {A} k (l : list A) : NoDup l -> NoDup (firstn k l).
Proof.
  intros N. rewrite <- (firstn_skipn k l) in N. apply NoDup_app_remove_r in N. exact N.
Qed.


Section SelectionFacts.
Context {cv : OpenCV} {CB : Type}.

(** What the scoring loop leaves: one entry per index, in order, each with
    the sharpness of the frame at that index. *)
Lemma scores_spec vf l acc fs :
  fold_steps (step_score vf) l acc = Ok fs ->
  exists new, fs = acc ++ new /\ map fst new = l /\
    Forall (fun x => exists f, parser_get_frame vf (fst x) = Ok f /\
                               LuckyImaging.calculate_sharpness f = Ok (snd x)) new.
Proof.
  revert acc. induction l as [|i l IH]; intros acc; cbn [fold_steps].
  - intros [= <-]. exists []. rewrite app_nil_r. repeat split. constructor.
  - unfold step_score at 1.
    destruct (parser_get_frame vf i) as [f|e] eqn:G; cbn [rbind]; [|discriminate].
    destruct (LuckyImaging.calculate_sharpness f) as [q|e] eqn:Sh; cbn [rbind]; [|discriminate].
    intros F. destruct (IH _ F) as (new & -> & Hm & Hf).
    exists ((i, q) :: new). rewrite <- app_assoc. split; [reflexivity|].
    split; [cbn [map fst]; rewrite Hm; reflexivity|].
    constructor; [|exact Hf]. exists f. split; assumption.
Qed.

(** What the loading loop leaves: the selected entries, each with the frame
    at its index. *)
Lemma load_spec vf l acc out :
  fold_steps (step_load vf) l acc = Ok out ->
  exists new, out = acc ++ new /\ map fst new = l /\
    Forall (fun x => parser_get_frame vf (entry_index x) = Ok (snd x)) new.
Proof.
  revert acc. induction l as [|[i q] l IH]; intros acc; cbn [fold_steps].
  - intros [= <-]. exists []. rewrite app_nil_r. repeat split. constructor.
  - unfold step_load at 1. cbn [fst snd].
    destruct (parser_get_frame vf i) as [f|e] eqn:G; cbn [rbind]; [|discriminate].
    intros F. destruct (IH _ F) as (new & -> & Hm & Hf).
    exists ((i, q, f) :: new). rewrite <- app_assoc. split; [reflexivity|].
    split; [cbn [map fst]; rewrite Hm; reflexivity|].
    constructor; [exact G | exact Hf].
Qed.

Lemma select_best_frames_Ok vf pct (pc : option (callback CB)) s s' best :
  LuckyImaging.select_best_frames vf pct pc s = (s', Ok best) ->
  exists fs,
    fold_steps (step_score vf) (range 0 (header_frame_count vf)) [] = Ok fs /\
    select_sorted pct (header_frame_count vf) fs <> [] /\
    fold_steps (step_load vf) (select_sorted pct (header_frame_count vf) fs) [] = Ok best.
Proof.
  rewrite select_best_frames_loop. unfold bind at 1.
  destruct (for_each _ _ _ s) as [s1 [fs|e]] eqn:F; [|discriminate].
  intros H. apply for_each_Ok_fold in F. exists fs. split; [exact F|].
  cbv zeta in H. unfold bind, lift in H.
  destruct (py_index (select_sorted pct (header_frame_count vf) fs) (-1)) eqn:P;
    [|discriminate].
  split.
  - intros E. rewrite E in P. discriminate P.
  - injection H as _ H. exact H.
Qed.

Lemma In_firstn_In {A} k (l : list A) x : In x (firstn k l) -> In x l.
Proof.
  intros I. rewrite <- (firstn_skipn k l). apply in_or_app. left. exact I.
Qed.

(** The run of [select_best_frames], taken apart: the scores in index
    order, the selection, and the entries loaded for it. *)
Lemma selection_parts vf pct (pc : option (callback CB)) s s' best :
  LuckyImaging.select_best_frames vf pct pc s = (s', Ok best) ->
  let n := header_frame_count vf in
  exists fs,
    map fst fs = range 0 n /\
    Forall (fun x => exists f, parser_get_frame vf (fst x) = Ok f /\
                               LuckyImaging.calculate_sharpness f = Ok (snd x)) fs /\
    map fst best = select_sorted pct n fs /\
    best <> [] /\
    Forall (fun x => parser_get_frame vf (entry_index x) = Ok (snd x)) best.
Proof.
  intros H n. destruct (select_best_frames_Ok _ _ _ _ _ _ H) as (fs & F1 & Ne & F2).
  destruct (scores_spec _ _ _ _ F1) as (new & -> & M1 & A1).
  destruct (load_spec _ _ _ _ F2) as (nb & -> & M2 & A2).
  cbn [app] in *. exists new. repeat split; try assumption.
  intros ->. apply Ne. symmetry. exact M2.
Qed.

Lemma idx_le_total (x y : Z * Q) : (fst x <=? fst y) = false -> (fst y <=? fst x) = true.
Proof. intros H. apply Z.leb_gt in H. apply Z.leb_le. lia. Qed.

Lemma idx_le_trans (x y z : Z * Q) :
  (fst x <=? fst y) = true -> (fst y <=? fst z) = true -> (fst x <=? fst z) = true.
Proof. rewrite !Z.leb_le. lia. Qed.

(** [int(n * k / 100.0)] for a whole percentage [k]. *)
Lemma int_of_whole_percentage n k :
  LuckyImaging.int_of (inject_Z n * inject_Z k / 100)%Q = Z.quot (n * k) 100.
Proof.
  unfold LuckyImaging.int_of, Qdiv, Qmult, Qinv, inject_Z. cbn [Qnum Qden].
  rewrite Z.mul_1_r. reflexivity.
Qed.

(** X18: what lucky imaging selects.  The entries come in increasing order
    of index, so the reference of the stack is the selected frame of lowest
    index; each holds an index of the file, the frame at that index and its
    sharpness.  For a whole percentage k (the source passes 10.0), with
    n x k below 2^53 so that the product is exact in a double, they are
    max(1, n x k quot 100) frames, or all n if that is more. *)
Theorem select_best_frames_selection vf pct (pc : option (callback CB)) s s' best :
  LuckyImaging.select_best_frames vf pct pc s = (s', Ok best) ->
  let n := header_frame_count vf in
  (forall k, pct = inject_Z k -> Z.abs (n * k) < 2 ^ 53 ->
             Z.of_nat (length best) = Z.min (Z.max 1 (Z.quot (n * k) 100)) n) /\
  StronglySorted Z.lt (map entry_index best) /\
  Forall (fun x => 0 <= entry_index x < n /\
                   parser_get_frame vf (entry_index x) = Ok (snd x) /\
                   LuckyImaging.calculate_sharpness (snd x) = Ok (snd (fst x))) best.
Proof.
  intros H n. destruct (selection_parts _ _ _ _ _ _ H) as (fs & M1 & A1 & M2 & Ne & A2).
  fold n in M1, M2.
  assert (Lfs : length fs = Z.to_nat n).
  { rewrite <- (length_map fst), M1, length_range. f_equal. lia. }
  assert (Lb : length best
               = Nat.min (Z.to_nat (Z.max 1 (LuckyImaging.int_of (inject_Z n * pct / 100)%Q)))
                         (Z.to_nat n)).
  { rewrite <- (length_map fst), M2. unfold select_sorted.
    rewrite length_sort_by, length_firstn, length_sort_by, Lfs. reflexivity. }
  split; [|split].
  - intros k -> _. rewrite int_of_whole_percentage in Lb.
    assert (length best <> 0%nat) by (destruct best; [contradiction | discriminate]).
    lia.
  - unfold entry_index. rewrite <- map_map, M2. unfold select_sorted.
    apply (increasing_keys fst).
    + apply sort_by_sorted; [apply idx_le_total | apply idx_le_trans].
    + apply NoDup_sort_by. rewrite <- firstn_map. apply NoDup_firstn.
      apply NoDup_sort_by. rewrite M1. apply NoDup_increasing, range_increasing.
  - rewrite Forall_forall in *. intros x I.
    assert (If : In (fst x) fs).
    { assert (I' : In (fst x) (select_sorted pct n fs))
        by (rewrite <- M2; apply in_map, I).
      unfold select_sorted in I'. apply In_sort_by, In_firstn_In, In_sort_by in I'.
      exact I'. }
    destruct (A1 _ If) as (f & G & Sh). pose proof (A2 _ I) as G'.
    unfold entry_index in *. rewrite G in G'. injection G' as ->.
    split; [|split; [exact G | exact Sh]].
    apply In_range. rewrite <- M1. apply in_map, If.
Qed.

(** X19: the frames selected are the sharpest: a selected frame is at
    least as sharp as any frame left out, and where the two are equally
    sharp the selected one has the lower index. *)
Theorem select_best_frames_sharpest vf pct (pc : option (callback CB)) s s' best
        x j fj qj :
  LuckyImaging.select_best_frames vf pct pc s = (s', Ok best) ->
  In x best ->
  0 <= j < header_frame_count vf ->
  ~ In j (map entry_index best) ->
  parser_get_frame vf j = Ok fj ->
  LuckyImaging.calculate_sharpness fj = Ok qj ->
  (qj <= snd (fst x))%Q /\ ((snd (fst x) <= qj)%Q -> entry_index x < j).
Proof.
  intros H I Hj Nj Gj Sj.
  destruct (selection_parts _ _ _ _ _ _ H) as (fs & M1 & A1 & M2 & Ne & A2).
  cbv zeta in *. set (n := header_frame_count vf) in *.
  set (S := sort_by (fun a b : Z * Q => Qle_bool (snd b) (snd a)) fs).
  set (k := Z.to_nat (Z.max 1 (LuckyImaging.int_of (inject_Z n * pct / 100)%Q))).
  assert (Sel : forall y, In y (select_sorted pct n fs) <-> In y (firstn k S)).
  { intros y. unfold select_sorted. apply In_sort_by. }
  assert (Ix : In (fst x) (firstn k S)) by (apply Sel; rewrite <- M2; apply in_map, I).
  assert (Ij : In (j, qj) fs).
  { assert (Ij : In j (map fst fs)) by (rewrite M1; apply In_range; exact Hj).
    apply in_map_iff in Ij. destruct Ij as ([j' q'] & E & Ij). cbn [fst] in E. subst j'.
    rewrite Forall_forall in A1. destruct (A1 _ Ij) as (f & G & Sh). cbn [fst snd] in *.
    rewrite Gj in G. injection G as <-. rewrite Sj in Sh. injection Sh as <-. exact Ij. }
  assert (Ik : In (j, qj) (skipn k S)).
  { assert (IS : In (j, qj) S) by (apply In_sort_by; exact Ij).
    rewrite <- (firstn_skipn k S) in IS. apply in_app_or in IS.
    destruct IS as [IS|IS]; [|exact IS]. exfalso. apply Nj.
    unfold entry_index. rewrite <- map_map, M2.
    apply in_map_iff. exists (j, qj). split; [reflexivity|]. apply Sel, IS. }
  assert (St : StronglySorted sharper (firstn k S ++ skipn k S)).
  { rewrite firstn_skipn. apply sort_by_sharper. rewrite M1. apply range_increasing. }
  exact (StronglySorted_app_inv _ _ _ St _ _ Ix Ik).
Qed.

End SelectionFacts.
Section SelectionExamples.

Lemma select_best_frames_selection_witness :
  exists vf best,
    open_ser Examples.five_frames = Ok vf /\
    LuckyImaging.select_best_frames (cv := Examples.cv_still) vf 50 None tt = (tt, Ok best) /\
    Z.of_nat (length best) = 2.
Proof.
  destruct (open_ser Examples.five_frames) as [vf|e] eqn:E;
    [|vm_compute in E; discriminate].
  destruct (LuckyImaging.select_best_frames (cv := Examples.cv_still) (CB := unit)
              vf 50 None tt) as [[] [best|e]] eqn:H.
  - exists vf, best. split; [reflexivity|]. split; [exact H|].
    destruct (select_best_frames_selection (cv := Examples.cv_still) vf 50 None tt tt best H)
      as (L & _).
    rewrite (L 50 eq_refl); vm_compute in E; injection E as <-; vm_compute; reflexivity.
  - exfalso. vm_compute in E. injection E as <-. vm_compute in H. discriminate.
Defined.

Lemma select_best_frames_sharpest_witness :
  exists vf best x,
    open_ser Examples.five_frames = Ok vf /\
    LuckyImaging.select_best_frames (cv := Examples.cv_still) vf 50 None tt = (tt, Ok best) /\
    In x best /\ entry_index x < 4.
Proof.
  destruct (open_ser Examples.five_frames) as [vf|e] eqn:E;
    [|vm_compute in E; discriminate].
  destruct (LuckyImaging.select_best_frames (cv := Examples.cv_still) (CB := unit)
              vf 50 None tt) as [[] [best|e]] eqn:H.
  - destruct best as [|x best].
    + exfalso. vm_compute in E. injection E as <-. vm_compute in H. discriminate.
    + exists vf, (x :: best), x. split; [reflexivity|]. split; [exact H|].
      split; [left; reflexivity|].
      refine (proj2 (select_best_frames_sharpest (cv := Examples.cv_still)
                       vf 50 None tt tt (x :: best) x 4
                       {| dtype_of := uint8; px := Examples.uniform 4 4 50 |} 0
                       H (or_introl eq_refl) _ _ _ _) _);
        vm_compute in E; injection E as <-; vm_compute in H;
        injection H as <- <-.
      * vm_compute. split; [discriminate | reflexivity].
      * cbn. intros [D|[D|[]]]; discriminate D.
      * vm_compute. reflexivity.
      * vm_compute. reflexivity.
      * vm_compute. discriminate.
  - exfalso. vm_compute in E. injection E as <-. vm_compute in H. discriminate.
Defined.

End SelectionExamples.

(** ** Stacking: the stretch and the stack of equal frames *)

Section StretchFacts.
Context {cv : OpenCV} {CB : Type}.
Import FrameStacker.






End StretchFacts.

Section ArrayFacts.

Lemma arr_map_map {A B C} (g : B -> C) (h : A -> B) (x : ndarray A) :
  arr_map g (arr_map h x) = arr_map (fun v => g (h v)) x.
Proof.
  destruct x as [rows|rows]; cbn [arr_map]; unfold np_map; f_equal.
  - rewrite map_map. apply map_ext. intros r. apply map_map.
  - rewrite map_map. apply map_ext. intros r. rewrite map_map.
    apply map_ext. intros pixel. apply map_map.
Qed.

Lemma arr_map_ext_in {A B} (g h : A -> B) (x : ndarray A) :
  Forall (fun v => g v = h v) (arr_flat x) -> arr_map g x = arr_map h x.
Proof.
  destruct x as [rows|rows]; cbn [arr_map arr_flat]; unfold np_map; intros F; f_equal.
  - induction rows as [|r rows IH]; [reflexivity|]. cbn [concat] in F.
    apply Forall_app in F. destruct F as [Fr F]. cbn [map]. f_equal; [|exact (IH F)].
    apply map_ext_Forall, Fr.
  - induction rows as [|r rows IH]; [reflexivity|]. cbn [concat] in F.
    rewrite concat_app in F. apply Forall_app in F. destruct F as [Fr F].
    cbn [map]. f_equal; [|exact (IH F)].
    clear IH F. induction r as [|pixel r IH]; [reflexivity|]. cbn [concat] in Fr.
    apply Forall_app in Fr. destruct Fr as [Fp Fr]. cbn [map]. f_equal; [|exact (IH Fr)].
    apply map_ext_Forall, Fp.
Qed.

Lemma arr_map_id_in {A} (g : A -> A) (x : ndarray A) :
  Forall (fun v => g v = v) (arr_flat x) -> arr_map g x = x.
Proof.
  intros F. rewrite (arr_map_ext_in g (fun v => v) x F).
  destruct x as [rows|rows]; cbn [arr_map]; unfold np_map; f_equal.
  - etransitivity; [|apply map_id]. apply map_ext. intros r. apply map_id.
  - etransitivity; [|apply map_id]. apply map_ext. intros r.
    etransitivity; [|apply map_id]. apply map_ext. intros pixel. apply map_id.
Qed.

Lemma zip_exact_maps {A B C D} (F : B -> C -> result D) (G : A -> B) (H : A -> C)
      (K : A -> D) (l : list A) :
  (forall a, F (G a) (H a) = Ok (K a)) ->
  zip_exact F (map G l) (map H l) = Ok (map K l).
Proof.
  intros E. induction l as [|a l IH]; cbn [map zip_exact]; [reflexivity|].
  rewrite E, IH. reflexivity.
Qed.

(** Two arrays computed from one array have its shape and combine. *)
Lemma arr_zip_maps {A B C D} (f : B -> C -> D) (g : A -> B) (h : A -> C) (x : ndarray A) :
  arr_zip f (arr_map g x) (arr_map h x) = Ok (arr_map (fun v => f (g v) (h v)) x).
Proof.
  destruct x as [rows|rows]; cbn [arr_map arr_zip]; unfold np_map.
  - rewrite (zip_exact_maps _ _ _ (map (fun v => f (g v) (h v)))); [reflexivity|].
    intros r. apply zip_exact_maps. reflexivity.
  - rewrite (zip_exact_maps _ _ _ (map (map (fun v => f (g v) (h v))))); [reflexivity|].
    intros r. apply zip_exact_maps. intros pixel. apply zip_exact_maps. reflexivity.
Qed.

Lemma arr_zip_map_r {A C D} (f : A -> C -> D) (h : A -> C) (x : ndarray A) :
  arr_zip f x (arr_map h x) = Ok (arr_map (fun v => f v (h v)) x).
Proof.
  rewrite <- (arr_map_id_in (fun v => v) x) at 1
    by (apply Forall_forall; reflexivity).
  apply arr_zip_maps.
Qed.

Lemma stack_pixels_cons {A} (f g : ndarray A) rest :
  stack_pixels (f :: g :: rest) = (r <- stack_pixels (g :: rest) ;; arr_zip cons f r)%result.
Proof. reflexivity. Qed.

(** [np.array] of [k] copies of one array. *)
Lemma stack_pixels_repeat {A} (x : ndarray A) k :
  stack_pixels (repeat x (S k)) = Ok (arr_map (fun v => repeat v (S k)) x).
Proof.
  induction k as [|k IH]; [reflexivity|].
  cbn [repeat] in *. rewrite stack_pixels_cons, IH. cbn [rbind].
  apply arr_zip_map_r.
Qed.

Lemma sort_by_repeat (q : Q) k : sort_by Qle_bool (repeat q k) = repeat q k.
Proof.
  induction k as [|k IH]; [reflexivity|].
  change (sort_by Qle_bool (repeat q (S k)))
    with (insert_by Qle_bool q (sort_by Qle_bool (repeat q k))).
  rewrite IH. destruct k; [reflexivity|]. cbn [repeat insert_by].
  assert (E : Qle_bool q q = true) by (apply Qle_bool_iff, Qle_refl).
  rewrite E. reflexivity.
Qed.

Lemma nth_repeat_lt {A} (a d : A) i k : (i < k)%nat -> nth i (repeat a k) d = a.
Proof.
  revert i. induction k as [|k IH]; intros [|i] H; cbn [repeat nth]; try lia; try reflexivity.
  apply IH. lia.
Qed.

(** The median of equal values, before it is cast. *)
Lemma median_repeat (q : Q) k :
  median (repeat q (S k)) = if Nat.even (S k) then ((q + q) / 2)%Q else q.
Proof.
  unfold median. rewrite sort_by_repeat, repeat_length.
  assert (H2 : (S k / 2 < S k)%nat) by (apply Nat.div_lt; lia).
  destruct (Nat.even (S k)).
  - rewrite !nth_repeat_lt by lia. reflexivity.
  - rewrite nth_repeat_lt by lia. reflexivity.
Qed.

Lemma astype_of_sample d v : 0 <= v <= iinfo_max d -> astype d (inject_Z v) = v.
Proof.
  intros H. unfold astype, inject_Z. cbn [Qnum Qden]. rewrite Z.quot_1_r.
  apply Z.mod_small. lia.
Qed.

Lemma astype_of_double d v :
  0 <= v <= iinfo_max d -> astype d ((inject_Z v + inject_Z v) / 2) = v.
Proof.
  intros H. unfold astype, inject_Z, Qdiv, Qplus, Qmult, Qinv. cbn [Qnum Qden].
  change (Z.pos (1 * 1 * 2)) with 2. rewrite Z.quot_div_nonneg by lia.
  replace ((v * 1 + v * 1) * 1) with (v * 2) by lia.
  rewrite Z.div_mul by discriminate. apply Z.mod_small. lia.
Qed.

Lemma astype_of_mean d v n :
  1 <= n -> 0 <= v <= iinfo_max d -> astype d ((n * v # 1) / inject_Z n) = v.
Proof.
  intros Hn H. destruct n as [|p|p]; try lia.
  unfold astype, inject_Z, Qdiv, Qmult, Qinv. cbn [Qnum Qden].
  change (Z.pos (1 * p)) with (Z.pos p). rewrite Z.quot_div_nonneg by nia.
  replace (Z.pos p * v * 1) with (v * Z.pos p) by lia.
  rewrite Z.div_mul by discriminate. apply Z.mod_small. lia.
Qed.

End ArrayFacts.

Section EqualFrames.
Context {cv : OpenCV} {CB : Type}.
Import FrameStacker.

Lemma read_equal vf f l acc :
  (forall i, In i l -> parser_get_frame vf i = Ok f) ->
  fold_steps (step_read vf) l acc = Ok (acc ++ repeat f (length l)).
Proof.
  revert acc. induction l as [|i l IH]; intros acc H; cbn [fold_steps length repeat].
  - rewrite app_nil_r. reflexivity.
  - unfold step_read at 1. rewrite (H i (or_introl eq_refl)). cbn [rbind].
    rewrite IH by (intros j I; apply H; right; exact I).
    rewrite <- app_assoc. reflexivity.
Qed.

Lemma sum_equal vf f l k :
  (forall i, In i l -> parser_get_frame vf i = Ok f) ->
  fold_steps (step_sum vf) l (arr_map (fun v => Z.of_nat k * v # 1) (px f))
  = Ok (arr_map (fun v => Z.of_nat (k + length l) * v # 1) (px f)).
Proof.
  revert k. induction l as [|i l IH]; intros k H; cbn [fold_steps length].
  - rewrite Nat.add_0_r. reflexivity.
  - unfold step_sum at 1. rewrite (H i (or_introl eq_refl)). cbn [rbind].
    unfold add_frame. rewrite arr_zip_maps. cbn [rbind].
    replace (k + S (length l))%nat with (S k + length l)%nat by lia.
    rewrite <- IH by (intros j I; apply H; right; exact I).
    f_equal. apply arr_map_ext_in, Forall_forall. intros v _.
    unfold Qplus, inject_Z. cbn [Qnum Qden]. f_equal. lia.
Qed.

(** X21: a stack of equal frames is that frame: when every frame of the
    file is the same array, with samples within its type, then averaging
    or taking the median of them, without alignment and without stretch,
    returns the frame itself. *)
Theorem stack_of_equal_frames vf (f : frame) method thr (s : CB) :
  is_video vf = false ->
  1 <= header_frame_count vf ->
  (forall i, 0 <= i < header_frame_count vf -> parser_get_frame vf i = Ok f) ->
  Forall (fun v => 0 <= v <= iinfo_max (dtype_of f)) (arr_flat (px f)) ->
  method <> "sum"%string ->
  stack_frames vf method None false false thr s = (s, Ok f).
Proof.
  intros V Hn Hf Hv Hm.
  set (n := header_frame_count vf) in *.
  assert (Hr : forall i, In i (range 0 n) -> parser_get_frame vf i = Ok f)
    by (intros i I; apply Hf, In_range, I).
  assert (Ln : length (range 0 n) = Z.to_nat n)
    by (rewrite length_range; f_equal; lia).
  assert (Ef : forall x : ndarray Z, x = px f ->
                 {| dtype_of := dtype_of f; px := x |} = f)
    by (intros x ->; destruct f; reflexivity).
  unfold stack_frames. rewrite V. fold n.
  rewrite bind_lift, (Hf 0) by lia.
  destruct (String.eqb method "median") eqn:Em.
  - unfold bind at 1. rewrite read_all_loop, for_each_silent. fold n.
    rewrite (read_equal vf f _ [] Hr), Ln. cbn [app].
    unfold bind, lift, ret. unfold median_stack. rewrite map_repeat.
    destruct (Z.to_nat n) as [|k] eqn:Ek; [lia|].
    rewrite stack_pixels_repeat. cbn [rbind]. unfold finish.
    do 2 f_equal. apply Ef. rewrite !arr_map_map.
    apply arr_map_id_in. revert Hv. apply Forall_impl. intros v Hv.
    rewrite median_repeat. destruct (Nat.even (S k));
      [apply astype_of_double | apply astype_of_sample]; exact Hv.
  - destruct (String.eqb method "sum") eqn:Es;
      [apply String.eqb_eq in Es; contradiction|].
    unfold bind at 1. rewrite sum_all_loop, for_each_silent. fold n.
    assert (Z0 : zeros_like f = arr_map (fun v => Z.of_nat 0 * v # 1) (px f)).
    { unfold zeros_like. apply arr_map_ext_in, Forall_forall. intros v _. reflexivity. }
    rewrite Z0, (sum_equal vf f _ 0 Hr), Ln. cbn [Nat.add].
    unfold ret, finish. do 2 f_equal. apply Ef. rewrite !arr_map_map.
    apply arr_map_id_in. revert Hv. apply Forall_impl. intros v Hv.
    rewrite Z2Nat.id by lia. apply astype_of_mean; [exact Hn | exact Hv].
Qed.

End EqualFrames.

Section StackingExamples.
Import FrameStacker.


Lemma stack_of_equal_frames_witness :
  exists vf f,
    open_ser Examples.three_alike = Ok vf /\
    parser_get_frame vf 0 = Ok f /\
    stack_frames (cv := Examples.cv_still) vf "median" None false false 0 tt = (tt, Ok f).
Proof.
  destruct (open_ser Examples.three_alike) as [vf|e] eqn:E;
    [|vm_compute in E; discriminate].
  destruct (parser_get_frame vf 0) as [f|e] eqn:G0.
  - exists vf, f. split; [reflexivity|]. split; [exact G0|].
    apply (stack_of_equal_frames (cv := Examples.cv_still) vf f "median" 0 tt).
    + vm_compute in E. injection E as <-. reflexivity.
    + vm_compute in E. injection E as <-. vm_compute. discriminate.
    + intros i Hi. vm_compute in E. injection E as <-.
      vm_compute in G0. injection G0 as <-.
      assert (Hc : i = 0 \/ i = 1 \/ i = 2) by (cbn in Hi; lia).
      destruct Hc as [-> | [-> | ->]]; vm_compute; reflexivity.
    + vm_compute in E. injection E as <-. vm_compute in G0. injection G0 as <-.
      cbn. repeat constructor; cbn; lia.
    + discriminate.
  - exfalso. vm_compute in E. injection E as <-. vm_compute in G0. discriminate.
Defined.

End StackingExamples.

(** ** The cache behind the display *)

Section CacheEntries.
Import FrameCache.
Context {V : Type}.

Lemma In_without_entry (d : list (Z * V)) k x : In x (without V d k) -> In x d.
Proof. unfold without. intros I. apply filter_In in I. exact (proj1 I). Qed.

Lemma In_move_to_end (d : list (Z * V)) k x : In x (move_to_end V d k) -> In x d.
Proof.
  unfold move_to_end. destruct (find (has_key V k) d) as [kv|] eqn:F; [|exact (fun I => I)].
  intros I. apply in_app_or in I. destruct I as [I|[<-|[]]].
  - exact (In_without_entry _ _ _ I).
  - exact (proj1 (find_some _ _ F)).
Qed.

Lemma In_set_item (d : list (Z * V)) k v x :
  In x (set_item V d k v) -> x = (k, v) \/ In x d.
Proof.
  unfold set_item. destruct (contains V d k).
  - intros I. apply in_map_iff in I. destruct I as (y & E & I).
    destruct (has_key V k y); [left; symmetry; exact E | right; subst; exact I].
  - intros I. apply in_app_or in I. destruct I as [I|[<-|[]]]; [right; exact I | left; reflexivity].
Qed.

(** [put] adds the entry it is given and nothing else. *)
Lemma In_put (c : t V) k v x :
  In x (_cache V (put V c k v)) -> x = (k, v) \/ In x (_cache V c).
Proof.
  unfold put. destruct (contains V (_cache V c) k).
  - cbn [_cache with_cache]. intros I. apply In_set_item in I.
    destruct I as [I|I]; [left; exact I | right; exact (In_move_to_end _ _ _ I)].
  - destruct (Z.of_nat (length (set_item V (_cache V c) k v)) >? max_size V c);
      cbn [_cache with_cache]; intros I.
    + apply In_set_item. unfold pop_first in I.
      destruct (set_item V (_cache V c) k v); [destruct I | right; exact I].
    + apply In_set_item. exact I.
Qed.

(** [get] adds nothing, and what it returns is an entry. *)
Lemma In_get (c : t V) k x : In x (_cache V (fst (get V c k))) -> In x (_cache V c).
Proof.
  unfold get. destruct (contains V (_cache V c) k); cbn [fst _cache with_cache];
    [apply In_move_to_end | exact (fun I => I)].
Qed.

Lemma get_Some (c : t V) k v : snd (get V c k) = Some v -> In (k, v) (_cache V c).
Proof.
  unfold get. destruct (contains V (_cache V c) k); cbn [snd]; [|discriminate].
  unfold lookup. destruct (find (has_key V k) (move_to_end V (_cache V c) k))
    as [[k' v']|] eqn:F; cbn [option_map snd]; [|discriminate].
  intros [= ->]. apply find_some in F. destruct F as [I E].
  unfold has_key in E. cbn [fst] in E. apply Z.eqb_eq in E. subst k'.
  exact (In_move_to_end _ _ _ I).
Qed.

Lemma In_prefetch (c : t V) l f x :
  In x (_cache V (prefetch V c l f)) ->
  In x (_cache V c) \/ exists k, In k l /\ f k = Ok (snd x) /\ fst x = k.
Proof.
  revert c. induction l as [|k l IH]; intros c; cbn [prefetch]; [left; assumption|].
  assert (W : forall c', (In x (_cache V c') -> In x (_cache V c) \/
                            exists k0, In k0 (k :: l) /\ f k0 = Ok (snd x) /\ fst x = k0) ->
              In x (_cache V (prefetch V c' l f)) ->
              In x (_cache V c) \/
              exists k0, In k0 (k :: l) /\ f k0 = Ok (snd x) /\ fst x = k0).
  { intros c' Hc' I. destruct (IH c' I) as [I'|(k0 & I0 & E0)]; [exact (Hc' I')|].
    right. exists k0. split; [right; exact I0 | exact E0]. }
  destruct (contains V (_cache V c) k); [apply W; left; assumption|].
  destruct (f k) as [v|e] eqn:E; [|apply W; left; assumption].
  apply W. intros I. apply In_put in I. destruct I as [->|I]; [|left; exact I].
  right. exists k. split; [left; reflexivity|]. split; [exact E | reflexivity].
Qed.

End CacheEntries.

Section DisplayFacts2.
Import FileManager.
Variable HAS_OPENCV : bool.
Variable cv2_cvtColor : ndarray Z -> ImageProcessor.cv2_code -> result ImageProcessor.image.
Variable debayer_simple : ndarray Z -> string -> result ImageProcessor.image.
Variable CYYM_PATTERN : string.

(** X22: the cache behind [get_display_frame] is transparent.  A newly
    opened file has a coherent cache (every cached frame is the processed
    frame of its index); [get_display_frame], [prefetch_frames] and [close]
    keep it coherent; and with a coherent cache [get_display_frame] returns,
    or raises, exactly what reading and processing the frame anew would. *)
Theorem display_cache_is_transparent (vf : t) (i : Z) (l : list Z) :
  let fetch_func := fetch_func HAS_OPENCV cv2_cvtColor debayer_simple CYYM_PATTERN in
  let get_display_frame :=
    get_display_frame HAS_OPENCV cv2_cvtColor debayer_simple CYYM_PATTERN in
  let prefetch_frames := prefetch_frames HAS_OPENCV cv2_cvtColor debayer_simple CYYM_PATTERN in
  let coherent := coherent HAS_OPENCV cv2_cvtColor debayer_simple CYYM_PATTERN in
  (forall contents cache_size vf0, init contents cache_size = Ok vf0 -> coherent vf0) /\
  (coherent vf ->
   snd (get_display_frame vf i) = fetch_func vf i /\
   coherent (fst (get_display_frame vf i)) /\
   coherent (prefetch_frames vf l) /\
   coherent (close vf)).
Proof.
  cbv zeta. split.
  - intros contents size vf0. unfold init.
    destruct (SERParser.parse_header (SERParser.init contents)) as [[p h]|e];
      cbn [rbind]; [|discriminate].
    intros [= <-] k v []. 
  - intros C. split; [|split; [|split]].
    + unfold get_display_frame, fetch_func.
      destruct (FrameCache.get _ (cache vf) i) as [c [im|]] eqn:G; cbn [snd].
      * pose proof (get_Some (cache vf) i im) as I. rewrite G in I.
        specialize (C i im (I eq_refl)). unfold fetch_func in C. symmetry. exact C.
      * destruct (SERParser.get_frame (parser vf) i) as [raw|e]; cbn [rbind snd];
          [|reflexivity].
        destruct (ImageProcessor.process_frame _ _ _ _ _ _ _); reflexivity.
    + intros k v. unfold get_display_frame.
      pose proof (In_get (cache vf) i (k, v)) as Ig.
      destruct (FrameCache.get _ (cache vf) i) as [c [im|]] eqn:G; cbn [fst] in *.
      * cbn [cache with_cache]. intros I. exact (C k v (Ig I)).
      * destruct (SERParser.get_frame (parser vf) i) as [raw|e] eqn:R;
          [|cbn [fst cache with_cache]; intros I; exact (C k v (Ig I))].
        destruct (ImageProcessor.process_frame _ _ _ _ _ _ _) as [pr|e] eqn:P;
          [|cbn [fst cache with_cache]; intros I; exact (C k v (Ig I))].
        cbn [fst cache with_cache]. intros I. apply In_put in I.
        destruct I as [[= -> ->]|I]; [|exact (C k v (Ig I))].
        unfold fetch_func. cbn [parser header with_cache]. rewrite R. cbn [rbind]. exact P.
    + intros k v. unfold prefetch_frames. cbn [cache with_cache]. intros I.
      apply In_prefetch in I. destruct I as [I|(k0 & _ & E & K)]; [exact (C k v I)|].
      cbn [fst snd] in *. subst k0. exact E.
    + intros k v []. 
Qed.

(** X23: [get_frame_info] never fails: it reports the index it was asked
    about, and reports no timestamp when the container has no trailer or
    the index is not one of the file's frames: the index error of
    [get_timestamp] is swallowed.  (What it reports for a frame of a
    container with a trailer is the [datetime] of [get_timestamp], or
    nothing when that conversion raises; this is not part of the statement.) *)
Theorem get_frame_info_timestamp contents cache_size (vf : t) (i : Z) :
  init contents cache_size = Ok vf ->
  let p := parser vf in
  let h := header vf in
  frame_index (get_frame_info vf i) = i /\
  (SERParser.has_timestamps p = false \/ (i < 0) \/ (SERParser.frame_count h <= i) ->
   timestamp (get_frame_info vf i) = None).
Proof.
  unfold init.
  destruct (SERParser.parse_header (SERParser.init contents)) as [[p h]|e] eqn:E;
    cbn [rbind]; [|discriminate].
  intros [= <-]. cbn [parser header]. split; [reflexivity|].
  intros H. unfold get_frame_info. cbn [timestamp parser].
  destruct (SERParser.has_timestamps p) eqn:T; [|reflexivity].
  destruct H as [H|H]; [discriminate|].
  pose proof (parse_header_Ok _ _ _ E) as (_ & Hp & _).
  unfold SERParser.get_timestamp. unfold SERParser.has_timestamps in T.
  rewrite Hp, T. cbn [negb].
  assert (B : (i <? 0) || (i >=? SERParser.frame_count h) = true).
  { apply orb_true_iff. destruct H as [H|H]; [left; apply Z.ltb_lt; exact H|].
    right. rewrite Z.geb_leb. apply Z.leb_le. exact H. }
  rewrite B. reflexivity.
Qed.

End DisplayFacts2.

Section DisplayExamples.
Import FileManager.

Lemma display_cache_is_transparent_witness :
  exists vf0,
    init Examples.five_frames 2 = Ok vf0 /\
    let get_display_frame :=
      get_display_frame false Examples.cvtColor_unavailable
        Examples.debayer_simple_unreached "CYYM" in
    let vf := fst (get_display_frame vf0 3) in
    FrameCache.mem _ (cache vf) 3 = true /\
    snd (get_display_frame vf 3)
    = fetch_func false Examples.cvtColor_unavailable
        Examples.debayer_simple_unreached "CYYM" vf 3.
Proof.
  destruct (init Examples.five_frames 2) as [vf0|e] eqn:E;
    [|vm_compute in E; discriminate].
  exists vf0. split; [reflexivity|]. cbv zeta.
  split; [vm_compute in E; injection E as <-; vm_compute; reflexivity|].
  refine (proj1 (proj2 (display_cache_is_transparent false Examples.cvtColor_unavailable
                          Examples.debayer_simple_unreached "CYYM"
                          (fst (get_display_frame false Examples.cvtColor_unavailable
                                  Examples.debayer_simple_unreached "CYYM" vf0 3)) 3 []) _)).
  vm_compute in E. injection E as <-. intros k v I.
  vm_compute in I. destruct I as [I|[]]. injection I as <- <-. vm_compute. reflexivity.
Defined.

Lemma get_frame_info_timestamp_witness :
  exists vf,
    init Examples.five_frames_stamped 2 = Ok vf /\
    timestamp (get_frame_info vf 7) = None.
Proof.
  destruct (init Examples.five_frames_stamped 2) as [vf|e] eqn:E;
    [|vm_compute in E; discriminate].
  exists vf. split; [reflexivity|].
  refine (proj2 (get_frame_info_timestamp _ 2 vf 7 E) _).
  right. right. vm_compute in E. injection E as <-. vm_compute. discriminate.
Defined.

End DisplayExamples.

(** ** The arrangement chosen for a camera *)

Section PatternFacts.
Import ImageProcessor.
Open Scope string_scope.

Lemma prefix_refl s : String.prefix s s = true.
Proof.
  induction s as [|c s IH]; [reflexivity|]. cbn [String.prefix].
  destruct (ascii_dec c c) as [_|N]; [exact IH | contradiction].
Qed.

Lemma occurs_refl s : occurs s s = true.
Proof. destruct s; cbn [occurs]; rewrite prefix_refl; reflexivity. Qed.

Lemma table_values :
  Forall (fun kv => snd kv = "YCMY" /\ fst kv <> "") CAMERA_CYYM_PATTERNS.
Proof. repeat constructor; discriminate. Qed.

Lemma occurs_in_empty needle : needle <> "" -> occurs needle "" = false.
Proof. destruct needle; [contradiction | reflexivity]. Qed.

Lemma str_upper_empty s : str_upper s = "" -> s = "".
Proof. destruct s; [reflexivity | discriminate]. Qed.

(** X24: the arrangement chosen from the camera name is CYYM or YCMY, never
    one of the other two; it is YCMY exactly when the name, letter case
    aside, contains the name of one of the five cameras of the table; so
    two names that differ only in letter case get the same arrangement. *)
Theorem detect_cyym_pattern_choice (instrument : string) :
  (detect_cyym_pattern instrument = "CYYM" \/ detect_cyym_pattern instrument = "YCMY") /\
  (detect_cyym_pattern instrument = "YCMY" <->
   exists camera_name, In camera_name (map fst CAMERA_CYYM_PATTERNS) /\
                       occurs (str_upper camera_name) (str_upper instrument) = true) /\
  (forall other, str_upper other = str_upper instrument ->
                 detect_cyym_pattern other = detect_cyym_pattern instrument).
Proof.
  assert (V := table_values). rewrite Forall_forall in V.
  assert (Two : forall s, detect_cyym_pattern s = "CYYM" \/ detect_cyym_pattern s = "YCMY").
  { intros s. unfold detect_cyym_pattern. destruct (String.eqb s ""); [left; reflexivity|].
    unfold dict_get.
    destruct (find (fun kv => String.eqb (fst kv) s) CAMERA_CYYM_PATTERNS) as [kv|] eqn:F.
    - right. apply find_some in F. apply (V kv), F.
    - cbn [option_map].
      destruct (find (fun kv => occurs (str_upper (fst kv)) (str_upper s))
                     CAMERA_CYYM_PATTERNS) as [kv|] eqn:G; [|left; reflexivity].
      right. apply find_some in G. apply (V kv), G. }
  assert (Iff : forall s, detect_cyym_pattern s = "YCMY" <->
            exists name, In name (map fst CAMERA_CYYM_PATTERNS) /\
                         occurs (str_upper name) (str_upper s) = true).
  { intros s. unfold detect_cyym_pattern. split.
    - destruct (String.eqb s ""); [discriminate|].
      unfold dict_get.
      destruct (find (fun kv => String.eqb (fst kv) s) CAMERA_CYYM_PATTERNS) as [kv|] eqn:F.
      + intros _. apply find_some in F. destruct F as [I E].
        apply String.eqb_eq in E. exists (fst kv).
        split; [apply in_map, I|]. rewrite E. apply occurs_refl.
      + cbn [option_map].
        destruct (find (fun kv => occurs (str_upper (fst kv)) (str_upper s))
                       CAMERA_CYYM_PATTERNS) as [kv|] eqn:G; [|discriminate].
        intros _. apply find_some in G. destruct G as [I E].
        exists (fst kv). split; [apply in_map, I | exact E].
    - intros (name & I & O). apply in_map_iff in I. destruct I as (kv & <- & I).
      destruct (String.eqb_spec s "") as [->|_].
      + cbn [str_upper] in O. rewrite occurs_in_empty in O; [discriminate|].
        intros E. apply str_upper_empty in E. exact (proj2 (V kv I) E).
      + unfold dict_get.
        destruct (find (fun kv => String.eqb (fst kv) s) CAMERA_CYYM_PATTERNS) as [kv'|] eqn:F.
        * apply find_some in F. apply (V kv'), F.
        * cbn [option_map].
          destruct (find (fun kv => occurs (str_upper (fst kv)) (str_upper s))
                         CAMERA_CYYM_PATTERNS) as [kv'|] eqn:G.
          -- apply find_some in G. apply (V kv'), G.
          -- exfalso. pose proof (find_none _ _ G kv I) as N. cbn beta in N. congruence. }
  split; [apply Two|]. split; [apply Iff|].
  intros other E.
  destruct (Two instrument) as [A|A]; rewrite A.
  - destruct (Two other) as [B|B]; [exact B|]. exfalso.
    apply Iff in B. rewrite E in B. apply Iff in B. rewrite A in B. discriminate.
  - apply Iff. rewrite E. apply Iff. exact A.
Qed.

Lemma detect_cyym_pattern_choice_witness :
  detect_cyym_pattern "zwo asi294mc pro" = detect_cyym_pattern "ZWO ASI294MC Pro" /\
  detect_cyym_pattern "ZWO ASI294MC Pro" = "YCMY".
Proof.
  split.
  - apply (proj2 (proj2 (detect_cyym_pattern_choice "ZWO ASI294MC Pro"))). reflexivity.
  - reflexivity.
Defined.

End PatternFacts.

(** ** Navigation and playback *)

Section NavigationFacts.
Import NavigationController.

Lemma serve_in_file c r :
  in_file c ->
  total_frames (fst (serve c r)) = total_frames c /\
  in_file (fst (serve c r)) /\
  (snd (serve c r) = [] /\ fst (serve c r) = c \/
   snd (serve c r) = [current_frame (fst (serve c r))]).
Proof.
  unfold in_file. intros H.
  destruct r as [| | | |i]; cbn [serve]; unfold next_frame, previous_frame, first_frame,
    last_frame, goto_frame.
  - destruct (current_frame c <? total_frames c - 1) eqn:E; cbn [fst snd set_current
      total_frames current_frame]; [apply Z.ltb_lt in E|]; repeat split; try lia; auto.
  - destruct (current_frame c >? 0) eqn:E; cbn [fst snd set_current
      total_frames current_frame]; [apply Z.gtb_lt in E|]; repeat split; try lia; auto.
  - cbn [fst snd set_current total_frames current_frame]. repeat split; try lia; auto.
  - cbn [fst snd set_current total_frames current_frame]. repeat split; try lia; auto.
  - destruct ((0 <=? i) && (i <? total_frames c)) eqn:E; cbn [fst snd set_current
      total_frames current_frame]; repeat split; try lia; auto.
Qed.

(** X25: navigation stays within the file.  From a controller made for a
    file of one or more frames, whatever is requested (next, previous,
    first, last, any index), the current frame stays one of the file's
    frames, the frame count is never changed, and [frame_callback] is only
    ever called with an index of the file; a request for an index outside
    the file changes nothing and shows nothing. *)
Theorem navigation_stays_in_file (total : Z) (rs : list request) :
  1 <= total ->
  let c := fst (session (init total) rs) in
  total_frames c = total /\
  0 <= current_frame c < total /\
  Forall (fun i => 0 <= i < total) (snd (session (init total) rs)) /\
  (forall i, i < 0 \/ total <= i -> goto_frame c i = (c, [])).
Proof.
  intros Ht.
  assert (G : forall c rs, in_file c ->
            total_frames (fst (session c rs)) = total_frames c /\
            in_file (fst (session c rs)) /\
            Forall (fun i => 0 <= i < total_frames c) (snd (session c rs))).
  { intros c rs0. revert c. induction rs0 as [|r rs0 IH]; intros c H; cbn [session].
    - cbn [fst snd]. repeat split; try apply H. constructor.
    - pose proof (serve_in_file c r H) as (T1 & I1 & S1).
      destruct (serve c r) as [c1 shown1]. cbn [fst snd] in *.
      pose proof (IH c1 I1) as (T2 & I2 & S2).
      destruct (session c1 rs0) as [c2 shown2]. cbn [fst snd] in *.
      split; [congruence|]. split; [exact I2|].
      apply Forall_app. split; [|rewrite <- T1; exact S2].
      destruct S1 as [[-> _]| ->]; [constructor|].
      constructor; [|constructor]. unfold in_file in I1. rewrite T1 in I1. exact I1. }
  assert (I0 : in_file (init total)) by (unfold in_file, init; cbn; lia).
  destruct (G (init total) rs I0) as (T & I & S). cbn [init total_frames] in *.
  cbv zeta. unfold in_file in I. rewrite T in I.
  split; [exact T|]. split; [exact I|]. split; [exact S|].
  intros i Hi. unfold goto_frame. rewrite T.
  assert (E : (0 <=? i) && (i <? total) = false).
  { apply andb_false_iff. destruct Hi as [Hi|Hi]; [left; apply Z.leb_gt | right; apply Z.ltb_ge];
      exact Hi. }
  rewrite E. reflexivity.
Qed.

Lemma navigation_stays_in_file_witness :
  current_frame (fst (session (init 5) [Last; Next; Goto 7; Previous])) = 3 /\
  Forall (fun i => 0 <= i < 5) (snd (session (init 5) [Last; Next; Goto 7; Previous])).
Proof.
  split; [reflexivity|].
  refine (proj1 (proj2 (proj2 (navigation_stays_in_file 5 [Last; Next; Goto 7; Previous] _)))).
  lia.
Defined.

End NavigationFacts.

Section PlaybackFacts.
Import NavigationController PlaybackController.

Lemma advance_paused c : is_playing c = false -> _advance_frame c = (c, [], None).
Proof. intros H. unfold _advance_frame. rewrite H. reflexivity. Qed.

Lemma ticks_paused k c : is_playing c = false -> ticks k c = (c, [], None).
Proof.
  induction k as [|k IH]; intros H; cbn [ticks]; [reflexivity|].
  rewrite (advance_paused c H), (IH H). reflexivity.
Qed.

Lemma prefetch_window current total :
  0 <= current ->
  let l := range (current + 1) (Z.min (current + 6) total) in
  (length l <= 5)%nat /\ Forall (fun i => 0 < i < total) l.
Proof.
  intros H l. subst l. split.
  - rewrite length_range. lia.
  - apply Forall_forall. intros i I. apply In_range in I. lia.
Qed.

(** One firing of the timer while playing. *)
Lemma advance_playing c :
  in_file (nav_controller c) -> is_playing c = true -> fps c <> 0 ->
  let cur := current_frame (nav_controller c) in
  let total := total_frames (nav_controller c) in
  exists c1 events,
    _advance_frame c = (c1, events, None) /\
    fps c1 = fps c /\
    total_frames (nav_controller c1) = total /\
    current_frame (nav_controller c1) = Z.min (cur + 1) (total - 1) /\
    is_playing c1 = (cur + 1 <=? total - 1) /\
    Forall (event_within total (fps c)) events.
Proof.
  intros Hn Hp Hf cur total. unfold in_file in Hn. fold cur total in Hn.
  pose proof (prefetch_window cur total (proj1 Hn)) as (L5 & Lr). cbv zeta in L5, Lr.
  assert (Pf : Forall (event_within total (fps c))
                 (if prefetch_callback c
                  then match range (cur + 1) (Z.min (cur + 6) total) with
                       | [] => []
                       | _ :: _ => [Prefetch (range (cur + 1) (Z.min (cur + 6) total))]
                       end
                  else [])).
  { destruct (prefetch_callback c); [|constructor].
    destruct (range (cur + 1) (Z.min (cur + 6) total)) as [|i l] eqn:E; constructor;
      [|constructor].
    cbn [event_within]. split; [discriminate|]. split; assumption. }
  unfold _advance_frame. rewrite Hp. cbn [negb]. unfold get_current_frame.
  fold cur total. destruct (cur <? total - 1) eqn:E.
  - apply Z.ltb_lt in E. unfold next_frame. fold cur total.
    assert (E' : (cur <? total - 1) = true) by (apply Z.ltb_lt; exact E).
    rewrite E'. cbn [set_nav timer_callback is_playing fps map]. rewrite Hp, andb_true_r.
    assert (Sh : event_within total (fps c) (Show (cur + 1))) by (cbn [event_within]; lia).
    assert (B : (cur + 1 <=? total - 1) = true) by (apply Z.leb_le; lia).
    destruct (timer_callback c).
    + destruct (fps c =? 0) eqn:F; [apply Z.eqb_eq in F; contradiction|].
      eexists. eexists. split; [reflexivity|].
      cbn [fps nav_controller is_playing set_current set_nav total_frames current_frame].
      fold total. rewrite ?Hp, B.
      split; [reflexivity|]. split; [reflexivity|]. split; [lia|]. split; [reflexivity|].
      apply Forall_app. split; [apply Forall_app; split; [exact Pf|]|].
      * constructor; [exact Sh | constructor].
      * constructor; [reflexivity | constructor].
    + eexists. eexists. split; [reflexivity|].
      cbn [fps nav_controller is_playing set_current set_nav total_frames current_frame].
      fold total. rewrite ?Hp, B.
      split; [reflexivity|]. split; [reflexivity|]. split; [lia|]. split; [reflexivity|].
      apply Forall_app. split; [exact Pf|]. constructor; [exact Sh | constructor].
  - apply Z.ltb_ge in E. eexists. eexists. split; [reflexivity|].
    cbn [set_playing fps nav_controller is_playing]. fold cur total.
    assert (B : (cur + 1 <=? total - 1) = false) by (apply Z.leb_gt; lia).
    rewrite B.
    split; [reflexivity|]. split; [reflexivity|]. split; [lia|]. split; [reflexivity|].
    exact Pf.
Qed.

(** X26: playback runs to the last frame and stops there.  While playing,
    with a frame rate other than 0, the timer firing [k] times moves the
    current frame [k] steps on, or to the last frame if that comes first;
    playing ends with the firing that finds the last frame current, and
    nothing raises.  Every prefetch request on the way names at most five
    frames, all of the file and ahead of the first; every frame shown is
    one of the file; every delay is [int(1000 / fps)]. *)
Theorem playback_runs_to_the_end (c : t) (k : nat) :
  in_file (nav_controller c) -> is_playing c = true -> fps c <> 0 ->
  let cur := current_frame (nav_controller c) in
  let total := total_frames (nav_controller c) in
  exists c' events,
    ticks k c = (c', events, None) /\
    total_frames (nav_controller c') = total /\
    current_frame (nav_controller c') = Z.min (cur + Z.of_nat k) (total - 1) /\
    is_playing c' = (cur + Z.of_nat k <=? total - 1) /\
    Forall (event_within total (fps c)) events.
Proof.
  revert c. induction k as [|k IH]; intros c Hn Hp Hf cur total.
  - exists c, []. cbn [ticks]. unfold in_file in Hn. fold cur total in Hn.
    split; [reflexivity|]. split; [reflexivity|]. split; [lia|].
    split; [|constructor]. rewrite Hp. symmetry. apply Z.leb_le. lia.
  - destruct (advance_playing c Hn Hp Hf) as (c1 & ev1 & A & F1 & T1 & C1 & P1 & E1).
    fold cur total in T1, C1, P1, E1. cbn [ticks]. rewrite A.
    unfold in_file in Hn. fold cur total in Hn.
    destruct (cur + 1 <=? total - 1) eqn:B.
    + apply Z.leb_le in B.
      assert (Hn1 : in_file (nav_controller c1)) by (unfold in_file; lia).
      assert (Hf1 : fps c1 <> 0) by (rewrite F1; exact Hf).
      destruct (IH c1 Hn1 P1 Hf1) as (c2 & ev2 & A2 & T2 & C2 & P2 & E2).
      rewrite A2. exists c2, (ev1 ++ ev2). split; [reflexivity|].
      rewrite T1 in *. rewrite C1 in *. rewrite F1 in E2.
      split; [exact T2|]. split; [lia|]. split.
      * rewrite P2. replace (Z.min (cur + 1) (total - 1) + Z.of_nat k)
          with (cur + Z.of_nat (S k)) by lia. reflexivity.
      * apply Forall_app. split; assumption.
    + apply Z.leb_gt in B. rewrite (ticks_paused k c1 P1).
      exists c1, (ev1 ++ []). split; [reflexivity|].
      split; [exact T1|]. split; [lia|]. split.
      * rewrite P1. symmetry. apply Z.leb_gt. lia.
      * rewrite app_nil_r. exact E1.
Qed.

Lemma playback_runs_to_the_end_witness :
  exists c' events,
    ticks 7 (set_playing (set_timer_callback (init (NavigationController.init 5) true)) true)
    = (c', events, None) /\
    current_frame (nav_controller c') = 4 /\ is_playing c' = false.
Proof.
  destruct (playback_runs_to_the_end
              (set_playing (set_timer_callback (init (NavigationController.init 5) true)) true) 7)
    as (c' & events & T & _ & C & P & _).
  - unfold in_file. cbn. lia.
  - reflexivity.
  - discriminate.
  - exists c', events. split; [exact T|]. split; [exact C | exact P].
Defined.

End PlaybackFacts.

(** ** The cyan-yellow-magenta reconstruction on even frames *)

Section EvenFrames.
Import ImageProcessor.
Variable HAS_OPENCV : bool.
Variable cv2_cvtColor : ndarray Z -> cv2_code -> result image.
Variable debayer_simple : ndarray Z -> string -> result image.
Variable CYYM_PATTERN : string.

Lemma quarter_shaped {A} i j (data : list (list A)) a b :
  shaped (2 * a) (2 * b) data -> shaped a b (quarter i j data).
Proof.
  intros [L F]. split.
  - unfold quarter. rewrite length_map, length_step2, L.
    destruct i; [apply Nat.div2_succ_double | apply Nat.div2_double].
  - pose proof (quarter_rows i j data (2 * b) F) as Q.
    revert Q. apply Forall_impl. intros r ->.
    destruct j; [apply Nat.div2_succ_double | apply Nat.div2_double].
Qed.

Lemma np_map_shaped {A B} (g : A -> B) x a b : shaped a b x -> shaped a b (np_map g x).
Proof.
  intros [L F]. split; [unfold np_map; rewrite length_map; exact L|].
  apply np_map_rows, F.
Qed.

Lemma sequence_map {A B} (g : A -> result B) (g' : A -> B) l :
  Forall (fun x => g x = Ok (g' x)) l -> sequence (map g l) = Ok (map g' l).
Proof.
  induction 1 as [|x l E _ IH]; cbn [map sequence]; [reflexivity|].
  rewrite E, IH. reflexivity.
Qed.

Lemma broadcast_same {A B} (F : A -> A -> result B) (F' : A -> A -> B) x y :
  length x = length y ->
  Forall (fun p => F (fst p) (snd p) = Ok (F' (fst p) (snd p))) (combine x y) ->
  broadcast F x y = Ok (map (fun p => F' (fst p) (snd p)) (combine x y)).
Proof.
  intros L H. unfold broadcast. rewrite L, Nat.eqb_refl.
  rewrite <- (sequence_map (fun p => F (fst p) (snd p))) by exact H.
  f_equal. apply map_ext. intros [u v]. reflexivity.
Qed.

Lemma Forall_combine {A B} (P : A -> Prop) (Q : B -> Prop) x y :
  Forall P x -> Forall Q y -> Forall (fun p => P (fst p) /\ Q (snd p)) (combine x y).
Proof.
  intros Hx. revert y. induction Hx as [|u x Hu _ IH]; intros y Hy; [constructor|].
  destruct Hy as [|v y Hv Hy]; cbn [combine]; constructor; [split; assumption|].
  apply IH, Hy.
Qed.

(** Arrays of one shape combine to an array of that shape. *)
Lemma np_binop_shaped f x y a b :
  shaped a b x -> shaped a b y ->
  exists z, np_binop f x y = Ok z /\ shaped a b z.
Proof.
  intros [Lx Fx] [Ly Fy]. unfold np_binop.
  pose proof (Forall_combine _ _ x y Fx Fy) as Fc.
  rewrite (broadcast_same _ (fun r1 r2 => map (fun p => f (fst p) (snd p)) (combine r1 r2))).
  - eexists. split; [reflexivity|]. split.
    + rewrite length_map, length_combine. lia.
    + apply Forall_map. revert Fc. apply Forall_impl. intros [r1 r2] [L1 L2].
      cbn [fst snd] in *. rewrite length_map, length_combine. lia.
  - lia.
  - revert Fc. apply Forall_impl. intros [r1 r2] [L1 L2]. cbn [fst snd] in *.
    apply broadcast_same; [lia|]. apply Forall_forall. reflexivity.
Qed.

(** Where output [j] of a zoom by two of [n] inputs reads: at or before the
    last input, and strictly before it when a right neighbour is mixed
    in. *)
Lemma zoom_reads_inside (n j : nat) :
  (1 <= n)%nat -> (j < 2 * n)%nat ->
  let cc := (inject_Z (Z.of_nat j)
             * (inject_Z (Z.of_nat n - 1) / inject_Z (Z.of_nat (2 * n) - 1)))%Q in
  let f := Qfloor cc in
  (Z.to_nat f < n)%nat /\
  (Qeq_bool (cc - inject_Z f) 0 = false -> (Z.to_nat f + 1 < n)%nat).
Proof.
  intros Hn Hj cc f.
  set (p := Z.of_nat n - 1) in *. set (q := Z.of_nat (2 * n) - 1) in *.
  assert (Hp : 0 <= p) by lia. assert (Hq : 0 < q) by lia.
  assert (Hjq : Z.of_nat j <= q) by lia.
  assert (Q0 : (0 < inject_Z q)%Q) by (change 0%Q with (inject_Z 0); rewrite <- Zlt_Qlt; exact Hq).
  assert (C0 : (0 <= cc)%Q).
  { unfold cc. apply Qmult_le_0_compat.
    - change 0%Q with (inject_Z 0). rewrite <- Zle_Qle. lia.
    - apply Qle_shift_div_l; [exact Q0|]. rewrite Qmult_0_l.
      change 0%Q with (inject_Z 0). rewrite <- Zle_Qle. exact Hp. }
  assert (C1 : (cc <= inject_Z p)%Q).
  { unfold cc, Qdiv. rewrite Qmult_assoc. apply Qle_shift_div_r; [exact Q0|].
    rewrite <- !inject_Z_mult, <- Zle_Qle. nia. }
  assert (F0 : 0 <= f) by (change 0 with (Qfloor 0); apply Qfloor_resp_le, C0).
  assert (F1 : f <= p) by (rewrite <- (Qfloor_Z p); apply Qfloor_resp_le, C1).
  split; [lia|].
  intros T. assert (f <> p); [|lia].
  intros E. assert (X : Qeq_bool (cc - inject_Z f) 0 = true); [|congruence].
  apply Qeq_bool_iff.
  assert (Lf : (inject_Z f <= cc)%Q) by apply Qfloor_le.
  rewrite E in *. apply Qle_antisym.
  - unfold Qminus. setoid_replace 0%Q with (inject_Z p + - inject_Z p)%Q
      by (symmetry; apply Qplus_opp_r).
    apply Qplus_le_compat; [exact C1 | apply Qle_refl].
  - unfold Qminus. setoid_replace 0%Q with (inject_Z p + - inject_Z p)%Q
      by (symmetry; apply Qplus_opp_r).
    apply Qplus_le_compat; [exact Lf | apply Qle_refl].
Qed.

Lemma length_zoom_axis {A} (mix : Q -> A -> A -> A) dflt (l : list A) :
  length (zoom_axis mix dflt l) = (2 * length l)%nat.
Proof. unfold zoom_axis. rewrite length_map, length_seq. reflexivity. Qed.

(** A zoom by two doubles both sides of the array. *)
Lemma zoom2_shaped (x : list (list Q)) a b :
  shaped a b x -> shaped (2 * a) (2 * b) (zoom2 x).
Proof.
  intros [L F]. unfold zoom2.
  set (rows := map (zoom_axis mixQ 0%Q) x).
  assert (Lr : length rows = a) by (unfold rows; rewrite length_map; exact L).
  assert (Fr : Forall (fun r => length r = (2 * b)%nat) rows).
  { unfold rows. apply Forall_map. revert F. apply Forall_impl. intros r <-.
    apply length_zoom_axis. }
  split; [rewrite length_zoom_axis, Lr; reflexivity|].
  unfold zoom_axis. rewrite Lr. apply Forall_map, Forall_forall. intros j Ij.
  apply in_seq in Ij.
  assert (Ha : (1 <= a)%nat) by lia.
  destruct (zoom_reads_inside a j Ha) as [R1 R2]; [lia|]. cbv zeta in R1, R2.
  assert (N : forall k, (k < a)%nat -> length (nth k rows []) = (2 * b)%nat).
  { intros k Hk. rewrite Forall_forall in Fr. apply Fr, nth_In. lia. }
  unfold lerp.
  destruct (Qeq_bool _ 0) eqn:T.
  - apply N, R1.
  - rewrite length_map, length_combine, (N _ R1), (N _ (R2 eq_refl)). lia.
Qed.

Lemma crop_shaped {A} (x : list (list A)) h w : shaped h w x -> shaped h w (crop h w x).
Proof.
  intros [L F]. unfold crop. split.
  - rewrite length_firstn, length_map, L. lia.
  - apply Forall_forall. intros r I. apply In_firstn_In in I.
    apply in_map_iff in I. destruct I as (r0 & <- & I0).
    rewrite Forall_forall in F. rewrite length_firstn, (F r0 I0). lia.
Qed.

Lemma astype_uint8_range q : 0 <= astype_uint8 q <= 255.
Proof. unfold astype_uint8. pose proof (Z.mod_pos_bound (Z.quot (Qnum q) (Z.pos (Qden q))) 256). lia. Qed.

(** Three planes of one shape, cast to 8 bits, interleave to an image. *)
Lemma rgb_of_planes_displayable (r g b : list (list Q)) h w :
  shaped h w r -> shaped h w g -> shaped h w b ->
  displayable h w (Img (Arr3 (rgb_of_planes (np_map astype_uint8 r)
                                             (np_map astype_uint8 g)
                                             (np_map astype_uint8 b)))).
Proof.
  intros Sr Sg Sb.
  assert (P : forall x, shaped h w x ->
            shaped h w (np_map astype_uint8 x) /\
            Forall (Forall (fun v => 0 <= v <= 255)) (np_map astype_uint8 x)).
  { intros x Sx. split; [apply np_map_shaped, Sx|].
    unfold np_map. apply Forall_map, Forall_forall. intros row _.
    apply Forall_map, Forall_forall. intros v _. apply astype_uint8_range. }
  destruct (P r Sr) as [[Lr Fr] Vr]. destruct (P g Sg) as [[Lg Fg] Vg].
  destruct (P b Sb) as [[Lb Fb] Vb].
  set (r8 := np_map astype_uint8 r) in *. set (g8 := np_map astype_uint8 g) in *.
  set (b8 := np_map astype_uint8 b) in *.
  eexists. split; [reflexivity|]. unfold rgb_of_planes. split.
  - rewrite length_map, !length_combine. lia.
  - apply Forall_map.
    pose proof (Forall_combine _ _ _ _ (List.Forall_and Fr Vr)
                  (Forall_combine _ _ _ _ (List.Forall_and Fg Vg) (List.Forall_and Fb Vb))) as Fc.
    revert Fc. apply Forall_impl.
    intros [rr [gr br]] [[Lrr Vrr] [[Lgr Vgr] [Lbr Vbr]]]. cbn [fst snd] in *.
    split; [rewrite length_map, !length_combine; lia|].
    apply Forall_map.
    pose proof (Forall_combine _ _ _ _ Vrr (Forall_combine _ _ _ _ Vgr Vbr)) as Fp.
    revert Fp. apply Forall_impl. intros [u [v z]] [Hu [Hv Hz]]. cbn [fst snd] in *.
    split; [reflexivity|]. repeat constructor; lia.
Qed.

Lemma cyym_planes_shaped {A} (data : list (list A)) pattern a b cy y1 y2 mg :
  shaped (2 * a) (2 * b) data ->
  cyym_planes data pattern = (cy, y1, y2, mg) ->
  shaped a b cy /\ shaped a b y1 /\ shaped a b y2 /\ shaped a b mg.
Proof.
  intros S. unfold cyym_planes.
  destruct (String.eqb pattern "CYYM"); [|destruct (String.eqb pattern "YCMY");
    [|destruct (String.eqb pattern "YMCY"); [|destruct (String.eqb pattern "MYYC")]]];
    intros [= <- <- <- <-]; (split; [|split; [|split]]); apply quarter_shaped; exact S.
Qed.

Lemma debayer_cyym_2d_shaped (data : list (list Z)) pattern a b :
  (1 <= a)%nat -> shaped (2 * a) (2 * b) data ->
  exists rgb, debayer_cyym_2d data pattern = Ok rgb /\
              displayable (2 * a) (2 * b) (Img (Arr3 rgb)).
Proof.
  intros Ha S. unfold debayer_cyym_2d.
  destruct (cyym_planes data pattern) as [[[cy y1] y2] mg] eqn:P.
  destruct (cyym_planes_shaped _ _ _ _ _ _ _ _ S P) as (Scy & Sy1 & Sy2 & Smg).
  assert (Hh : length data = (2 * a)%nat) by apply S.
  assert (Hw : length (hd [] data) = (2 * b)%nat).
  { destruct S as [L F]. destruct data as [|r data]; [cbn in L; lia|].
    inversion F; assumption. }
  rewrite Hh, Hw.
  pose proof (np_map_shaped inject_Z _ _ _ Scy) as Qcy.
  pose proof (np_map_shaped inject_Z _ _ _ Sy1) as Qy1.
  pose proof (np_map_shaped inject_Z _ _ _ Sy2) as Qy2.
  pose proof (np_map_shaped inject_Z _ _ _ Smg) as Qmg.
  destruct (np_binop_shaped Qplus _ _ _ _ Qy1 Qy2) as (y12 & E1 & S1).
  rewrite E1. cbn [rbind].
  pose proof (np_map_shaped (fun v => v / 2)%Q _ _ _ S1) as Sya.
  destruct (np_binop_shaped Qplus _ _ _ _ Sya Qmg) as (ym & E2 & S2).
  rewrite E2. cbn [rbind].
  destruct (np_binop_shaped Qminus _ _ _ _ S2 Qcy) as (r2 & E3 & S3).
  rewrite E3. cbn [rbind].
  destruct (np_binop_shaped Qplus _ _ _ _ Sya Qcy) as (yc & E4 & S4).
  rewrite E4. cbn [rbind].
  destruct (np_binop_shaped Qminus _ _ _ _ S4 Qmg) as (g2 & E5 & S5).
  rewrite E5. cbn [rbind].
  destruct (np_binop_shaped Qplus _ _ _ _ Qcy Qmg) as (cm & E6 & S6).
  rewrite E6. cbn [rbind].
  destruct (np_binop_shaped Qminus _ _ _ _ S6 Sya) as (b2 & E7 & S7).
  rewrite E7. cbn [rbind].
  eexists. split; [reflexivity|].
  apply rgb_of_planes_displayable; apply crop_shaped, zoom2_shaped, np_map_shaped; assumption.
Qed.

(** X27: on a frame of even height and even width the cyan-yellow-magenta
    reconstruction always succeeds, for every arrangement: [debayer_cyym]
    returns an image of exactly the frame's height and width with three
    8-bit values per pixel, and so does [process_frame] for colour id 8 at
    either depth. *)
Theorem debayer_cyym_even_frame (data : list (list Z)) (a b : nat) pattern depth :
  (1 <= a)%nat ->
  shaped (2 * a) (2 * b) data ->
  (exists im, debayer_cyym (Arr2 data) pattern = Ok im /\
              displayable (2 * a) (2 * b) im) /\
  (exists im, process_frame HAS_OPENCV cv2_cvtColor debayer_simple CYYM_PATTERN
                            (Arr2 data) COLOR_BAYER_CYYM depth = Ok im /\
              displayable (2 * a) (2 * b) im).
Proof.
  intros Ha S. split.
  - destruct (debayer_cyym_2d_shaped data pattern a b Ha S) as (rgb & E & D).
    exists (Img (Arr3 rgb)). unfold debayer_cyym. rewrite E. split; [reflexivity | exact D].
  - unfold process_frame.
    change (COLOR_BAYER_CYYM =? COLOR_MONO) with false.
    change (SERParser.Z_in COLOR_BAYER_CYYM _) with true. cbv iota.
    unfold debayer. change (COLOR_BAYER_CYYM =? COLOR_BAYER_CYYM) with true. cbv iota.
    assert (S' : forall g : Z -> Z, shaped (2 * a) (2 * b) (np_map g data))
      by (intros g; apply np_map_shaped, S).
    destruct (depth =? 16); unfold normalize_16bit, debayer_cyym.
    + destruct (debayer_cyym_2d_shaped _ CYYM_PATTERN a b Ha
                  (S' (fun v => astype_uint8 (inject_Z v / 256)))) as (rgb & E & D).
      rewrite E. eexists. split; [reflexivity | exact D].
    + destruct (debayer_cyym_2d_shaped data CYYM_PATTERN a b Ha S) as (rgb & E & D).
      rewrite E. eexists. split; [reflexivity | exact D].
Qed.

End EvenFrames.

Lemma debayer_cyym_even_frame_witness :
  exists im,
    ImageProcessor.debayer_cyym (Arr2 (Examples.mosaic_block "YMCY" 30 50 40)) "YMCY" = Ok im /\
    displayable 2 2 im.
Proof.
  refine (proj1 (debayer_cyym_even_frame false Examples.cvtColor_unavailable
                   Examples.debayer_simple_unreached "CYYM"
                   (Examples.mosaic_block "YMCY" 30 50 40) 1 1 "YMCY" 8 _ _)).
  - lia.
  - split; [reflexivity|]. repeat constructor.
Defined.

(** ** Packed colour frames *)

Section ColourFrames.
Import SERParser.

(** X28: packed colour frames are pixel-interleaved: channel [ch] of the
    pixel at row [r], column [c] of frame [i] is the value of the one or two
    bytes at offset 178 + i x frame size + ((r x width + c) x 3 + ch) x
    bytes per sample of the file, in the byte order of the header. *)
Theorem get_frame_colour_sample p0 p h i (r c ch : nat) :
  parse_header p0 = Ok (p, h) ->
  Z_in (color_id h) [100; 101] = true ->
  0 <= i < frame_count h ->
  178 + (i + 1) * _frame_size p <= file_size p ->
  (r < Z.to_nat (image_height h))%nat ->
  (c < Z.to_nat (image_width h))%nat ->
  (ch < 3)%nat ->
  exists d rows,
    get_frame p i = Ok {| dtype_of := d; px := Arr3 rows |} /\
    nth ch (nth c (nth r rows []) []) 0
    = field_at (endian_char (little_endian h)) (file p)
               (Z.to_nat (178 + i * _frame_size p)
                + Z.to_nat (pixel_depth h / 8)
                  * ((r * Z.to_nat (image_width h) + c) * 3 + ch))
               (Z.to_nat (pixel_depth h / 8)).
Proof.
  intros H C Hi L Hr Hc Hch. pose proof (parse_header_valid _ _ _ H)
    as (_ & Hd & _ & Hw & Hh & _ & Hs0 & Hp & _).
  pose proof (parse_header_Ok _ _ _ H) as (_ & _ & _ & Hs & _).
  assert (B : (i <? 0) || (i >=? frame_count h) = false).
  { apply orb_false_iff. split; [apply Z.ltb_ge; lia|].
    rewrite Z.geb_leb. apply Z.leb_gt. lia. }
  unfold get_frame. rewrite Hp, B, C. unfold HEADER_SIZE.
  assert (Lr : length (read_at p (178 + i * _frame_size p) (_frame_size p))
               = Z.to_nat (_frame_size p)) by (apply length_read_at; nia).
  assert (Lt : (Z.of_nat (length (read_at p (178 + i * _frame_size p) (_frame_size p)))
                <? _frame_size p) = false) by (apply Z.ltb_ge; lia).
  rewrite Lt. clear Lt. eexists. eexists. split; [reflexivity|].
  rewrite nth_reshape by assumption.
  rewrite nth_reshape by (try exact Hch; nia).
  assert (Es : Z.to_nat (_frame_size p)
               = (Z.to_nat (image_height h) * Z.to_nat (image_width h)
                  * Z.to_nat (pixel_depth h / 8) * 3)%nat).
  { rewrite Hs. unfold frame_size_of. rewrite C.
    assert (0 <= pixel_depth h / 8) by (destruct Hd as [-> | ->]; cbn; lia). nia. }
  destruct Hd as [E|E]; rewrite E in *; cbn [Z.eqb Pos.eqb frombuffer].
  - change (Z.to_nat (8 / 8)) with 1%nat in *.
    rewrite nth_map_byte_val, !field_at_one_byte.
    rewrite byte_at_read_at by nia. f_equal. lia.
  - change (Z.to_nat (16 / 8)) with 2%nat in *.
    rewrite nth_frombuffer_u2 by nia.
    rewrite field_at_read_at by nia. reflexivity.
Qed.

Lemma get_frame_colour_sample_witness :
  exists p h d rows,
    parse_header (init two_pixels) = Ok (p, h) /\
    get_frame p 0 = Ok {| dtype_of := d; px := Arr3 rows |} /\
    nth 2 (nth 1 (nth 0 rows []) []) 0 = 6.
Proof.
  destruct (parse_header (init two_pixels)) as [[p h]|e] eqn:E.
  - destruct (get_frame_colour_sample _ p h 0 0 1 2 E) as (d & rows & G & N);
      try (vm_compute in E; injection E as <- <-; vm_compute;
           first [reflexivity | discriminate | lia
                 | split; [discriminate | reflexivity]]).
    exists p, h, d, rows. split; [reflexivity|]. split; [exact G|].
    rewrite N. vm_compute in E. injection E as <- <-. vm_compute. reflexivity.
  - vm_compute in E. discriminate.
Defined.

End ColourFrames.
